(** * eslint-plugin-qunit: rule visitors over an ESTree, embedded in Rocq

    The rules of the plugin are visitor objects: the linter walks the syntax
    tree depth first and calls a rule's [CallExpression] handler when it
    enters a call, its ["CallExpression:exit"] handler when it leaves it, and
    so on.  A rule keeps its context stack in closure variables; here that
    state is a record threaded through the handlers, a thrown exception is the
    [Throw] outcome of a small error monad, and [context.report] appends to
    the list of reports carried by the state. *)

From stdpp Require Import gmap strings list pretty.
From Stdlib Require Import ZArith Lia.

Set Warnings "-register-all".
Open Scope string_scope.

(** ** Exceptions *)

Inductive result (A : Type) : Type :=
| Ok (a : A)
| Throw (e : string).
Arguments Ok {A} a.
Arguments Throw {A} e.

#[global] Instance result_ret : MRet result := @Ok.
#[global] Instance result_bind : MBind result :=
  fun A B f m => match m with Ok a => f a | Throw e => Throw e end.

(** ** Syntax trees *)

Module AST.

(** What the rules read of a node beside its shape: the slice of the source
    text it spans ([sourceCode.getText(node)]) and the line it starts on
    ([node.loc.start.line]). *)
Record src := Src { text : string; line : nat }.

(** The [value] of a [Literal].  A regular-expression literal carries a
    [RegExp] object, which [===] compares by identity. *)
Inductive lit :=
| LStr (s : string)
| LBool (b : bool)
| LNum (z : Z)
| LNull
| LRegExp.

(** The node kinds that the rules look into have a constructor of their own;
    [Other] is every other kind (statements, loops, object expressions,
    declarations, ...), with its [type] tag and its children in visiting
    order. *)
Inductive node :=
| Identifier (i : src) (name : string)
| Literal (i : src) (value : lit)
| UnaryExpression (i : src) (operator : string) (argument : node)
| MemberExpression (i : src) (object property : node)
| CallExpression (i : src) (callee : node) (arguments : list node)
| FunctionExpression (i : src) (params : list node) (body : node)
| ArrowFunctionExpression (i : src) (params : list node) (body : node)
| Property (i : src) (key value : node)
| AssignmentExpression (i : src) (left right : node)
| VariableDeclarator (i : src) (id : node) (init : option node)
| Other (i : src) (type : string) (children : list node).

Definition node_src (n : node) : src :=
  match n with
  | Identifier i _ | Literal i _ | UnaryExpression i _ _
  | MemberExpression i _ _ | CallExpression i _ _
  | FunctionExpression i _ _ | ArrowFunctionExpression i _ _
  | Property i _ _ | AssignmentExpression i _ _
  | VariableDeclarator i _ _ | Other i _ _ => i
  end.

Definition node_type (n : node) : string :=
  match n with
  | Identifier _ _ => "Identifier"
  | Literal _ _ => "Literal"
  | UnaryExpression _ _ _ => "UnaryExpression"
  | MemberExpression _ _ _ => "MemberExpression"
  | CallExpression _ _ _ => "CallExpression"
  | FunctionExpression _ _ _ => "FunctionExpression"
  | ArrowFunctionExpression _ _ _ => "ArrowFunctionExpression"
  | Property _ _ _ => "Property"
  | AssignmentExpression _ _ _ => "AssignmentExpression"
  | VariableDeclarator _ _ _ => "VariableDeclarator"
  | Other _ t _ => t
  end.

(** [sourceCode.getText(node)] *)
Definition getText (n : node) : string := text (node_src n).

(** A node object is identified by where it sits in the tree: the child
    indices from the root, innermost first.  Two nodes are the same object
    ([===]) exactly when their paths agree. *)
Definition path := list nat.

(** Child indices follow the visiting order: the callee of a call is child
    0 and its arguments are children 1, 2, ... *)
Definition callee_path (p : path) : path := 0 :: p.
Definition arg_path (p : path) (k : nat) : path := S k :: p.
Definition member_property_path (p : path) : path := 1 :: p.

Definition is_Identifier (n : node) : bool :=
  match n with Identifier _ _ => true | _ => false end.
Definition is_Literal (n : node) : bool :=
  match n with Literal _ _ => true | _ => false end.
Definition is_function (n : node) : bool :=
  match n with
  | FunctionExpression _ _ _ | ArrowFunctionExpression _ _ _ => true
  | _ => false
  end.

(** [Array.prototype.find] *)
Fixpoint find {A} (f : A -> bool) (l : list A) : option A :=
  match l with
  | [] => None
  | x :: l' => if f x then Some x else find f l'
  end.

(** [Array.prototype.includes] and [Set.prototype.has] on strings *)
Definition includes (l : list string) (s : string) : bool :=
  existsb (String.eqb s) l.

(** [Array.prototype.join] *)
Fixpoint join (sep : string) (l : list string) : string :=
  match l with
  | [] => ""
  | [x] => x
  | x :: l' => x ++ sep ++ join sep l'
  end.

(** [name === v] for a string [name] and a [string | null] value [v] *)
Definition eq_name (name : string) (v : option string) : bool :=
  match v with Some x => String.eqb name x | None => false end.

End AST.
Import AST.

(** ** Reports *)

(** One [fixer.replaceText(node, text)]. *)
Record edit := Edit { e_node : path; e_text : string }.

(** What a rule passes to [context.report].  The linter calls the [fix]
    function while it handles the report, so the record holds its outcome:
    [None] when the report has no [fix] or the function returned [null]. *)
Record report := Report {
  r_node : path;
  messageId : string;
  data : list (string * string);
  fix_ : option (list edit);
  suggest : list (string * option (list edit))
}.

(** ** The traversal of the linter *)

(** A handler receives the node; [v_parents] is the chain
    [node.parent], [node.parent.parent], ... *)
Record visit := Visit {
  v_path : path;
  v_node : node;
  v_parents : list node
}.

Record rule (St : Type) := Rule {
  enter : visit -> St -> result St;
  leave : visit -> St -> result St
}.
Arguments Rule {St} enter leave.
Arguments enter {St} r v s.
Arguments leave {St} r v s.

Section Traversal.
Context {St : Type} (R : rule St).

Fixpoint traverse (ps : list node) (p : path) (n : node) (s : St)
  {struct n} : result St :=
  let go := fix go (k : nat) (l : list node) (s : St) {struct l}
      : result St :=
    match l with
    | [] => Ok s
    | c :: l' => s' ← traverse (n :: ps) (k :: p) c s; go (S k) l' s'
    end in
  s1 ← enter R (Visit p n ps) s;
  s2 ← match n with
       | Identifier _ _ | Literal _ _ => Ok s1
       | UnaryExpression _ _ a => traverse (n :: ps) (0 :: p) a s1
       | MemberExpression _ o pr
       | Property _ o pr
       | AssignmentExpression _ o pr =>
           s' ← traverse (n :: ps) (0 :: p) o s1;
           traverse (n :: ps) (1 :: p) pr s'
       | CallExpression _ c args =>
           s' ← traverse (n :: ps) (0 :: p) c s1; go 1 args s'
       | FunctionExpression _ pa b
       | ArrowFunctionExpression _ pa b =>
           s' ← go 0 pa s1; traverse (n :: ps) (length pa :: p) b s'
       | VariableDeclarator _ x (Some e) =>
           s' ← traverse (n :: ps) (0 :: p) x s1;
           traverse (n :: ps) (1 :: p) e s'
       | VariableDeclarator _ x None => traverse (n :: ps) (0 :: p) x s1
       | Other _ _ cs => go 0 cs s1
       end;
  leave R (Visit p n ps) s2.

(** The children of [parent], from index [k] on, in order. *)
Fixpoint traverse_list (ps : list node) (p : path) (k : nat)
  (l : list node) (s : St) : result St :=
  match l with
  | [] => Ok s
  | c :: l' => s' ← traverse ps (k :: p) c s; traverse_list ps p (S k) l' s'
  end.

(** The linter starts at the [Program] node, which has no parent. *)
Definition lint (program : node) (s0 : St) : result St :=
  traverse [] [] program s0.
End Traversal.

(** ** lib/utils.js *)

Module utils.

Definition SUPPORTED_TEST_IDENTIFIERS : list string :=
  ["test"; "asyncTest"; "only"].

Definition OLD_MODULE_HOOK_IDENTIFIERS : list string := ["setup"; "teardown"].
Definition NEW_MODULE_HOOK_IDENTIFIERS : list string :=
  ["before"; "beforeEach"; "afterEach"; "after"].
Definition ALL_MODULE_HOOK_IDENTIFIERS : list string :=
  OLD_MODULE_HOOK_IDENTIFIERS ++ NEW_MODULE_HOOK_IDENTIFIERS.

Record metadata := Metadata {
  allowedArities : list nat;
  compareActualFirst : option bool   (* [None]: the key is absent *)
}.

Definition ASSERTION_METADATA : list (string * metadata) :=
  [ ("deepEqual", Metadata [2] (Some true));
    ("equal", Metadata [2] (Some true));
    ("false", Metadata [1] None);
    ("notDeepEqual", Metadata [2] (Some true));
    ("notEqual", Metadata [2] (Some true));
    ("notOk", Metadata [1] None);
    ("notPropEqual", Metadata [2] (Some true));
    ("notStrictEqual", Metadata [2] (Some true));
    ("ok", Metadata [1] None);
    ("propEqual", Metadata [2] (Some true));
    ("strictEqual", Metadata [2] (Some true));
    ("raises", Metadata [1; 2] None);
    ("throws", Metadata [1; 2] None);
    ("true", Metadata [1] None) ].

(** Own-property lookup in an object literal. *)
Fixpoint own {A} (o : list (string * A)) (k : string) : option A :=
  match o with
  | [] => None
  | (k', v) :: o' => if String.eqb k k' then Some v else own o' k
  end.

(** [n.type === "Identifier" && p(n.name)] *)
Definition ident_with (p : string -> bool) (n : node) : bool :=
  match n with Identifier _ name => p name | _ => false end.

Definition getAssertionMetadata (calleeNode : node)
  (assertVar : option string) : option metadata :=
  match calleeNode with
  | MemberExpression _ (Identifier _ oname) (Identifier _ pname) =>
      if eq_name oname assertVar then own ASSERTION_METADATA pname else None
  | Identifier _ name => own ASSERTION_METADATA name
  | _ => None
  end.

(** A [string | null] value used as a condition: [null] and the empty
    string are falsy. *)
Definition truthy (v : option string) : bool :=
  match v with Some s => negb (String.eqb s "") | None => false end.

Definition isAsyncCallExpression (callExpressionNode : node)
  (assertVar : option string) : bool :=
  let assertVar := if truthy assertVar then assertVar else Some "assert" in
  match callExpressionNode with
  | CallExpression _ (MemberExpression _ (Identifier _ oname) pr) _ =>
      eq_name oname assertVar && ident_with (String.eqb "async") pr
  | _ => false
  end.

(** The shape shared by [isStop], [isStart], [isTest], [isModule] and
    [isAsyncTest]: a bare name, or that name on the [QUnit] object. *)
Definition bare_or_QUnit (p : string -> bool) (calleeNode : node) : bool :=
  match calleeNode with
  | Identifier _ name => p name
  | MemberExpression _ o pr =>
      ident_with (fun n => String.eqb n "QUnit") o && ident_with p pr
  | _ => false
  end.

Definition isStop : node -> bool := bare_or_QUnit (fun n => String.eqb n "stop").
Definition isStart : node -> bool :=
  bare_or_QUnit (fun n => String.eqb n "start").
Definition isTest : node -> bool :=
  bare_or_QUnit (includes SUPPORTED_TEST_IDENTIFIERS).
Definition isModule : node -> bool :=
  bare_or_QUnit (fun n => String.eqb n "module").
Definition isAsyncTest : node -> bool :=
  bare_or_QUnit (fun n => String.eqb n "asyncTest").

(** [propertyNode.parent.parent] is a call of [module]. *)
Definition isInModule (propertyNode : visit) : bool :=
  match v_parents propertyNode with
  | _ :: CallExpression _ callee _ :: _ => isModule callee
  | _ => false
  end.

Definition isModuleHookPropertyKey (identifierNode : node) : bool :=
  ident_with (includes ALL_MODULE_HOOK_IDENTIFIERS) identifierNode.

Definition getAssertContextName (functionExpr : node) : option string :=
  match functionExpr with
  | FunctionExpression _ params _ | ArrowFunctionExpression _ params _ =>
      match find (ident_with (fun n => negb (String.eqb n "this"))) params with
      | Some (Identifier _ name) => Some name
      | _ => None
      end
  | _ => None
  end.

Definition getAssertContextNameForTest (argumentsNodes : list node)
  : option string :=
  match find is_function argumentsNodes with
  | None => None
  | Some functionExpr => getAssertContextName functionExpr
  end.

Definition isAssertion (calleeNode : node) (assertVar : option string) : bool :=
  match getAssertionMetadata calleeNode assertVar with
  | Some _ => true
  | None => false
  end.

(** [Object.hasOwnProperty.call(null, ...)] is a [TypeError]. *)
Definition isComparativeAssertion (calleeNode : node)
  (assertVar : option string) : result bool :=
  match getAssertionMetadata calleeNode assertVar with
  | None => Throw "TypeError"
  | Some m => Ok (match compareActualFirst m with Some _ => true | None => false end)
  end.

Definition shouldCompareActualFirst (calleeNode : node)
  (assertVar : option string) : bool :=
  match getAssertionMetadata calleeNode assertVar with
  | None => false
  | Some m => match compareActualFirst m with Some b => b | None => false end
  end.

Definition getAssertionNames : list string := map fst ASSERTION_METADATA.

Definition getAllowedArities (calleeNode : node) (assertVar : option string)
  : list nat :=
  match getAssertionMetadata calleeNode assertVar with
  | None => []
  | Some assertionMetadata => allowedArities assertionMetadata
  end.

End utils.

(** ** JavaScript values the rules compute with *)

Module JS.

(** A number: the rules only ever hold integers, or [NaN]. *)
Inductive number :=
| Num (z : Z)
| NaN.

Definition add (a b : number) : number :=
  match a, b with
  | Num x, Num y => Num (x + y)
  | _, _ => NaN
  end.

Definition neg (a : number) : number :=
  match a with Num x => Num (- x) | NaN => NaN end.

(** [a > 0]; every comparison with [NaN] is false. *)
Definition gt0 (a : number) : bool :=
  match a with Num x => (0 <? x)%Z | NaN => false end.

(** [a === 1] *)
Definition is1 (a : number) : bool :=
  match a with Num x => (x =? 1)%Z | NaN => false end.

Definition toString (a : number) : string :=
  match a with Num x => pretty x | NaN => "NaN" end.

(** Unary plus applied to a syntax-tree node.  A node is an ordinary object:
    [ToNumber] takes its primitive value, the string ["[object Object]"],
    which is not a numeral, so the result is [NaN] whatever the node is. *)
Definition plus_node (n : node) : number := NaN.

(** A plain object [{}] used as a dictionary of booleans: its own
    properties in insertion order, over [Object.prototype]. *)
Definition object := list (string * bool).

Definition Object_prototype : list string :=
  [ "constructor"; "hasOwnProperty"; "isPrototypeOf"; "propertyIsEnumerable";
    "toLocaleString"; "toString"; "valueOf"; "__proto__";
    "__defineGetter__"; "__defineSetter__";
    "__lookupGetter__"; "__lookupSetter__" ].

(** [k in o]: own or inherited. *)
Definition has_in (k : string) (o : object) : bool :=
  match utils.own o k with
  | Some _ => true
  | None => includes Object_prototype k
  end.

Fixpoint set_own (o : object) (k : string) (v : bool) : object :=
  match o with
  | [] => [(k, v)]
  | (k', v') :: o' =>
      if String.eqb k k' then (k, v) :: o' else (k', v') :: set_own o' k v
  end.

(** [o[k] = v] for a boolean [v].  The inherited [__proto__] is an accessor
    whose setter ignores a value that is not an object; every other key
    becomes (or stays) an own property. *)
Definition assign (o : object) (k : string) (v : bool) : object :=
  if String.eqb k "__proto__" then o else set_own o k v.

End JS.

(** ** lib/rules/resolve-async.js *)

Module ResolveAsync.
Import utils.

Record AsyncState := mkAsyncState {
  stopSemaphoreCount : JS.number;
  asyncCallbackVars : JS.object;
  assertContextVar : option string
}.

(** The head of [asyncStateStack] is the top of the stack (the last element
    of the array). *)
Record state := mkState {
  asyncStateStack : list AsyncState;
  reports : list report
}.

Definition initial : state := mkState [] [].

Definition isAsyncCallExpression (st : state) (callExpressionNode : node)
  : bool :=
  match asyncStateStack st with
  | [] => false
  | asyncState :: _ =>
      if truthy (assertContextVar asyncState)
      then utils.isAsyncCallExpression callExpressionNode
             (assertContextVar asyncState)
      else false
  end.

Definition getAsyncCallbackVarOrNull (st : state) (calleeNode : node)
  : option string :=
  match asyncStateStack st with
  | [] => None
  | asyncState :: _ =>
      match calleeNode with
      | Identifier _ name =>
          if JS.has_in name (asyncCallbackVars asyncState)
          then Some name else None
      | MemberExpression _ object property =>
          let isCallOrApply :=
            ident_with (includes ["call"; "apply"]) property in
          match object with
          | Identifier _ oname =>
              let isCallbackVar :=
                JS.has_in oname (asyncCallbackVars asyncState) in
              if isCallOrApply && isCallbackVar then Some oname else None
          | _ => None
          end
      | _ => None
      end
  end.

(** The helpers below change the top frame in place and do nothing when the
    stack is empty. *)
Definition on_top (f : AsyncState -> AsyncState) (st : state) : state :=
  match asyncStateStack st with
  | [] => st
  | asyncState :: rest => mkState (f asyncState :: rest) (reports st)
  end.

Definition incrementSemaphoreCount (amount : JS.number) : state -> state :=
  on_top (fun a => mkAsyncState (JS.add (stopSemaphoreCount a) amount)
                     (asyncCallbackVars a) (assertContextVar a)).

Definition addAsyncCallbackVar (lhsNode : node) (st : state) : state :=
  match lhsNode with
  | Identifier _ name =>
      on_top (fun a => mkAsyncState (stopSemaphoreCount a)
                         (JS.assign (asyncCallbackVars a) name false)
                         (assertContextVar a)) st
  | _ => st
  end.

Definition markAsyncCallbackVarCalled (name : string) : state -> state :=
  on_top (fun a => mkAsyncState (stopSemaphoreCount a)
                     (JS.assign (asyncCallbackVars a) name true)
                     (assertContextVar a)).

Definition needMoreStartCalls (node : path) (count : JS.number) : report :=
  Report node "needMoreStartCalls"
    [ ("semaphore", JS.toString count);
      ("callOrCalls", if JS.is1 count then "call" else "calls") ]
    None [].

Definition asyncCallbackNotCalled (node : path) (callbackVar : string)
  : report :=
  Report node "asyncCallbackNotCalled" [("asyncVar", callbackVar)] None [].

(** The reports of [verifyAsyncState], in the order they are made. *)
Definition verifyAsyncState (asyncState : AsyncState) (node : path)
  : list report :=
  (if JS.gt0 (stopSemaphoreCount asyncState)
   then [needMoreStartCalls node (stopSemaphoreCount asyncState)]
   else [])
  ++ map (fun kv => asyncCallbackNotCalled node (fst kv))
       (List.filter (fun kv => negb (snd kv)) (asyncCallbackVars asyncState)).

Definition push (a : AsyncState) (st : state) : state :=
  mkState (a :: asyncStateStack st) (reports st).

(** [asyncStateStack.pop()] followed by [verifyAsyncState]. *)
Definition pop_and_verify (node : path) (st : state) : state :=
  match asyncStateStack st with
  | [] => st
  | asyncState :: rest =>
      mkState rest (reports st ++ verifyAsyncState asyncState node)
  end.

(** [node.arguments.length > 0 ? +node.arguments[0] : 1] *)
Definition delta_of (arguments : list node) : JS.number :=
  match arguments with
  | [] => JS.Num 1
  | a :: _ => JS.plus_node a
  end.

Definition CallExpression_enter (callee : node) (arguments : list node)
  (st : state) : state :=
  let callbackVar := getAsyncCallbackVarOrNull st callee in
  if isTest callee then
    push (mkAsyncState (if isAsyncTest callee then JS.Num 1 else JS.Num 0)
            [] (getAssertContextNameForTest arguments)) st
  else if truthy callbackVar then
    match callbackVar with
    | Some name => markAsyncCallbackVarCalled name st
    | None => st
    end
  else if isStop callee then
    incrementSemaphoreCount (delta_of arguments) st
  else if isStart callee then
    incrementSemaphoreCount (JS.neg (delta_of arguments)) st
  else st.

Definition CallExpression_exit (p : path) (callee : node) (st : state)
  : state :=
  if isTest callee then pop_and_verify p st else st.

Definition Property_enter (v : visit) (key value : node) (st : state)
  : state :=
  if isModuleHookPropertyKey key && isInModule v
  then push (mkAsyncState (JS.Num 0) [] (getAssertContextName value)) st
  else st.

Definition Property_exit (v : visit) (key : node) (st : state) : state :=
  if isModuleHookPropertyKey key && isInModule v
  then pop_and_verify (v_path v) st
  else st.

Definition AssignmentExpression_enter (lhs rhs : node) (st : state)
  : state :=
  if isAsyncCallExpression st rhs
  then (if is_Identifier lhs then addAsyncCallbackVar lhs st else st)
  else st.

Definition VariableDeclarator_enter (id : node) (init : option node)
  (st : state) : state :=
  match init with
  | Some e =>
      if isAsyncCallExpression st e
      then (if is_Identifier id then addAsyncCallbackVar id st else st)
      else st
  | None => st
  end.

Definition on_enter (v : visit) (st : state) : state :=
  match v_node v with
  | CallExpression _ callee arguments =>
      CallExpression_enter callee arguments st
  | Property _ key value => Property_enter v key value st
  | AssignmentExpression _ lhs rhs => AssignmentExpression_enter lhs rhs st
  | VariableDeclarator _ id init => VariableDeclarator_enter id init st
  | _ => st
  end.

Definition on_exit (v : visit) (st : state) : state :=
  match v_node v with
  | CallExpression _ callee _ => CallExpression_exit (v_path v) callee st
  | Property _ key _ => Property_exit v key st
  | _ => st
  end.

Definition the_rule : rule state :=
  Rule (fun v st => Ok (on_enter v st)) (fun v st => Ok (on_exit v st)).

End ResolveAsync.

(** A template literal [`${v}`] of a [string | null] value. *)
Definition template (v : option string) : string :=
  match v with Some s => s | None => "null" end.

(** A literal's value used as a condition. *)
Definition lit_truthy (v : lit) : bool :=
  match v with
  | LStr s => negb (String.eqb s "")
  | LBool b => b
  | LNum z => negb (z =? 0)%Z
  | LNull => false
  | LRegExp => true
  end.

(** A value that may be [undefined], used as a condition. *)
Definition defined {A} (o : option A) : bool :=
  match o with Some _ => true | None => false end.

(** The elements of an array with their indices: an argument of a call is
    the object at that index, and [!==] between two arguments of one call
    compares indices. *)
Definition indexed {A} (l : list A) : list (nat * A) :=
  imap (fun k a => (k, a)) l.

(** ** lib/rules/no-assert-equal-boolean.js *)

Module NoAssertEqualBoolean.
Import utils.

Definition EQUALITY_ASSERTIONS : list string :=
  ["equal"; "deepEqual"; "strictEqual"].

Record frame := Frame { assertVar : option string }.

Record state := mkState {
  testStack : list frame;     (* head = top *)
  reports : list report
}.

Definition initial : state := mkState [] [].

Definition getCurrentAssertContextVariable (st : state)
  : result (option string) :=
  match testStack st with
  | [] => Throw "AssertionError: Test stack should not be empty"
  | f :: _ => Ok (assertVar f)
  end.

Definition isGlobalEqualityAssertion (calleeNode : node) : bool :=
  ident_with (includes EQUALITY_ASSERTIONS) calleeNode.

(** The stack is read last, when every other conjunct holds. *)
Definition isAssertEquality (st : state) (calleeNode : node) : result bool :=
  match calleeNode with
  | MemberExpression _ object property =>
      if ident_with (includes EQUALITY_ASSERTIONS) property then
        match object with
        | Identifier _ oname =>
            v ← getCurrentAssertContextVariable st; Ok (eq_name oname v)
        | _ => Ok false
        end
      else Ok false
  | _ => Ok false
  end.

Definition isEqualityAssertion (st : state) (calleeNode : node)
  : result bool :=
  if isGlobalEqualityAssertion calleeNode then Ok true
  else isAssertEquality st calleeNode.

Definition is_boolean_literal (arg : node) : bool :=
  match arg with Literal _ (LBool _) => true | _ => false end.

(** The first of [arguments[0]], [arguments[1]] that is a boolean literal,
    with its index. *)
Definition getBooleanArgument (arguments : list node) : option (nat * node) :=
  match arguments with
  | a0 :: a1 :: _ =>
      find (fun ka => is_boolean_literal (snd ka)) [(0, a0); (1, a1)]
  | _ => None
  end.

(** The [fix] function of [reportError]. *)
Definition fix_of (st : state) (p : path) (callee : node)
  (arguments : list node) : result (option (list edit)) :=
  match getBooleanArgument arguments with
  | Some (k, Literal _ value) =>
      let newAssertionFunctionName :=
        if lit_truthy value then "true" else "false" in
      let newArgsTextArray :=
        map (fun ka => getText (snd ka))
          (List.filter (fun ka => negb (Nat.eqb (fst ka) k))
             (indexed arguments)) in
      let newArgsTextJoined := join ", " newArgsTextArray in
      assertVariablePrefix ←
        (match callee with
         | Identifier _ _ => Ok ""
         | _ => v ← getCurrentAssertContextVariable st; Ok (template v ++ ".")
         end);
      Ok (Some [Edit p (assertVariablePrefix ++ newAssertionFunctionName
                          ++ "(" ++ newArgsTextJoined ++ ")")])
  | _ => Ok None
  end.

Definition reportError (st : state) (p : path) (callee : node)
  (arguments : list node) : result state :=
  f ← fix_of st p callee arguments;
  Ok (mkState (testStack st)
        (reports st ++ [Report p "useAssertTrueOrFalse" [] f []])).

Definition CallExpression_enter (p : path) (callee : node)
  (arguments : list node) (st : state) : result state :=
  if isTest callee || isAsyncTest callee then
    Ok (mkState (Frame (getAssertContextNameForTest arguments) :: testStack st)
          (reports st))
  else if (0 <? length (testStack st))%nat then
    b ← isEqualityAssertion st callee;
    if b && defined (getBooleanArgument arguments)
    then reportError st p callee arguments
    else Ok st
  else Ok st.

Definition CallExpression_exit (callee : node) (st : state) : state :=
  if isTest callee || isAsyncTest callee
  then mkState (tail (testStack st)) (reports st)
  else st.

Definition the_rule : rule state :=
  Rule
    (fun v st =>
       match v_node v with
       | CallExpression _ callee arguments =>
           CallExpression_enter (v_path v) callee arguments st
       | _ => Ok st
       end)
    (fun v st =>
       match v_node v with
       | CallExpression _ callee _ => Ok (CallExpression_exit callee st)
       | _ => Ok st
       end).

End NoAssertEqualBoolean.

(** ** lib/rules/no-negated-ok.js *)

Module NoNegatedOk.
Import utils.

Definition ASSERTION_OPPOSITES : list (string * string) :=
  [("false", "true"); ("notOk", "ok"); ("ok", "notOk"); ("true", "false")].

Definition POSITIVE_ASSERTIONS : list string := ["ok"; "true"].
Definition NEGATIVE_ASSERTIONS : list string := ["notOk"; "false"].
Definition ASSERTIONS_TO_CHECK : list string :=
  POSITIVE_ASSERTIONS ++ NEGATIVE_ASSERTIONS.

Record frame := Frame { assertContextVar : option string }.

Record state := mkState {
  asyncStateStack : list frame;     (* head = top *)
  reports : list report
}.

Definition initial : state := mkState [] [].

Definition getAssertVar (st : state) : option string :=
  match asyncStateStack st with
  | [] => None
  | f :: _ => assertContextVar f
  end.

Definition isOkOrNotOk (st : state) (calleeNode : node) : bool :=
  match calleeNode with
  | MemberExpression _ object property =>
      ident_with (fun oname => eq_name oname (getAssertVar st)) object
      && ident_with (includes ASSERTIONS_TO_CHECK) property
  | _ => false
  end.

Definition isAssertion (st : state) (calleeNode : node) : bool :=
  let assertVar := getAssertVar st in
  if truthy assertVar then utils.isAssertion calleeNode assertVar else false.

Fixpoint getNegationDepth (argNode : node) : nat :=
  match argNode with
  | UnaryExpression _ operator argument =>
      if String.eqb operator "!" then S (getNegationDepth argument) else 0
  | _ => 0
  end.

Fixpoint unwrapNegation (argNode : node) : node :=
  match argNode with
  | UnaryExpression _ operator argument =>
      if String.eqb operator "!" then unwrapNegation argument else argNode
  | _ => argNode
  end.

(** The [fix] function of the report. *)
Definition fix_of (p : path) (callee : node) (firstArgNode : node)
  (rest : list node) : option (list edit) :=
  match callee with
  | MemberExpression _ (Identifier _ assertionVariableName)
      (Identifier _ propertyName) =>
      if includes ["true"; "false"; "ok"; "notOk"] propertyName then
        match own ASSERTION_OPPOSITES propertyName with
        | Some oppositeAssertionFunctionName =>
            let newArgsTextArray :=
              map getText (unwrapNegation firstArgNode :: rest) in
            let newArgsTextJoined := join ", " newArgsTextArray in
            Some [Edit p (assertionVariableName ++ "."
                            ++ oppositeAssertionFunctionName
                            ++ "(" ++ newArgsTextJoined ++ ")")]
        | None => None
        end
      else None
  | _ => None
  end.

Definition checkForNegation (p : path) (callee : node)
  (arguments : list node) (st : state) : state :=
  match arguments with
  | [] => st
  | firstArgNode :: rest =>
      let negationDepth := getNegationDepth firstArgNode in
      if Nat.eqb (negationDepth mod 2) 1 then
        mkState (asyncStateStack st)
          (reports st ++
             [Report p "noNegationInOk" [("callee", getText callee)]
                (fix_of p callee firstArgNode rest) []])
      else st
  end.

Definition CallExpression_enter (p : path) (callee : node)
  (arguments : list node) (st : state) : state :=
  if isTest callee then
    mkState (Frame (getAssertContextNameForTest arguments)
               :: asyncStateStack st) (reports st)
  else if isAssertion st callee && isOkOrNotOk st callee then
    checkForNegation p callee arguments st
  else st.

Definition CallExpression_exit (callee : node) (st : state) : state :=
  if isTest callee
  then mkState (tail (asyncStateStack st)) (reports st)
  else st.

Definition the_rule : rule state :=
  Rule
    (fun v st =>
       match v_node v with
       | CallExpression _ callee arguments =>
           Ok (CallExpression_enter (v_path v) callee arguments st)
       | _ => Ok st
       end)
    (fun v st =>
       match v_node v with
       | CallExpression _ callee _ => Ok (CallExpression_exit callee st)
       | _ => Ok st
       end).

End NoNegatedOk.

(** ** lib/rules/literal-compare-order.js *)

Module LiteralCompareOrder.
Import utils.

Record frame := Frame { assertContextVar : option string }.

Record state := mkState {
  testStack : list frame;     (* head = top *)
  reports : list report
}.

Definition initial : state := mkState [] [].

Definition getAssertContext (st : state) : result (option string) :=
  match testStack st with
  | [] => Throw "AssertionError"
  | f :: _ => Ok (assertContextVar f)
  end.

(** [list] is the argument array of the call at [p]. *)
Definition swapFirstTwoNodesInList (p : path) (list0 list1 : node)
  : list edit :=
  let node0Text := getText list0 in
  let node1Text := getText list1 in
  [Edit (arg_path p 0) node1Text; Edit (arg_path p 1) node0Text].

(** The reports of [checkLiteralCompareOrder]: at most one. *)
Definition checkLiteralCompareOrder (p : path) (args : list node)
  (compareActualFirst : bool) : list report :=
  match args with
  | a0 :: a1 :: _ =>
      if compareActualFirst && is_Literal a0 && negb (is_Literal a1) then
        [Report (arg_path p 0) "actualFirst"
           [("expected", getText a0); ("actual", getText a1)]
           (Some (swapFirstTwoNodesInList p a0 a1)) []]
      else if negb compareActualFirst && negb (is_Literal a0)
              && is_Literal a1 then
        [Report (arg_path p 0) "expectedFirst"
           [("expected", getText a0); ("actual", getText a1)]
           (Some (swapFirstTwoNodesInList p a0 a1)) []]
      else []
  | _ => []
  end.

Definition processAssertion (p : path) (callee : node) (arguments : list node)
  (assertVar : option string) (st : state) : result state :=
  c ← isComparativeAssertion callee assertVar;
  if c : bool then
    let compareActualFirst := shouldCompareActualFirst callee assertVar in
    Ok (mkState (testStack st)
          (reports st
             ++ checkLiteralCompareOrder p arguments compareActualFirst))
  else Ok st.

Definition CallExpression_enter (p : path) (callee : node)
  (arguments : list node) (st : state) : result state :=
  if isTest callee then
    Ok (mkState (Frame (getAssertContextNameForTest arguments) :: testStack st)
          (reports st))
  else if (0 <? length (testStack st))%nat then
    assertVar ← getAssertContext st;
    if isAssertion callee assertVar
    then processAssertion p callee arguments assertVar st
    else Ok st
  else Ok st.

Definition CallExpression_exit (callee : node) (st : state) : state :=
  if isTest callee then mkState (tail (testStack st)) (reports st) else st.

Definition the_rule : rule state :=
  Rule
    (fun v st =>
       match v_node v with
       | CallExpression _ callee arguments =>
           CallExpression_enter (v_path v) callee arguments st
       | _ => Ok st
       end)
    (fun v st =>
       match v_node v with
       | CallExpression _ callee _ => Ok (CallExpression_exit callee st)
       | _ => Ok st
       end).

End LiteralCompareOrder.

(** ** lib/rules/no-assert-equal.js *)

Module NoAssertEqual.
Import utils.

Record frame := Frame { assertVar : option string }.

Record state := mkState {
  testStack : list frame;     (* head = top *)
  globalEqualCallNodes : gset path;
  reports : list report
}.

Definition initial : state := mkState [] ∅ [].

Definition getCurrentAssertContextVariable (st : state)
  : result (option string) :=
  match testStack st with
  | [] => Throw "AssertionError: Test stack should not be empty"
  | f :: _ => Ok (assertVar f)
  end.

Definition isAssertEqual (st : state) (calleeNode : node) : result bool :=
  match calleeNode with
  | MemberExpression _ object property =>
      if ident_with (String.eqb "equal") property then
        match object with
        | Identifier _ oname =>
            v ← getCurrentAssertContextVariable st; Ok (eq_name oname v)
        | _ => Ok false
        end
      else Ok false
  | _ => Ok false
  end.

(** The [fix] of each of the three suggestions. *)
Definition suggestion_fix (p : path) (callee : node) (isGlobal : bool)
  (replacement : string) : option (list edit) :=
  let nodeToReplace :=
    if isGlobal then Some (callee_path p)
    else match callee with
         | MemberExpression _ _ _ =>
             Some (member_property_path (callee_path p))
         | _ => None
         end in
  match nodeToReplace with
  | None => None
  | Some q => Some [Edit q replacement]
  end.

Definition reportError (p : path) (callee : node) (isGlobal : bool)
  (st : state) : result state :=
  assertVar ← (if isGlobal then Ok None
               else getCurrentAssertContextVariable st);
  Ok (mkState (testStack st) (globalEqualCallNodes st)
        (reports st ++
           [Report p
              (if isGlobal then "unexpectedGlobalEqual"
               else "unexpectedAssertEqual")
              (if truthy assertVar then [("assertVar", template assertVar)]
               else [])
              None
              [ ("switchToDeepEqual",
                  suggestion_fix p callee isGlobal "deepEqual");
                ("switchToPropEqual",
                  suggestion_fix p callee isGlobal "propEqual");
                ("switchToStrictEqual",
                  suggestion_fix p callee isGlobal "strictEqual") ]])).

Definition CallExpression_enter (p : path) (callee : node)
  (arguments : list node) (st : state) : result state :=
  if isTest callee || isAsyncTest callee then
    Ok (mkState (Frame (getAssertContextNameForTest arguments) :: testStack st)
          (globalEqualCallNodes st) (reports st))
  else if (0 <? length (testStack st))%nat then
    b ← isAssertEqual st callee;
    if b : bool then reportError p callee false st
    else if bool_decide (p ∈ globalEqualCallNodes st)
    then reportError p callee true st
    else Ok st
  else Ok st.

Definition CallExpression_exit (callee : node) (st : state) : state :=
  if isTest callee || isAsyncTest callee
  then mkState (tail (testStack st)) (globalEqualCallNodes st) (reports st)
  else st.

Section Host.
(** The scope analysis is the linter's and the reference tracker is the
    eslint-utils package's:
    [tracker.iterateGlobalReferences({equal: {[CALL]: true}})] yields the
    call nodes whose callee is a reference to a variable [equal] of the
    global scope.  Neither is part of the rule: the list of nodes yielded
    is a parameter, and the rule is described for whatever list it is
    given. *)
Variable iterateGlobalReferences : list path.

Definition Program_enter (st : state) : state :=
  mkState (testStack st)
    (foldl (fun acc node => {[node]} ∪ acc) (globalEqualCallNodes st)
       iterateGlobalReferences)
    (reports st).

Definition the_rule : rule state :=
  Rule
    (fun v st =>
       match v_node v with
       | CallExpression _ callee arguments =>
           CallExpression_enter (v_path v) callee arguments st
       | Other _ type _ =>
           if String.eqb type "Program" then Ok (Program_enter st)
           else Ok st
       | _ => Ok st
       end)
    (fun v st =>
       match v_node v with
       | CallExpression _ callee _ => Ok (CallExpression_exit callee st)
       | _ => Ok st
       end).
End Host.

End NoAssertEqual.

(** ** lib/rules/no-async-in-loops.js *)

Module NoAsyncInLoops.
Import utils.

Record state := mkState {
  loopStack : list (path * node);       (* head = top *)
  assertVariableStack : list string;    (* head = top *)
  reports : list report
}.

Definition initial : state := mkState [] [] [].

Definition isAsyncCallExpression (st : state) (n : node) : bool :=
  match assertVariableStack st with
  | [] => false
  | assertContextVar :: _ =>
      if truthy (Some assertContextVar)
      then utils.isAsyncCallExpression n (Some assertContextVar)
      else false
  end.

(** [assert.strictEqual(loopStack.pop(), expectedNode)] *)
Definition popAndMatch (expectedNode : path) (st : state) : result state :=
  match loopStack st with
  | (actualNode, _) :: rest =>
      if bool_decide (actualNode = expectedNode)
      then Ok (mkState rest (assertVariableStack st) (reports st))
      else Throw "AssertionError: Node mismatch in loop stack"
  | [] => Throw "AssertionError: Node mismatch in loop stack"
  end.

Definition LOOP_TYPES : list string :=
  [ "WhileStatement"; "DoWhileStatement"; "ForStatement"; "ForInStatement";
    "ForOfStatement" ].

Definition getLoopTypeText (loopType : string) : result string :=
  if String.eqb loopType "WhileStatement" then Ok "while loop"
  else if String.eqb loopType "DoWhileStatement" then Ok "do-while loop"
  else if String.eqb loopType "ForStatement" then Ok "for loop"
  else if String.eqb loopType "ForInStatement" then Ok "for-in loop"
  else if String.eqb loopType "ForOfStatement" then Ok "for-of loop"
  else Throw ("RangeError: Invalid loop type: " ++ loopType).

Definition getAsyncCallType (st : state) (n : node) : option string :=
  if isAsyncCallExpression st n then
    match assertVariableStack st with
    | assertContextVar :: _ => Some (assertContextVar ++ ".async()")
    | [] => Some "undefined.async()"
    end
  else
    match n with
    | CallExpression _ callee _ =>
        if isStop callee then Some "stop()"
        else if isStart callee then Some "start()"
        else None
    | _ => None
    end.

Definition reportError (p : path) (n : node) (st : state) : result state :=
  match loopStack st with
  | [] => Throw "TypeError"
  | (_, loopNode) :: _ =>
      loopTypeText ← getLoopTypeText (node_type loopNode);
      Ok (mkState (loopStack st) (assertVariableStack st)
            (reports st ++
               [Report p "unexpectedAsyncInLoop"
                  [ ("call", default "" (getAsyncCallType st n));
                    ("loopTypeText", loopTypeText) ]
                  None []]))
  end.

Definition CallExpression_enter (p : path) (n : node) (callee : node)
  (arguments : list node) (st : state) : result state :=
  if isTest callee then
    let assertContextVar := getAssertContextNameForTest arguments in
    match assertContextVar with
    | Some v =>
        if truthy assertContextVar
        then Ok (mkState (loopStack st) (v :: assertVariableStack st)
                   (reports st))
        else Ok st
    | None => Ok st
    end
  else if (0 <? length (loopStack st))%nat then
    let isStopOrStartOrAsync :=
      isAsyncCallExpression st n || isStop callee || isStart callee in
    if isStopOrStartOrAsync then reportError p n st else Ok st
  else Ok st.

Definition CallExpression_exit (callee : node) (st : state) : state :=
  if isTest callee
  then mkState (loopStack st) (tail (assertVariableStack st)) (reports st)
  else st.

Definition the_rule : rule state :=
  Rule
    (fun v st =>
       match v_node v with
       | CallExpression _ callee arguments =>
           CallExpression_enter (v_path v) (v_node v) callee arguments st
       | Other _ type _ =>
           if includes LOOP_TYPES type
           then Ok (mkState ((v_path v, v_node v) :: loopStack st)
                      (assertVariableStack st) (reports st))
           else Ok st
       | _ => Ok st
       end)
    (fun v st =>
       match v_node v with
       | CallExpression _ callee _ => Ok (CallExpression_exit callee st)
       | Other _ type _ =>
           if includes LOOP_TYPES type then popAndMatch (v_path v) st
           else Ok st
       | _ => Ok st
       end).

End NoAsyncInLoops.

(** ** lib/rules/no-hooks-from-ancestor-modules.js *)

Module NoHooksFromAncestorModules.
Import utils.

Definition NESTABLE_HOOK_NAMES : list string := ["afterEach"; "beforeEach"].

Record moduleStackInfo := mkInfo {
  callExpression : path;
  description : string;
  hookIdentifierName : option string
}.

Record state := mkState {
  moduleStack : list moduleStackInfo;     (* head = top *)
  reports : list report
}.

Definition initial : state := mkState [] [].

Definition isInModuleCallbackBody (v : visit) : bool :=
  match v_parents v with
  | p1 :: p2 :: p3 :: CallExpression _ callee _ :: _ =>
      String.eqb (node_type p1) "ExpressionStatement"
      && String.eqb (node_type p2) "BlockStatement"
      && includes ["FunctionExpression"; "ArrowFunctionExpression"]
           (node_type p3)
      && isModule callee
  | _ => false
  end.

Definition isHookInvocation (v : visit) : bool :=
  match v_node v with
  | CallExpression _ (MemberExpression _ (Identifier _ _) (Identifier _ pname))
      _ =>
      includes NESTABLE_HOOK_NAMES pname && isInModuleCallbackBody v
  | _ => false
  end.

(** [args.slice(1, 3).find(...)] *)
Definition getCallbackArg (args : list node) : option node :=
  find is_function (take 2 (drop 1 args)).

Definition getHooksIdentifierFromParams (params : list node) : option node :=
  find (ident_with (fun n => negb (String.eqb n "this"))) params.

Definition function_params (f : node) : list node :=
  match f with
  | FunctionExpression _ params _ | ArrowFunctionExpression _ params _ =>
      params
  | _ => []
  end.

Definition noHooksFromAncestorModules (callee : path)
  (invokedMethodName usedHooksIdentifierName : string) : report :=
  Report callee "noHooksFromAncestorModules"
    [ ("invokedMethodName", invokedMethodName);
      ("usedHooksIdentifierName", usedHooksIdentifierName) ]
    None [].

Definition CallExpression_enter (v : visit) (callee : node)
  (arguments : list node) (st : state) : result state :=
  if isModule callee then
    match arguments with
    | [] => Ok st
    | arg :: _ =>
        let description :=
          match arg with
          | Literal _ (LStr s) => s
          | _ => getText arg
          end in
        match getCallbackArg arguments with
        | None => Ok st
        | Some callback =>
            let hooksParam :=
              getHooksIdentifierFromParams (function_params callback) in
            let hookIdentifierName :=
              match hooksParam with
              | Some (Identifier _ name) => Some name
              | _ => None
              end in
            Ok (mkState
                  (mkInfo (v_path v) description hookIdentifierName
                     :: moduleStack st)
                  (reports st))
        end
    end
  else if isHookInvocation v then
    match moduleStack st with
    | [] => Throw "TypeError: Cannot read properties of undefined"
    | containingModuleInfo :: _ =>
        let expectedHooksIdentifierName :=
          hookIdentifierName containingModuleInfo in
        match callee with
        | MemberExpression _ (Identifier _ usedHooksIdentifierName)
            (Identifier _ invokedMethodName) =>
            if negb (eq_name usedHooksIdentifierName
                       expectedHooksIdentifierName)
            then Ok (mkState (moduleStack st)
                       (reports st ++
                          [noHooksFromAncestorModules (callee_path (v_path v))
                             invokedMethodName usedHooksIdentifierName]))
            else Ok st
        | _ => Ok st
        end
    end
  else Ok st.

Definition CallExpression_exit (callee : node) (st : state) : state :=
  if isModule callee
  then mkState (tail (moduleStack st)) (reports st)
  else st.

Definition the_rule : rule state :=
  Rule
    (fun v st =>
       match v_node v with
       | CallExpression _ callee arguments =>
           CallExpression_enter v callee arguments st
       | _ => Ok st
       end)
    (fun v st =>
       match v_node v with
       | CallExpression _ callee _ => Ok (CallExpression_exit callee st)
       | _ => Ok st
       end).

End NoHooksFromAncestorModules.

(** ** lib/rules/no-identical-names.js *)

Module NoIdenticalNames.
Import utils.

(** [a === b] on the values of two literals of different nodes. *)
Definition strict_eq (a b : lit) : bool :=
  match a, b with
  | LStr x, LStr y => String.eqb x y
  | LBool x, LBool y => Bool.eqb x y
  | LNum x, LNum y => (x =? y)%Z
  | LNull, LNull => true
  | _, _ => false
  end.

(** An element of [modulesStack] and a key of [mapModuleNodeToInfo]: a call
    node, or [None] for the constant [TOP_LEVEL_MODULE_NODE]. *)
Definition moduleNode : Type := option (path * node).
Definition TOP_LEVEL_MODULE_NODE : moduleNode := None.
Definition key_of (m : moduleNode) : option path := fst <$> m.

Record moduleInfo := mkInfo {
  modules : list (path * node);
  tests : list (path * node);
  hasNestedTests : bool
}.

Record state := mkState {
  modulesStack : list moduleNode;       (* head = top *)
  mapModuleNodeToInfo : gmap (option path) moduleInfo;
  reports : list report
}.

Definition initial : state :=
  mkState [TOP_LEVEL_MODULE_NODE]
    {[ key_of TOP_LEVEL_MODULE_NODE := mkInfo [] [] false ]} [].

Definition isFirstArgLiteral (n : node) : bool :=
  match n with
  | CallExpression _ _ (Literal _ _ :: _) => true
  | _ => false
  end.

(** [n.type === "CallExpression" && n.arguments[0].type === "Literal" &&
    n.arguments[0].value === title], for the nodes kept in the lists and on
    the stack, which all passed [isFirstArgLiteral]. *)
Definition has_title (title : lit) (e : path * node) : bool :=
  match snd e with
  | CallExpression _ _ (Literal _ value :: _) => strict_eq value title
  | _ => false
  end.

(** [n.arguments[0]?.loc?.start?.line.toString() ?? ""] *)
Definition line_of_first_arg (e : path * node) : string :=
  match snd e with
  | CallExpression _ _ (a :: _) => pretty (line (node_src a))
  | _ => ""
  end.

(** The recursion follows the children lists, which form a tree no deeper
    than the number of modules recorded in the map; [fuel] is that number. *)
Fixpoint moduleHasNestedTests_rec (fuel : nat)
  (m : gmap (option path) moduleInfo) (key : option path) : bool :=
  match fuel with
  | 0 => false
  | S fuel' =>
      match m !! key with
      | None => false
      | Some moduleInfo =>
          (0 <? length (tests moduleInfo))%nat
          || existsb (fun c => moduleHasNestedTests_rec fuel' m (Some (fst c)))
               (modules moduleInfo)
      end
  end.

Definition moduleHasNestedTests (st : state) (key : option path) : bool :=
  moduleHasNestedTests_rec (size (mapModuleNodeToInfo st))
    (mapModuleNodeToInfo st) key.

(** [findLast]: [[...arr].reverse().find(callback)] *)
Definition findLast {A} (arr : list A) (callback : A -> bool) : option A :=
  find callback (rev arr).

(** [None] is [undefined], the top of an empty stack. *)
Definition getCurrentModuleNode (st : state) : option moduleNode :=
  match modulesStack st with
  | [] => None
  | top :: _ =>
      match mapModuleNodeToInfo st !! key_of top with
      | Some parentModule =>
          match
            findLast (modules parentModule)
              (fun c =>
                 negb (match mapModuleNodeToInfo st !! Some (fst c) with
                       | Some i => hasNestedTests i
                       | None => false
                       end))
          with
          | Some lastTestLessModule => Some (Some lastTestLessModule)
          | None => Some top
          end
      | None => Some top
      end
  end.

Definition duplicate_report (arg0 : path) (msg : string)
  (found : path * node) : report :=
  Report arg0 msg [("line", line_of_first_arg found)] None [].

Definition handleTestNames (p : path) (n : node) (st : state) : state :=
  match n with
  | CallExpression _ callee (Literal _ title :: _) =>
      if isTest callee then
        match getCurrentModuleNode st with
        | None => st
        | Some currentModuleNode =>
            match mapModuleNodeToInfo st !! key_of currentModuleNode with
            | None => st
            | Some currentModuleInfo =>
                let duplicateTestTitle :=
                  find (has_title title) (tests currentModuleInfo) in
                mkState (modulesStack st)
                  (<[ key_of currentModuleNode :=
                        mkInfo (modules currentModuleInfo)
                          (tests currentModuleInfo ++ [(p, n)])
                          (hasNestedTests currentModuleInfo) ]>
                     (mapModuleNodeToInfo st))
                  (reports st ++
                     match duplicateTestTitle with
                     | Some t => [duplicate_report (arg_path p 0)
                                    "duplicateTest" t]
                     | None => []
                     end)
            end
        end
      else st
  | _ => st
  end.

(** The stack without the top-level constant, bottom first, as
    [modulesStack.filter(...)] has it. *)
Definition ancestors (st : state) : list (path * node) :=
  omap (fun m => m) (rev (modulesStack st)).

Definition handleModuleNames (p : path) (n : node) (st : state) : state :=
  match n with
  | CallExpression _ callee (Literal _ title :: _) =>
      if isModule callee then
        match modulesStack st with
        | [] => st
        | currentModuleNode :: _ =>
            match mapModuleNodeToInfo st !! key_of currentModuleNode with
            | None => st
            | Some currentModuleInfo =>
                let duplicateModuleTitle :=
                  find (has_title title) (modules currentModuleInfo) in
                let duplicateAncestorModuleTitle :=
                  find (has_title title) (ancestors st) in
                mkState (Some (p, n) :: modulesStack st)
                  (<[ Some p := mkInfo [] [] false ]>
                     (<[ key_of currentModuleNode :=
                           mkInfo (modules currentModuleInfo ++ [(p, n)])
                             (tests currentModuleInfo)
                             (hasNestedTests currentModuleInfo) ]>
                        (mapModuleNodeToInfo st)))
                  (reports st
                     ++ match duplicateModuleTitle with
                        | Some m => [duplicate_report (arg_path p 0)
                                       "duplicateModule" m]
                        | None => []
                        end
                     ++ match duplicateAncestorModuleTitle with
                        | Some m => [duplicate_report (arg_path p 0)
                                       "duplicateModuleAncestor" m]
                        | None => []
                        end)
            end
        end
      else st
  | _ => st
  end.

Definition CallExpression_enter (p : path) (n : node) (st : state) : state :=
  if isFirstArgLiteral n
  then handleTestNames p n (handleModuleNames p n st)
  else st.

Definition CallExpression_exit (p : path) (st : state) : state :=
  match modulesStack st with
  | Some (q, _) :: rest =>
      if bool_decide (q = p) then
        let st' := mkState rest (mapModuleNodeToInfo st) (reports st) in
        match mapModuleNodeToInfo st' !! Some p with
        | Some moduleInfo =>
            mkState rest
              (<[ Some p := mkInfo (modules moduleInfo) (tests moduleInfo)
                              (moduleHasNestedTests st' (Some p)) ]>
                 (mapModuleNodeToInfo st'))
              (reports st)
        | None => st'
        end
      else st
  | _ => st
  end.

Definition the_rule : rule state :=
  Rule
    (fun v st =>
       match v_node v with
       | CallExpression _ _ _ =>
           Ok (CallExpression_enter (v_path v) (v_node v) st)
       | _ => Ok st
       end)
    (fun v st =>
       match v_node v with
       | CallExpression _ _ _ => Ok (CallExpression_exit (v_path v) st)
       | _ => Ok st
       end).

End NoIdenticalNames.

(** ** lib/rules/no-throws-string.js *)

Module NoThrowsString.
Import utils.

Record frame := Frame { assertVar : option string }.

Record state := mkState {
  testStack : list frame;     (* head = top *)
  reports : list report
}.

Definition initial : state := mkState [] [].

(** [assert.ok(testStack && testStack.length > 0)] and the top's variable *)
Definition getAssertVar (testStack : list frame) : result (option string) :=
  match testStack with
  | [] => Throw "AssertionError"
  | f :: _ => Ok (assertVar f)
  end.

Definition isThrows (calleeNode : node) (assertVar : option string) : bool :=
  match calleeNode with
  | MemberExpression _ object property =>
      ident_with (fun oname => eq_name oname assertVar) object
      && ident_with (includes ["throws"; "raises"]) property
  | Identifier _ name => String.eqb name "throws"
  | _ => false
  end.

Definition noThrowsWithString (p : path) (callee : node) : report :=
  Report p "noThrowsWithString" [("callee", getText callee)] None [].

(** [argCount > 2 && args[1].type === "Literal" &&
     typeof args[1].value === "string"] *)
Definition string_second_of_three (args : list node) : bool :=
  match args with
  | _ :: Literal _ (LStr _) :: _ :: _ => true
  | _ => false
  end.

Definition checkAndReport (p : path) (callee : node) (args : list node)
  (st : state) : state :=
  if string_second_of_three args
  then mkState (testStack st) (reports st ++ [noThrowsWithString p callee])
  else st.

Definition CallExpression_enter (p : path) (callee : node)
  (arguments : list node) (st : state) : result state :=
  if isTest callee then
    Ok (mkState (Frame (getAssertContextNameForTest arguments) :: testStack st)
          (reports st))
  else if (0 <? length (testStack st))%nat then
    v ← getAssertVar (testStack st);
    if isThrows callee v then Ok (checkAndReport p callee arguments st)
    else Ok st
  else Ok st.

Definition CallExpression_exit (callee : node) (st : state) : state :=
  if isTest callee then mkState (tail (testStack st)) (reports st) else st.

Definition the_rule : rule state :=
  Rule
    (fun v st =>
       match v_node v with
       | CallExpression _ callee arguments =>
           CallExpression_enter (v_path v) callee arguments st
       | _ => Ok st
       end)
    (fun v st =>
       match v_node v with
       | CallExpression _ callee _ => Ok (CallExpression_exit callee st)
       | _ => Ok st
       end).

End NoThrowsString.

(** ** lib/utils.js: createAssertionCheck *)

Module CreateAssertionCheck.
Import utils.

(** The entry of one assertion in [errorMessageConfig]; an absent key is
    [None]. *)
Record ErrorMessageConfig := mkConfig {
  unexpectedGlobalAssertionMessage : option string;
  unexpectedLocalAssertionMessage : option string;
  unexpectedGlobalAssertionMessageId : option string;
  unexpectedLocalAssertionMessageId : option string
}.

(** A report is made with a [messageId] or with a [message]. *)
Inductive descriptor :=
| ById (messageId : string)
| ByText (message : string).

Record assertion_report := AssertionReport {
  a_node : path;
  a_descriptor : descriptor;
  a_data : list (string * string)
}.

Record frame := Frame { assertVar : option string }.

Record state := mkState {
  testStack : list frame;     (* head = top *)
  reports : list assertion_report
}.

Definition initial : state := mkState [] [].

Section Create.
(** The two arguments of [createAssertionCheck]; [errorMessageConfig] is a
    plain object, given by its own properties. *)
Variable assertions : list string.
Variable errorMessageConfig : list (string * ErrorMessageConfig).

Definition isGlobalAssertion (calleeNode : node) : bool :=
  ident_with (includes assertions) calleeNode.

Definition getCurrentAssertContextVariable (st : state)
  : result (option string) :=
  match testStack st with
  | [] => Throw "AssertionError: Test stack should not be empty"
  | f :: _ => Ok (assertVar f)
  end.

(** The stack is read last, when every other conjunct holds. *)
Definition isMethodCalledOnLocalAssertObject (st : state) (calleeNode : node)
  : result bool :=
  match calleeNode with
  | MemberExpression _ object property =>
      if ident_with (includes assertions) property then
        match object with
        | Identifier _ oname =>
            v ← getCurrentAssertContextVariable st; Ok (eq_name oname v)
        | _ => Ok false
        end
      else Ok false
  | _ => Ok false
  end.

Definition isExpectedAssertion (st : state) (calleeNode : node)
  : result bool :=
  if isGlobalAssertion calleeNode then Ok true
  else isMethodCalledOnLocalAssertObject st calleeNode.

(** [errorMessageConfig[assertion]]: an own property, or a member inherited
    from [Object.prototype], which has none of the four keys, or
    [undefined], whose properties cannot be read. *)
Definition config_of (assertion : string) : result ErrorMessageConfig :=
  match own errorMessageConfig assertion with
  | Some c => Ok c
  | None =>
      if includes JS.Object_prototype assertion
      then Ok (mkConfig None None None None)
      else Throw "TypeError: Cannot read properties of undefined"
  end.

Definition reportError (p : path) (callee : node) (st : state)
  : result state :=
  assertVar ← getCurrentAssertContextVariable st;
  let isGlobal := isGlobalAssertion callee in
  let assertion :=
    if isGlobal then
      match callee with Identifier _ name => Some name | _ => None end
    else
      match callee with
      | MemberExpression _ _ (Identifier _ name) => Some name
      | _ => None
      end in
  match assertion with
  | Some assertion =>
      if truthy (Some assertion) then
        let data :=
          [ ("assertVar", default "" assertVar); ("assertion", assertion) ] in
        c ← config_of assertion;
        let chosen :=
          if truthy (unexpectedGlobalAssertionMessageId c)
             && truthy (unexpectedLocalAssertionMessageId c)
          then
            (if isGlobal then unexpectedGlobalAssertionMessageId c
             else unexpectedLocalAssertionMessageId c, None)
          else
            (None,
             if isGlobal then unexpectedGlobalAssertionMessage c
             else unexpectedLocalAssertionMessage c) in
        if truthy (fst chosen) then
          Ok (mkState (testStack st)
                (reports st
                   ++ [AssertionReport p (ById (default "" (fst chosen)))
                         data]))
        else if truthy (snd chosen) then
          Ok (mkState (testStack st)
                (reports st
                   ++ [AssertionReport p (ByText (default "" (snd chosen)))
                         data]))
        else Throw "AssertionError: No messageId or message found"
      else Ok st
  | None => Ok st
  end.

Definition CallExpression_enter (p : path) (callee : node)
  (arguments : list node) (st : state) : result state :=
  if isTest callee || isAsyncTest callee then
    Ok (mkState (Frame (getAssertContextNameForTest arguments) :: testStack st)
          (reports st))
  else if (0 <? length (testStack st))%nat then
    b ← isExpectedAssertion st callee;
    if b : bool then reportError p callee st else Ok st
  else Ok st.

Definition CallExpression_exit (callee : node) (st : state) : state :=
  if isTest callee || isAsyncTest callee
  then mkState (tail (testStack st)) (reports st)
  else st.

Definition createAssertionCheck : rule state :=
  Rule
    (fun v st =>
       match v_node v with
       | CallExpression _ callee arguments =>
           CallExpression_enter (v_path v) callee arguments st
       | _ => Ok st
       end)
    (fun v st =>
       match v_node v with
       | CallExpression _ callee _ => Ok (CallExpression_exit callee st)
       | _ => Ok st
       end).
End Create.

End CreateAssertionCheck.

(** ** lib/rules/no-loose-assertions.js *)

Module NoLooseAssertions.
Import CreateAssertionCheck.

Definition GLOBAL_ERROR_MESSAGE_ID : string := "unexpectedGlobalLooseAssertion".
Definition LOCAL_ERROR_MESSAGE_ID : string := "unexpectedLocalLooseAssertion".
Definition DEFAULT_ASSERTIONS : list string :=
  ["equal"; "ok"; "notEqual"; "notOk"].

Definition by_id : ErrorMessageConfig :=
  mkConfig None None (Some GLOBAL_ERROR_MESSAGE_ID)
    (Some LOCAL_ERROR_MESSAGE_ID).

Definition ERROR_MESSAGE_CONFIG : list (string * ErrorMessageConfig) :=
  [("equal", by_id); ("ok", by_id); ("notEqual", by_id); ("notOk", by_id)].

Definition buildErrorMessage (disallowed : list string)
  : ErrorMessageConfig :=
  let globalMessage :=
    "Unexpected {{assertion}}. Use " ++ join ", " disallowed ++ "." in
  let localMessage :=
    "Unexpected {{assertVar}}.{{assertion}}. Use "
    ++ join ", " (map (fun ass => "{{assertVar}}." ++ ass) disallowed)
    ++ "." in
  mkConfig (Some globalMessage) (Some localMessage) None None.

(** The names that the schema of the rule admits in its option: the [enum]
    [DEFAULT_ASSERTIONS]. *)
Inductive assertion := equal | ok | notEqual | notOk.

Definition name_of (a : assertion) : string :=
  match a with
  | equal => "equal"
  | ok => "ok"
  | notEqual => "notEqual"
  | notOk => "notOk"
  end.

(** An element of the option array: a name, or an object
    [{disallowed, recommended}]. *)
Inductive item :=
| Name (assertion : assertion)
| Custom (disallowed : assertion) (recommended : list string).

Definition disallowed_of (i : item) : assertion :=
  match i with Name a => a | Custom a _ => a end.

(** [o[k] = v] on an object given by its own properties. *)
Fixpoint set_own {A} (o : list (string * A)) (k : string) (v : A)
  : list (string * A) :=
  match o with
  | [] => [(k, v)]
  | (k', v') :: o' =>
      if String.eqb k k' then (k, v) :: o' else (k', v') :: set_own o' k v
  end.

(** The body of the [for ... of] loop of [parseOptions], on the two
    accumulators. *)
Definition parse_item
  (acc : list string * list (string * ErrorMessageConfig)) (i : item)
  : list string * list (string * ErrorMessageConfig) :=
  let '(assertions, errorMessageConfig) := acc in
  match i with
  | Name a =>
      if includes assertions (name_of a) then acc
      else ((assertions ++ [name_of a])%list,
            set_own errorMessageConfig (name_of a)
              (default (mkConfig None None None None)
                 (utils.own ERROR_MESSAGE_CONFIG (name_of a))))
  | Custom a recommended =>
      if includes assertions (name_of a) then acc
      else ((assertions ++ [name_of a])%list,
            set_own errorMessageConfig (name_of a)
              (buildErrorMessage recommended))
  end.

(** [options] is [context.options[0]]: [None] when the rule is configured
    without an option. *)
Definition parseOptions (options : option (list item))
  : list string * list (string * ErrorMessageConfig) :=
  match options with
  | Some items => foldl parse_item ([], []) items
  | None => (DEFAULT_ASSERTIONS, ERROR_MESSAGE_CONFIG)
  end.

Definition the_rule (options : option (list item)) : rule state :=
  let '(assertions, errorMessageConfig) := parseOptions options in
  createAssertionCheck assertions errorMessageConfig.

End NoLooseAssertions.

(** ** lib/rules/require-object-in-propequal.js *)

Module RequireObjectInPropEqual.
Import utils.

Record frame := Frame { assertVar : option string }.

Record state := mkState {
  testStack : list frame;     (* head = top *)
  reports : list report
}.

Definition initial : state := mkState [] [].

Definition getCurrentAssertContextVariable (st : state)
  : result (option string) :=
  match testStack st with
  | [] => Throw "AssertionError: Test stack should not be empty"
  | f :: _ => Ok (assertVar f)
  end.

Definition isGlobalPropEqual (calleeNode : node) : bool :=
  ident_with (fun name => String.eqb name "propEqual") calleeNode.

(** The stack is read last, when every other conjunct holds. *)
Definition isAssertPropEqual (st : state) (calleeNode : node) : result bool :=
  match calleeNode with
  | MemberExpression _ object property =>
      if ident_with (fun name => String.eqb name "propEqual") property then
        match object with
        | Identifier _ oname =>
            v ← getCurrentAssertContextVariable st; Ok (eq_name oname v)
        | _ => Ok false
        end
      else Ok false
  | _ => Ok false
  end.

Definition isPropEqual (st : state) (calleeNode : node) : result bool :=
  b ← isAssertPropEqual st calleeNode;
  if b : bool then Ok true else Ok (isGlobalPropEqual calleeNode).

Definition isValidExpectedValue (argNode : node) : bool :=
  negb (includes
          [ "Literal"; "TemplateLiteral"; "JSXElement"; "UpdateExpression";
            "UnaryExpression" ]
          (node_type argNode)).

Definition hasNonObjectExpectedValue (arguments : list node) : bool :=
  match arguments with
  | _ :: a1 :: _ => negb (isValidExpectedValue a1)
  | _ => false
  end.

Definition useObject (p : path) (arguments : list node) : report :=
  Report p "useObject"
    [("value", match arguments with
               | _ :: a1 :: _ => getText a1
               | _ => ""
               end)]
    None [].

Definition CallExpression_enter (p : path) (callee : node)
  (arguments : list node) (st : state) : result state :=
  if isTest callee || isAsyncTest callee then
    Ok (mkState (Frame (getAssertContextNameForTest arguments) :: testStack st)
          (reports st))
  else if (0 <? length (testStack st))%nat then
    b ← isPropEqual st callee;
    if b && hasNonObjectExpectedValue arguments
    then Ok (mkState (testStack st) (reports st ++ [useObject p arguments]))
    else Ok st
  else Ok st.

Definition CallExpression_exit (callee : node) (st : state) : state :=
  if isTest callee || isAsyncTest callee
  then mkState (tail (testStack st)) (reports st)
  else st.

Definition the_rule : rule state :=
  Rule
    (fun v st =>
       match v_node v with
       | CallExpression _ callee arguments =>
           CallExpression_enter (v_path v) callee arguments st
       | _ => Ok st
       end)
    (fun v st =>
       match v_node v with
       | CallExpression _ callee _ => Ok (CallExpression_exit callee st)
       | _ => Ok st
       end).

End RequireObjectInPropEqual.

(** ** lib/rules/no-qunit-start-in-tests.js *)

Module NoQUnitStartInTests.
Import utils.

Record state := mkState {
  contextStack : list string;     (* head = top *)
  reports : list report
}.

Definition initial : state := mkState [] [].

Definition isQUnitStart (calleeNode : node) : bool :=
  match calleeNode with
  | MemberExpression _ _ _ => isStart calleeNode
  | _ => false
  end.

Definition isInModule (propertyNode : visit) : bool :=
  match v_parents propertyNode with
  | _ :: CallExpression _ callee _ :: _ => isModule callee
  | _ => false
  end.

Definition noQUnitStartInTests (p : path) (currentContext : string)
  : report :=
  Report p "noQUnitStartInTests" [("context", currentContext)] None [].

Definition CallExpression_enter (p : path) (callee : node) (st : state)
  : state :=
  if isTest callee then mkState ("test" :: contextStack st) (reports st)
  else
    match contextStack st with
    | currentContext :: _ =>
        if isQUnitStart callee
        then mkState (contextStack st)
               (reports st ++ [noQUnitStartInTests p currentContext])
        else st
    | [] => st
    end.

Definition Property_enter (v : visit) (key : node) (st : state) : state :=
  if isModuleHookPropertyKey key && isInModule v then
    match key with
    | Identifier _ name =>
        mkState ((name ++ " hook") :: contextStack st) (reports st)
    | _ => st
    end
  else st.

Definition CallExpression_exit (callee : node) (st : state) : state :=
  if isTest callee then mkState (tail (contextStack st)) (reports st) else st.

Definition Property_exit (v : visit) (key : node) (st : state) : state :=
  if isModuleHookPropertyKey key && isInModule v
  then mkState (tail (contextStack st)) (reports st)
  else st.

Definition the_rule : rule state :=
  Rule
    (fun v st =>
       match v_node v with
       | CallExpression _ callee _ =>
           Ok (CallExpression_enter (v_path v) callee st)
       | Property _ key _ => Ok (Property_enter v key st)
       | _ => Ok st
       end)
    (fun v st =>
       match v_node v with
       | CallExpression _ callee _ => Ok (CallExpression_exit callee st)
       | Property _ key _ => Ok (Property_exit v key st)
       | _ => Ok st
       end).

End NoQUnitStartInTests.

(** ** lib/rules/no-conditional-assertions.js *)

Module NoConditionalAssertions.
Import utils.

Definition CONDITIONAL_NODE_TYPES : list string :=
  ["IfStatement"; "ConditionalExpression"].

Definition STOP_NODE_TYPES : list string :=
  ["FunctionExpression"; "FunctionDeclaration"; "ArrowFunctionExpression"].

Record frame := Frame { assertContextVar : option string }.

Record state := mkState {
  testStack : list frame;     (* head = top *)
  reports : list report
}.

Definition initial : state := mkState [] [].

Definition isConditionalNode (n : node) : bool :=
  includes CONDITIONAL_NODE_TYPES (node_type n).

Definition isStopNode (n : node) : bool :=
  includes STOP_NODE_TYPES (node_type n).

(** The [while] loop of [checkAndReport] over the node and its chain of
    parents: the first node that is a stop node or a conditional node, or
    [None] when the loop runs off the root, whose [parent] is [null]. *)
Fixpoint climb (chain : list node) : option node :=
  match chain with
  | [] => None
  | currentNode :: parents =>
      if negb (isStopNode currentNode) && negb (isConditionalNode currentNode)
      then climb parents
      else Some currentNode
  end.

Definition noAssertionInsideConditional (p : path) : report :=
  Report p "noAssertionInsideConditional" [] None [].

Definition checkAndReport (v : visit) (st : state) : result state :=
  match climb (v_node v :: v_parents v) with
  | None => Throw "TypeError: Cannot read properties of null"
  | Some currentNode =>
      if isConditionalNode currentNode
      then Ok (mkState (testStack st)
                 (reports st ++ [noAssertionInsideConditional (v_path v)]))
      else Ok st
  end.

(** [testStack[testStack.length - 1].assertContextVar] of an empty stack is
    a [TypeError]. *)
Definition isAssertion (st : state) (calleeNode : node) : result bool :=
  match testStack st with
  | [] => Throw "TypeError: Cannot read properties of undefined"
  | f :: _ =>
      if truthy (assertContextVar f)
      then Ok (utils.isAssertion calleeNode (assertContextVar f))
      else Ok false
  end.

Definition CallExpression_enter (v : visit) (callee : node)
  (arguments : list node) (st : state) : result state :=
  if isTest callee then
    Ok (mkState (Frame (getAssertContextNameForTest arguments) :: testStack st)
          (reports st))
  else if (0 <? length (testStack st))%nat then
    b ← isAssertion st callee;
    if b : bool then checkAndReport v st else Ok st
  else Ok st.

Definition CallExpression_exit (callee : node) (st : state) : state :=
  if isTest callee then mkState (tail (testStack st)) (reports st) else st.

Definition the_rule : rule state :=
  Rule
    (fun v st =>
       match v_node v with
       | CallExpression _ callee arguments =>
           CallExpression_enter v callee arguments st
       | _ => Ok st
       end)
    (fun v st =>
       match v_node v with
       | CallExpression _ callee _ => Ok (CallExpression_exit callee st)
       | _ => Ok st
       end).

End NoConditionalAssertions.

(** ** lib/rules/require-expect.js *)

Module RequireExpect.
Import utils.

Record TestContext := mkTest {
  assertName : option string;
  node_ : path;
  blockDepth : Z;
  isExpectUsed : bool;
  didReport : bool;
  isNonZeroExpectUsed : bool     (* [false]: not set *)
}.

Record state := mkState {
  currentTest : option TestContext;
  reports : list report
}.

Definition initial : state := mkState None [].

Definition isGlobalExpectCall (callee : node) : bool :=
  ident_with (fun name => String.eqb name "expect") callee.

(** [currentTest?.assertName] of no test is [undefined], which no name
    equals. *)
Definition assertName_of (st : state) : option string :=
  match currentTest st with
  | Some t => assertName t
  | None => None
  end.

Definition isAssertExpectCall (st : state) (callee : node) : bool :=
  match callee with
  | MemberExpression _ object property =>
      ident_with (fun oname => eq_name oname (assertName_of st)) object
      && ident_with (fun name => String.eqb name "expect") property
  | _ => false
  end.

Definition isExpectCall (st : state) (callee : node) : bool :=
  isGlobalExpectCall callee || isAssertExpectCall st callee.

(** The [raw] of a literal is its source text. *)
Definition isNonZeroExpectCall (st : state) (callee : node)
  (arguments : list node) : bool :=
  isExpectCall st callee
  && negb (match arguments with
           | [Literal i _] => String.eqb (text i) "0"
           | _ => false
           end).

Definition isTopLevelExpectCall (st : state) (callee : node) : bool :=
  match currentTest st with
  | None => false
  | Some t => isExpectCall st callee && (blockDepth t =? 1)%Z
  end.

Definition isUsingAssertInNestedBlock (st : state) (callee : node) : bool :=
  match currentTest st with
  | None => false
  | Some t =>
      (1 <? blockDepth t)%Z
      && (negb (truthy (assertName t))
          || utils.isAssertion callee (assertName t))
  end.

Definition isPassingAssertAsArgument (st : state) (arguments : list node)
  : bool :=
  if truthy (assertName_of st)
  then existsb
         (ident_with (fun name => eq_name name (assertName_of st)))
         arguments
  else false.

Definition isViolatingExceptSimpleRule (st : state) (callee : node)
  (arguments : list node) : bool :=
  match currentTest st with
  | None => false
  | Some t =>
      negb (isExpectUsed t)
      && (isUsingAssertInNestedBlock st callee
          || isPassingAssertAsArgument st arguments)
  end.

Definition captureTestContext (p : path) (arguments : list node)
  (st : state) : state :=
  mkState
    (Some (mkTest (getAssertContextNameForTest arguments) p 0 false false
             false))
    (reports st).

Definition releaseTestContext (st : state) : state :=
  mkState None (reports st).

Definition assertionMessageData (st : state) : list (string * string) :=
  [("expect",
    if truthy (assertName_of st)
    then template (assertName_of st) ++ ".expect"
    else "expect")].

Definition set_test (t : TestContext) (st : state) : state :=
  mkState (Some t) (reports st).

(** A report on the call of the current test. *)
Definition report_test (t : TestContext) (messageId : string) (st : state)
  : state :=
  mkState (currentTest st)
    (reports st
       ++ [Report (node_ t) messageId (assertionMessageData st) None []]).

Definition is_block (n : node) : bool :=
  match n with
  | Other _ type _ => String.eqb type "BlockStatement"
  | _ => false
  end.

(** The selector
    [BlockStatement, ArrowFunctionExpression[body.type!='BlockStatement']] *)
Definition opens_block (n : node) : bool :=
  match n with
  | Other _ type _ => String.eqb type "BlockStatement"
  | ArrowFunctionExpression _ _ body =>
      negb (String.eqb (node_type body) "BlockStatement")
  | _ => false
  end.

Definition add_depth (d : Z) (st : state) : state :=
  match currentTest st with
  | Some t =>
      set_test
        (mkTest (assertName t) (node_ t) (blockDepth t + d) (isExpectUsed t)
           (didReport t) (isNonZeroExpectUsed t))
        st
  | None => st
  end.

Definition use_expect (t : TestContext) : TestContext :=
  mkTest (assertName t) (node_ t) (blockDepth t) true (didReport t)
    (isNonZeroExpectUsed t).

Definition use_non_zero_expect (t : TestContext) : TestContext :=
  mkTest (assertName t) (node_ t) (blockDepth t) (isExpectUsed t)
    (didReport t) true.

Definition did_report (t : TestContext) : TestContext :=
  mkTest (assertName t) (node_ t) (blockDepth t) (isExpectUsed t) true
    (isNonZeroExpectUsed t).

Module ExceptSimpleStrategy.
Definition CallExpression_enter (p : path) (callee : node) (arguments : list node)
  (st : state) : state :=
  match currentTest st with
  | Some t =>
      if negb (didReport t) then
        if isTopLevelExpectCall st callee then set_test (use_expect t) st
        else if isViolatingExceptSimpleRule st callee arguments then
          set_test (did_report t)
            (report_test t "expectRequiredComplexTest" st)
        else st
      else if isTest callee then captureTestContext p arguments st
      else st
  | None =>
      if isTest callee then captureTestContext p arguments st else st
  end.

Definition CallExpression_exit (callee : node) (st : state) : state :=
  if isTest callee then releaseTestContext st else st.

Definition the_rule : rule state :=
  Rule
    (fun v st =>
       match v_node v with
       | CallExpression _ callee arguments =>
           Ok (CallExpression_enter (v_path v) callee arguments st)
       | n => if opens_block n then Ok (add_depth 1 st) else Ok st
       end)
    (fun v st =>
       match v_node v with
       | CallExpression _ callee _ => Ok (CallExpression_exit callee st)
       | n => if opens_block n then Ok (add_depth (-1) st) else Ok st
       end).
End ExceptSimpleStrategy.

Module AlwaysStrategy.
Definition CallExpression_enter (p : path) (callee : node) (arguments : list node)
  (st : state) : state :=
  match currentTest st with
  | Some t =>
      if isExpectCall st callee then set_test (use_expect t) st
      else if isTest callee then captureTestContext p arguments st
      else st
  | None =>
      if isTest callee then captureTestContext p arguments st else st
  end.

Definition CallExpression_exit (callee : node) (st : state) : state :=
  match currentTest st with
  | None => st
  | Some t =>
      if isTest callee then
        releaseTestContext
          (if negb (isExpectUsed t) then report_test t "expectRequired" st
           else st)
      else st
  end.

Definition the_rule : rule state :=
  Rule
    (fun v st =>
       match v_node v with
       | CallExpression _ callee arguments =>
           Ok (CallExpression_enter (v_path v) callee arguments st)
       | _ => Ok st
       end)
    (fun v st =>
       match v_node v with
       | CallExpression _ callee _ => Ok (CallExpression_exit callee st)
       | _ => Ok st
       end).
End AlwaysStrategy.

Module NeverStrategy.
Definition CallExpression_enter := AlwaysStrategy.CallExpression_enter.

Definition CallExpression_exit (callee : node) (st : state) : state :=
  match currentTest st with
  | None => st
  | Some t =>
      if isTest callee then
        releaseTestContext
          (if isExpectUsed t then report_test t "expectForbidden" st else st)
      else st
  end.

Definition the_rule : rule state :=
  Rule
    (fun v st =>
       match v_node v with
       | CallExpression _ callee arguments =>
           Ok (CallExpression_enter (v_path v) callee arguments st)
       | _ => Ok st
       end)
    (fun v st =>
       match v_node v with
       | CallExpression _ callee _ => Ok (CallExpression_exit callee st)
       | _ => Ok st
       end).
End NeverStrategy.

Module NeverExceptZeroStrategy.
Definition CallExpression_enter (p : path) (callee : node) (arguments : list node)
  (st : state) : state :=
  match currentTest st with
  | Some t =>
      if isNonZeroExpectCall st callee arguments
      then set_test (use_non_zero_expect t) st
      else if isTest callee then captureTestContext p arguments st
      else st
  | None =>
      if isTest callee then captureTestContext p arguments st else st
  end.

Definition CallExpression_exit (callee : node) (st : state) : state :=
  match currentTest st with
  | None => st
  | Some t =>
      if isTest callee then
        releaseTestContext
          (if isNonZeroExpectUsed t then report_test t "expectForbidden" st
           else st)
      else st
  end.

Definition the_rule : rule state :=
  Rule
    (fun v st =>
       match v_node v with
       | CallExpression _ callee arguments =>
           Ok (CallExpression_enter (v_path v) callee arguments st)
       | _ => Ok st
       end)
    (fun v st =>
       match v_node v with
       | CallExpression _ callee _ => Ok (CallExpression_exit callee st)
       | _ => Ok st
       end).
End NeverExceptZeroStrategy.

(** The values that the schema admits for the option. *)
Inductive option_value := always | except_simple | never | never_except_zero.

(** [{...}[option] || NeverExceptZeroStrategy], where [option] is
    [context.options[0]]: [None] when the rule is configured without one. *)
Definition the_rule (option : option option_value) : rule state :=
  match option with
  | Some always => AlwaysStrategy.the_rule
  | Some except_simple => ExceptSimpleStrategy.the_rule
  | Some never => NeverStrategy.the_rule
  | Some never_except_zero | None => NeverExceptZeroStrategy.the_rule
  end.

End RequireExpect.

(** ** Writing programs down *)

Module Build.

Definition ident (name : string) : node := Identifier (Src name 1) name.
Definition str (s : string) : node :=
  Literal (Src ("'" ++ s ++ "'") 1) (LStr s).
Definition bool_lit (b : bool) : node :=
  Literal (Src (if b then "true" else "false") 1) (LBool b).
Definition num (z : Z) : node := Literal (Src (pretty z) 1) (LNum z).
Definition texts (l : list node) : string := join ", " (map getText l).
Definition member (o p : node) : node :=
  MemberExpression (Src (getText o ++ "." ++ getText p) 1) o p.
Definition call (c : node) (args : list node) : node :=
  CallExpression (Src (getText c ++ "(" ++ texts args ++ ")") 1) c args.
Definition stmt (e : node) : node :=
  Other (Src (getText e ++ ";") 1) "ExpressionStatement" [e].
Definition block (l : list node) : node :=
  Other (Src ("{ " ++ join " " (map getText l) ++ " }") 1) "BlockStatement" l.
Definition func (params : list node) (body : list node) : node :=
  FunctionExpression
    (Src ("function (" ++ texts params ++ ") " ++ getText (block body)) 1)
    params (block body).
Definition while_ (test body : node) : node :=
  Other (Src ("while (" ++ getText test ++ ") " ++ getText body) 1)
    "WhileStatement" [test; body].
Definition program (l : list node) : node :=
  Other (Src (join " " (map getText l)) 1) "Program" l.

(** The same node, starting on line [k]. *)
Definition at_line (k : nat) (n : node) : node :=
  let i := Src (text (node_src n)) k in
  match n with
  | Identifier _ a => Identifier i a
  | Literal _ a => Literal i a
  | UnaryExpression _ a b => UnaryExpression i a b
  | MemberExpression _ a b => MemberExpression i a b
  | CallExpression _ a b => CallExpression i a b
  | FunctionExpression _ a b => FunctionExpression i a b
  | ArrowFunctionExpression _ a b => ArrowFunctionExpression i a b
  | Property _ a b => Property i a b
  | AssignmentExpression _ a b => AssignmentExpression i a b
  | VariableDeclarator _ a b => VariableDeclarator i a b
  | Other _ a b => Other i a b
  end.

Definition QUnit_ (name : string) : node := member (ident "QUnit") (ident name).

End Build.

(** ** Running a rule on a program *)

Definition reports_of {St} (reports : St -> list report) (r : result St)
  : result (list report) :=
  match r with Ok s => Ok (reports s) | Throw e => Throw e end.

Module Examples.
Import Build.

(** [QUnit.module('Same'); QUnit.module('Same'); QUnit.module('Same');], one
    call per line *)
Definition three_siblings : node :=
  program
    [ stmt (call (QUnit_ "module") [at_line 1 (str "Same")]);
      stmt (call (QUnit_ "module") [at_line 2 (str "Same")]);
      stmt (call (QUnit_ "module") [at_line 3 (str "Same")]) ].

(** [QUnit.module('A', function (hooks) { hooks.beforeEach(function () {});
      QUnit.module('B', function (hooks2) {
        hooks2.beforeEach(function () {});
        hooks.afterEach(function () {}); }); });] *)
Definition nested_modules : node :=
  program
    [ stmt (call (QUnit_ "module")
        [ str "A";
          func [ident "hooks"]
            [ stmt (call (member (ident "hooks") (ident "beforeEach"))
                      [func [] []]);
              stmt (call (QUnit_ "module")
                [ str "B";
                  func [ident "hooks2"]
                    [ stmt (call (member (ident "hooks2") (ident "beforeEach"))
                              [func [] []]);
                      stmt (call (member (ident "hooks") (ident "afterEach"))
                              [func [] []]) ] ]) ] ]) ].

(** [QUnit.module('A', function (hooks) { QUnit.module('B');
      hooks.beforeEach(function () {}); });] *)
Definition module_without_callback : node :=
  program
    [ stmt (call (QUnit_ "module")
        [ str "A";
          func [ident "hooks"]
            [ stmt (call (QUnit_ "module") [str "B"]);
              stmt (call (member (ident "hooks") (ident "beforeEach"))
                      [func [] []]) ] ]) ].

(** [QUnit.test('outer', function (assert) {
      QUnit.test('inner', function () {});
      while (c) { assert.async(); } });] *)
Definition nested_tests : node :=
  program
    [ stmt (call (QUnit_ "test")
        [ str "outer";
          func [ident "assert"]
            [ stmt (call (QUnit_ "test") [str "inner"; func [] []]);
              while_ (ident "c")
                (block [stmt (call (member (ident "assert") (ident "async"))
                                [])]) ] ]) ].

(** The same test without the inner registration. *)
Definition async_in_loop : node :=
  program
    [ stmt (call (QUnit_ "test")
        [ str "outer";
          func [ident "assert"]
            [ while_ (ident "c")
                (block [stmt (call (member (ident "assert") (ident "async"))
                                [])]) ] ]) ].


(** [QUnit.test('name', function () { QUnit.stop(2); QUnit.start(); });] *)
Definition stop_two_start_one : node :=
  program
    [ stmt (call (QUnit_ "test")
        [ str "name";
          func [] [ stmt (call (QUnit_ "stop") [num 2]);
                    stmt (call (QUnit_ "start") []) ] ]) ].

(** [QUnit.test('name', function (assert) {
      var done = assert.async(); });] and the same with [done] replaced by
    the array pattern [[done]] or the member target [this.done]. *)
Definition async_bound_to (target : node) (declare : bool) : node :=
  let rhs := call (member (ident "assert") (ident "async")) [] in
  program
    [ stmt (call (QUnit_ "test")
        [ str "name";
          func [ident "assert"]
            [ if declare
              then Other (Src "var" 1) "VariableDeclaration"
                     [VariableDeclarator (Src "=" 1) target (Some rhs)]
              else stmt (AssignmentExpression (Src "=" 1) target rhs) ] ]) ].

(** [QUnit.test('Name', function (assert) { assert.equal(true, false); });] *)
Definition equal_true_false : node :=
  program
    [ stmt (call (QUnit_ "test")
        [ str "Name";
          func [ident "assert"]
            [ stmt (call (member (ident "assert") (ident "equal"))
                      [bool_lit true; bool_lit false]) ] ]) ].

(** [QUnit.test('Name', function (assert) { _ }); ] around one statement *)
Definition in_test (statement : node) : node :=
  program
    [ stmt (call (QUnit_ "test")
        [str "Name"; func [ident "assert"] [statement]]) ].

(** [function equal(a, b) {}
     QUnit.test('Name', function () { equal(a, true); });]:
    [equal] is declared in the file, so its call is no global reference. *)
Definition local_equal : node :=
  program
    [ Other (Src "function equal(a, b) {}" 1) "FunctionDeclaration"
        [ident "equal"; ident "a"; ident "b"; block []];
      stmt (call (QUnit_ "test")
        [ str "Name";
          func [] [stmt (call (ident "equal") [ident "a"; bool_lit true])] ]) ].

(** [QUnit.test('Name', function () { equal(a, true); });] with [equal]
    left to the global scope: the call, at path [[0; 0; 0; 2; 0; 0]], is a
    global reference. *)
Definition global_equal : node :=
  program
    [ stmt (call (QUnit_ "test")
        [ str "Name";
          func [] [stmt (call (ident "equal") [ident "a"; bool_lit true])] ]) ].

(** [QUnit.module('My module', { before: function (assert) {
      assert.equal(1, 1); } });] *)
Definition hook_equal : node :=
  program
    [ stmt (call (QUnit_ "module")
        [ str "My module";
          Other (Src "{ before: function (assert) { assert.equal(1, 1); } }" 1)
            "ObjectExpression"
            [ Property
                (Src "before: function (assert) { assert.equal(1, 1); }" 1)
                (ident "before")
                (func [ident "assert"]
                   [stmt (call (member (ident "assert") (ident "equal"))
                            [num 1; num 1])]) ] ]) ].

(** [QUnit.module('Same'); QUnit.module('Same');], one call per line *)
Definition two_siblings : node :=
  program
    [ stmt (call (QUnit_ "module") [at_line 1 (str "Same")]);
      stmt (call (QUnit_ "module") [at_line 2 (str "Same")]) ].

End Examples.

(** The children of a node in visiting order. *)
Definition children (n : node) : list node :=
  match n with
  | Identifier _ _ | Literal _ _ => []
  | UnaryExpression _ _ a => [a]
  | MemberExpression _ o pr | Property _ o pr | AssignmentExpression _ o pr =>
      [o; pr]
  | CallExpression _ c args => c :: args
  | FunctionExpression _ pa b | ArrowFunctionExpression _ pa b => pa ++ [b]
  | VariableDeclarator _ x (Some e) => [x; e]
  | VariableDeclarator _ x None => [x]
  | Other _ _ cs => cs
  end.

(** Every node of the tree satisfies [P]. *)
Fixpoint all_nodes (P : node -> bool) (n : node) : bool :=
  P n &&
  match n with
  | Identifier _ _ | Literal _ _ => true
  | UnaryExpression _ _ a => all_nodes P a
  | MemberExpression _ o pr | Property _ o pr | AssignmentExpression _ o pr =>
      all_nodes P o && all_nodes P pr
  | CallExpression _ c args => all_nodes P c && forallb (all_nodes P) args
  | FunctionExpression _ pa b | ArrowFunctionExpression _ pa b =>
      forallb (all_nodes P) pa && all_nodes P b
  | VariableDeclarator _ x e =>
      all_nodes P x
      && match e with Some e' => all_nodes P e' | None => true end
  | Other _ _ cs => forallb (all_nodes P) cs
  end.

(** The node reached from [n] by the child indices [q], outermost first. *)
Fixpoint node_at (q : list nat) (n : node) : option node :=
  match q with
  | [] => Some n
  | k :: q' =>
      match children n !! k with
      | Some c => node_at q' c
      | None => None
      end
  end.

Definition is_CallExpression (n : node) : bool :=
  match n with CallExpression _ _ _ => true | _ => false end.



Definition well_marked (c : bool * node) : bool :=
  if fst c then utils.isStop (snd c) else utils.isStart (snd c).

(** Stops minus starts. *)
Definition balance (calls : list (bool * node)) : Z :=
  fold_right (fun (c : bool * node) acc => ((if fst c then 1 else -1) + acc)%Z)
    0%Z calls.

(** A callback variable of some frame that has not been invoked: an own
    property of [asyncCallbackVars] whose value is [false]. *)
Definition pending_in (name : string) (a : ResolveAsync.AsyncState) : bool :=
  existsb (fun kv => String.eqb (fst kv) name && negb (snd kv))
    (ResolveAsync.asyncCallbackVars a).

Definition pending (name : string) (st : ResolveAsync.state) : bool :=
  existsb (pending_in name) (ResolveAsync.asyncStateStack st).

(** The nodes at which the resolve-async rule has no handler. *)
Definition no_async_handler (n : node) : bool :=
  match n with
  | CallExpression _ _ _ | Property _ _ _ | AssignmentExpression _ _ _
  | VariableDeclarator _ _ _ => false
  | _ => true
  end.

(** The text that precedes the assertion name in the rewritten call: the
    receiver of a member-form callee and a dot, nothing for a bare callee. *)
Definition receiver_prefix (callee : node) : string :=
  match callee with
  | MemberExpression _ (Identifier _ oname) _ => oname ++ "."
  | _ => ""
  end.

Definition boolean_name (b : bool) : string := if b then "true" else "false".

(** [QUnit.module('A', function (hooks) { hooks.beforeEach(a1);
       QUnit.module('B', function (hooks2) { hooks2.beforeEach(a2);
                                             hooks.afterEach(a3); }); });]
    for any argument lists [a1], [a2], [a3]; [i] gives each node its source
    text and position. *)
Definition hook_call (i : nat -> src) (k : nat) (receiver method : string)
  (args : list node) : node :=
  Other (i k) "ExpressionStatement"
    [CallExpression (i (k + 1))
       (MemberExpression (i (k + 2)) (Identifier (i (k + 3)) receiver)
          (Identifier (i (k + 4)) method))
       args].

Definition module_call (i : nat -> src) (k : nat) (name hooks : string)
  (body : list node) : node :=
  Other (i k) "ExpressionStatement"
    [CallExpression (i (k + 1))
       (MemberExpression (i (k + 2)) (Identifier (i (k + 3)) "QUnit")
          (Identifier (i (k + 4)) "module"))
       [ Literal (i (k + 5)) (LStr name);
         FunctionExpression (i (k + 6)) [Identifier (i (k + 7)) hooks]
           (Other (i (k + 8)) "BlockStatement" body) ]].

Definition nested_modules (i : nat -> src) (a1 a2 a3 : list node) : node :=
  Other (i 0) "Program"
    [ module_call i 10 "A" "hooks"
        [ hook_call i 20 "hooks" "beforeEach" a1;
          module_call i 30 "B" "hooks2"
            [ hook_call i 40 "hooks2" "beforeEach" a2;
              hook_call i 50 "hooks" "afterEach" a3 ] ] ].

(** The path of the callee of the third hook call, [hooks.afterEach], in
    [nested_modules], innermost index first. *)
Definition afterEach_callee : path := [0; 0; 1; 1; 2; 0; 1; 1; 2; 0; 0].

(** The loop stack holds loop statements only. *)
Definition loops_only (st : NoAsyncInLoops.state) : Prop :=
  Forall (fun e => includes NoAsyncInLoops.LOOP_TYPES (node_type (snd e)) = true)
    (NoAsyncInLoops.loopStack st).

(** [QUnit.test('inner', function () {})] *)
Definition inner_test : node :=
  Build.call (Build.QUnit_ "test") [Build.str "inner"; Build.func [] []].

(** [QUnit.module('B')] *)
Definition module_B : node := Build.call (Build.QUnit_ "module") [Build.str "B"].

(** The walk as the sequence of handler calls it makes. *)
Inductive event :=
| Enter (v : visit)
| Leave (v : visit).

Definition event_visit (e : event) : visit :=
  match e with Enter v | Leave v => v end.

Definition handle {St} (R : rule St) (e : event) (s : St) : result St :=
  match e with
  | Enter v => enter R v s
  | Leave v => leave R v s
  end.

Fixpoint run {St} (R : rule St) (es : list event) (s : St) : result St :=
  match es with
  | [] => Ok s
  | e :: es' => s' ← handle R e s; run R es' s'
  end.

Fixpoint events (ps : list node) (p : path) (n : node) {struct n}
  : list event :=
  let go := fix go (k : nat) (l : list node) {struct l} : list event :=
    match l with
    | [] => []
    | c :: l' => (events (n :: ps) (k :: p) c ++ go (S k) l')%list
    end in
  (Enter (Visit p n ps)
   :: match n with
      | Identifier _ _ | Literal _ _ => []
      | UnaryExpression _ _ a => events (n :: ps) (0 :: p) a
      | MemberExpression _ o pr
      | Property _ o pr
      | AssignmentExpression _ o pr =>
          events (n :: ps) (0 :: p) o ++ events (n :: ps) (1 :: p) pr
      | CallExpression _ c args => events (n :: ps) (0 :: p) c ++ go 1 args
      | FunctionExpression _ pa b
      | ArrowFunctionExpression _ pa b =>
          go 0 pa ++ events (n :: ps) (length pa :: p) b
      | VariableDeclarator _ x (Some e) =>
          events (n :: ps) (0 :: p) x ++ events (n :: ps) (1 :: p) e
      | VariableDeclarator _ x None => events (n :: ps) (0 :: p) x
      | Other _ _ cs => go 0 cs
      end
   ++ [Leave (Visit p n ps)])%list.

Fixpoint events_list (ps : list node) (p : path) (k : nat) (l : list node)
  : list event :=
  match l with
  | [] => []
  | c :: l' => (events ps (k :: p) c ++ events_list ps p (S k) l')%list
  end.

(** Walks made one after the other, each given by the parents, the path
    and the node it starts at. *)
Fixpoint traverse_seq {St} (R : rule St)
  (ws : list (list node * path * node)) (s : St) : result St :=
  match ws with
  | [] => Ok s
  | (ps, p, n) :: ws' => s' ← traverse R ps p n s; traverse_seq R ws' s'
  end.

(** Every call on the module stack lies less than [d] deep in the tree. *)
Definition shallow (d : nat) (st : NoIdenticalNames.state) : Prop :=
  Forall (fun e : NoIdenticalNames.moduleNode =>
            match e with Some (q, _) => length q < d | None => True end)
    (NoIdenticalNames.modulesStack st).

Definition key_below (N : nat) (key : option path) : Prop :=
  match key with Some q => length q < N | None => True end.

(** The module recorded under [key] still has the children [L], in that
    order, at the front of its list of children. *)
Definition keeps_children (key : option path) (L : list (path * node))
  (st : NoIdenticalNames.state) : Prop :=
  exists info,
    NoIdenticalNames.mapModuleNodeToInfo st !! key = Some info
    /\ L `prefix_of` NoIdenticalNames.modules info.

Definition names_inv (N : nat) (key : option path) (L : list (path * node))
  (d : nat) (st : NoIdenticalNames.state) : Prop :=
  N <= d /\ shallow d st /\ keeps_children key L st.


(** ** More programs and predicates *)

(** A node at which the resolve-async rule opens no frame: no call of a
    test and no property with the name of a module hook. *)
Definition opens_no_frame (n : node) : bool :=
  match n with
  | CallExpression _ callee _ => negb (utils.isTest callee)
  | Property _ key _ => negb (utils.isModuleHookPropertyKey key)
  | _ => true
  end.

(** What the walk of a subtree cannot change of the frame stack of the
    resolve-async rule: its depth, the frames below the top and the assert
    variable of the top frame. *)
Definition frame_shape (st : ResolveAsync.state)
  : nat * list ResolveAsync.AsyncState * option (option string) :=
  (length (ResolveAsync.asyncStateStack st),
   tail (ResolveAsync.asyncStateStack st),
   ResolveAsync.assertContextVar <$> head (ResolveAsync.asyncStateStack st)).

(** [moduleCallee('name', { hook: function (params) { c1(); c2(); ... } })]
    for a list of callees, each marked [true] when it is a [stop] and
    [false] when it is a [start]. *)
Definition async_calls_hook (i : nat -> src) (moduleCallee : node)
  (name hook : string) (params : list node) (calls : list (bool * node))
  : node :=
  CallExpression (i 0) moduleCallee
    [ Literal (i 1) (LStr name);
      Other (i 2) "ObjectExpression"
        [ Property (i 3) (Identifier (i 6) hook)
            (FunctionExpression (i 7) params
               (Other (i 8) "BlockStatement"
                  (map (fun c : bool * node =>
                          Other (i 4) "ExpressionStatement"
                            [CallExpression (i 5) (snd c) []])
                     calls))) ] ].



(** [testCallee('name', function (params) { c1(args1); c2(args2); ... })]
    for a list of [stop] and [start] calls with their arguments. *)
Definition counted_calls_test (i : nat -> src) (testCallee : node)
  (name : string) (params : list node)
  (calls : list (bool * node * list node)) : node :=
  CallExpression (i 0) testCallee
    [ Literal (i 1) (LStr name);
      FunctionExpression (i 2) params
        (Other (i 3) "BlockStatement"
           (map (fun c : bool * node * list node =>
                   Other (i 4) "ExpressionStatement"
                     [CallExpression (i 5) (snd (fst c)) (snd c)])
              calls)) ].

Definition well_marked_call (c : bool * node * list node) : bool :=
  (if fst (fst c) then utils.isStop (snd (fst c))
   else utils.isStart (snd (fst c)))
  && forallb (all_nodes no_async_handler) (snd c).

Definition has_argument (c : bool * node * list node) : bool :=
  negb (match snd c with [] => true | _ => false end).

(** The counter of a frame after a list of [stop] and [start] calls, as
    the handlers compute it from the counter [count] before them. *)
Definition tally (calls : list (bool * node * list node))
  (count : JS.number) : JS.number :=
  fold_left
    (fun acc (c : bool * node * list node) =>
       JS.add acc
         (if fst (fst c) then ResolveAsync.delta_of (snd c)
          else JS.neg (ResolveAsync.delta_of (snd c))))
    calls count.

(** A parameter that [getAssertContextName] passes over: anything but an
    identifier other than [this]. *)
Definition passed_over (p : node) : bool :=
  negb (utils.ident_with (fun n => negb (String.eqb n "this")) p).

(** A node that is no loop statement. *)
Definition no_loop (n : node) : bool :=
  match n with
  | Other _ type _ => negb (includes NoAsyncInLoops.LOOP_TYPES type)
  | _ => true
  end.

(** The reports [rs] are the reports [rs0] followed by reports that all
    satisfy [good]. *)
Definition grown_by {A} (good : A -> Prop) (rs0 rs : list A) : Prop :=
  exists new, rs = (rs0 ++ new)%list /\ Forall good new.

(** A report of the literal-compare-order rule that asks for the actual
    value first, on the first argument of a call, with the fix that writes
    the text of each of the first two arguments in the place of the
    other. *)
Definition swaps_first_two (r : report) : Prop :=
  messageId r = "actualFirst"
  /\ suggest r = []
  /\ exists q expected actual,
      r_node r = arg_path q 0
      /\ data r = [("expected", expected); ("actual", actual)]
      /\ fix_ r = Some [Edit (arg_path q 0) actual;
                        Edit (arg_path q 1) expected].

(** A report of the no-assert-equal rule: no fix, and three suggestions
    that each replace one node by the name of another assertion.  For a
    call on the assert variable the node is the property of the member
    callee, the name [equal]; for a call that the tracker yielded it is the
    whole callee, which is the name [equal] when the callee is a bare
    identifier. *)
Definition suggests_other_assertions (r : report) : Prop :=
  fix_ r = None
  /\ exists q,
      ((messageId r = "unexpectedAssertEqual"
        /\ q = member_property_path (callee_path (r_node r)))
       \/ (messageId r = "unexpectedGlobalEqual"
           /\ q = callee_path (r_node r)))
      /\ suggest r
         = [ ("switchToDeepEqual", Some [Edit q "deepEqual"]);
             ("switchToPropEqual", Some [Edit q "propEqual"]);
             ("switchToStrictEqual", Some [Edit q "strictEqual"]) ].

(** A report of the no-assert-equal-boolean rule: its fix replaces the
    whole call. *)
Definition rewrites_call (r : report) : Prop :=
  messageId r = "useAssertTrueOrFalse"
  /\ data r = [] /\ suggest r = []
  /\ exists text, fix_ r = Some [Edit (r_node r) text].

(** A subtree that holds no call. *)
Definition call_free (n : node) : bool :=
  all_nodes (fun m => negb (is_CallExpression m)) n.

(** [testCallee('name', function (a) { callee(args); })] *)
Definition test_with_call (i : nat -> src) (testCallee : node)
  (name a : string) (callee : node) (args : list node) : node :=
  CallExpression (i 0) testCallee
    [ Literal (i 1) (LStr name);
      FunctionExpression (i 2) [Identifier (i 3) a]
        (Other (i 4) "BlockStatement"
           [ Other (i 5) "ExpressionStatement"
               [CallExpression (i 6) callee args] ]) ].

(** The path of that call when the test call is at [p]. *)
Definition call_in_test (p : path) : path := 0 :: 0 :: 1 :: 2 :: p.

(** The visit of that call: the node, its path and its chain of parents. *)
Definition inner_visit (i : nat -> src) (testCallee : node)
  (name a : string) (callee : node) (args : list node) (ps : list node)
  (p : path) : visit :=
  let call := CallExpression (i 6) callee args in
  let statement := Other (i 5) "ExpressionStatement" [call] in
  let block := Other (i 4) "BlockStatement" [statement] in
  let callback := FunctionExpression (i 2) [Identifier (i 3) a] block in
  Visit (call_in_test p) call
    (statement :: block :: callback
       :: test_with_call i testCallee name a callee args :: ps).

(** The entry that [parseOptions] makes for an element of the option. *)
Definition item_config (i : NoLooseAssertions.item)
  : CreateAssertionCheck.ErrorMessageConfig :=
  match i with
  | NoLooseAssertions.Name _ => NoLooseAssertions.by_id
  | NoLooseAssertions.Custom _ recommended =>
      NoLooseAssertions.buildErrorMessage recommended
  end.

(** The element of the option disallows the assertion [a]. *)
Definition disallows (a : NoLooseAssertions.assertion)
  (i : NoLooseAssertions.item) : bool :=
  String.eqb (NoLooseAssertions.name_of (NoLooseAssertions.disallowed_of i))
    (NoLooseAssertions.name_of a).

(** The names of a list in the order in which they first occur: the head,
    then the first occurrences of the rest without the head. *)
Fixpoint first_occurrences (l : list string) : list string :=
  match l with
  | [] => []
  | x :: l' =>
      x :: List.filter (fun y => negb (String.eqb y x)) (first_occurrences l')
  end.

(** An entry with which [reportError] finds a message: both identifiers,
    or both texts. *)
Definition usable (c : CreateAssertionCheck.ErrorMessageConfig) : bool :=
  (utils.truthy (CreateAssertionCheck.unexpectedGlobalAssertionMessageId c)
   && utils.truthy (CreateAssertionCheck.unexpectedLocalAssertionMessageId c))
  || (utils.truthy (CreateAssertionCheck.unexpectedGlobalAssertionMessage c)
      && utils.truthy
           (CreateAssertionCheck.unexpectedLocalAssertionMessage c)).

(** A report of [createAssertionCheck] for one of the names [assertions]. *)
Definition names_assertion (assertions : list string)
  (r : CreateAssertionCheck.assertion_report) : Prop :=
  exists assertVar assertion,
    CreateAssertionCheck.a_data r
    = [("assertVar", assertVar); ("assertion", assertion)]
    /\ In assertion assertions.

(** What holds of the two accumulators of [parseOptions] when the elements
    [done] have been handled. *)
Definition parsed (done : list NoLooseAssertions.item)
  (acc : list string
         * list (string * CreateAssertionCheck.ErrorMessageConfig)) : Prop :=
  map fst (snd acc) = fst acc
  /\ NoDup (fst acc)
  /\ forall a,
      utils.own (snd acc) (NoLooseAssertions.name_of a)
      = item_config <$> find (disallows a) done.

(** A callee [throws], or [a.throws] or [a.raises] for the assert variable
    [a]. *)
Definition throws_on (a : string) (callee : node) : bool :=
  match callee with
  | Identifier _ name => String.eqb name "throws"
  | MemberExpression _ (Identifier _ object) (Identifier _ property) =>
      String.eqb object a
      && (String.eqb property "throws" || String.eqb property "raises")
  | _ => false
  end.

(** A callee [propEqual], or [a.propEqual] for the assert variable [a]. *)
Definition propEqual_on (a : string) (callee : node) : bool :=
  match callee with
  | Identifier _ name => String.eqb name "propEqual"
  | MemberExpression _ (Identifier _ object) (Identifier _ property) =>
      String.eqb property "propEqual" && String.eqb object a
  | _ => false
  end.

(** A context of the no-qunit-start-in-tests rule: a test, or one of the
    module hooks. *)
Definition known_context (c : string) : Prop :=
  c = "test"
  \/ exists hook,
      In hook utils.ALL_MODULE_HOOK_IDENTIFIERS /\ c = hook ++ " hook".

Definition names_context (r : report) : Prop :=
  messageId r = "noQUnitStartInTests"
  /\ fix_ r = None /\ suggest r = []
  /\ exists c, data r = [("context", c)] /\ known_context c.

(** A statement or expression around a node: its [type], and the children
    before and after the node it is around. *)
Record wrapper := Wrapper {
  w_type : string;
  w_before : list node;
  w_after : list node
}.

(** The node [n] inside the wrappers [ws], outermost first. *)
Fixpoint wrap (i : nat -> src) (ws : list wrapper) (n : node) : node :=
  match ws with
  | [] => n
  | w :: ws' =>
      Other (i 7) (w_type w) (w_before w ++ wrap i ws' n :: w_after w)
  end.

(** The path of [n] when the outermost wrapper is at [q]. *)
Fixpoint wrapped_path (ws : list wrapper) (q : path) : path :=
  match ws with
  | [] => q
  | w :: ws' => wrapped_path ws' (length (w_before w) :: q)
  end.

(** The chain of parents of [n] when the outermost wrapper has the chain of
    parents [above]. *)
Fixpoint wrap_parents (i : nat -> src) (ws : list wrapper) (n : node)
  (above : list node) : list node :=
  match ws with
  | [] => above
  | w :: ws' =>
      wrap_parents i ws' n
        (Other (i 7) (w_type w) (w_before w ++ wrap i ws' n :: w_after w)
           :: above)
  end.

Definition call_free_wrapper (w : wrapper) : bool :=
  forallb call_free (w_before w) && forallb call_free (w_after w).

(** [testCallee('name', function (a) { _ })] where the body holds the
    statement [callee(args);] inside the wrappers [ws]. *)
Definition test_with_wrapped_call (i : nat -> src) (testCallee : node)
  (name a : string) (ws : list wrapper) (callee : node) (args : list node)
  : node :=
  CallExpression (i 0) testCallee
    [ Literal (i 1) (LStr name);
      FunctionExpression (i 2) [Identifier (i 3) a]
        (Other (i 4) "BlockStatement"
           [ wrap i ws
               (Other (i 5) "ExpressionStatement"
                  [CallExpression (i 6) callee args]) ]) ].

(** The visit of that call. *)
Definition wrapped_visit (i : nat -> src) (testCallee : node)
  (name a : string) (ws : list wrapper) (callee : node) (args : list node)
  (ps : list node) (p : path) : visit :=
  let call := CallExpression (i 6) callee args in
  let statement := Other (i 5) "ExpressionStatement" [call] in
  let block := Other (i 4) "BlockStatement" [wrap i ws statement] in
  let callback := FunctionExpression (i 2) [Identifier (i 3) a] block in
  Visit (0 :: wrapped_path ws (0 :: 1 :: 2 :: p)) call
    (statement
       :: wrap_parents i ws statement
            (block :: callback
               :: test_with_wrapped_call i testCallee name a ws callee args
               :: ps)).

(** The innermost wrapper that is a function or a conditional is a
    conditional. *)
Definition under_conditional (ws : list wrapper) : bool :=
  match
    find
      (fun t =>
         includes NoConditionalAssertions.STOP_NODE_TYPES t
         || includes NoConditionalAssertions.CONDITIONAL_NODE_TYPES t)
      (rev (map w_type ws))
  with
  | Some t => includes NoConditionalAssertions.CONDITIONAL_NODE_TYPES t
  | None => false
  end.

(** [testCallee('name', function (a) {}, callee(args));] as the only
    statement of a file: the call is an argument of the test call, outside
    its callback. *)
Definition call_beside_callback (i : nat -> src) (testCallee : node)
  (name a : string) (callee : node) (args : list node) : node :=
  Other (i 0) "Program"
    [ Other (i 1) "ExpressionStatement"
        [ CallExpression (i 2) testCallee
            [ Literal (i 3) (LStr name);
              FunctionExpression (i 4) [Identifier (i 5) a]
                (Other (i 6) "BlockStatement" []);
              CallExpression (i 7) callee args ] ] ].

(** [testCallee('name', function (a) { c1(args1); c2(args2); ... })] *)
Definition calls_test (i : nat -> src) (testCallee : node) (name a : string)
  (calls : list (node * list node)) : node :=
  CallExpression (i 0) testCallee
    [ Literal (i 1) (LStr name);
      FunctionExpression (i 2) [Identifier (i 3) a]
        (Other (i 4) "BlockStatement"
           (map (fun c : node * list node =>
                   Other (i 5) "ExpressionStatement"
                     [CallExpression (i 6) (fst c) (snd c)])
              calls)) ].

(** The state of the require-expect rule in a test whose callback takes
    [a], as far as the classification of a call goes. *)
Definition in_test_of (a : string) : RequireExpect.state :=
  RequireExpect.mkState
    (Some (RequireExpect.mkTest (Some a) [] 0 false false false)) [].

(** A call of [expect], bare or on the assert variable [a]. *)
Definition expects (a : string) (c : node * list node) : bool :=
  RequireExpect.isExpectCall (in_test_of a) (fst c).

(** Such a call, other than [expect(0)]. *)
Definition expects_non_zero (a : string) (c : node * list node) : bool :=
  RequireExpect.isNonZeroExpectCall (in_test_of a) (fst c) (snd c).

(** A call that passes the assert variable [a] as an argument. *)
Definition passes (a : string) (c : node * list node) : bool :=
  RequireExpect.isPassingAssertAsArgument (in_test_of a) (snd c).

(** A call of the body of [calls_test] that is no test and holds no call. *)
Definition plain_call (c : node * list node) : bool :=
  negb (utils.isTest (fst c)) && call_free (fst c)
  && forallb call_free (snd c).

(** A subtree without calls, block statements and arrow functions with an
    expression as body. *)
Definition flat (n : node) : bool :=
  all_nodes
    (fun m => negb (is_CallExpression m) && negb (RequireExpect.opens_block m))
    n.

Definition flat_call (c : node * list node) : bool :=
  negb (utils.isTest (fst c)) && flat (fst c) && forallb flat (snd c).

(** Among the calls of the body, one that passes the assert variable is met
    before any call of [expect]. *)
Fixpoint passes_before_expect (a : string) (calls : list (node * list node))
  : bool :=
  match calls with
  | [] => false
  | c :: calls' =>
      if expects a c then false
      else if passes a c then true
      else passes_before_expect a calls'
  end.

(** The report of the require-expect rule on the test call at [p]. *)
Definition expect_report (p : path) (messageId a : string) : report :=
  Report p messageId [("expect", a ++ ".expect")] None [].

(** What a call that counts does to the current test under the strategies
    "always" and "never", and under "never-except-zero". *)
Definition mark_expect (b : bool) (t : RequireExpect.TestContext)
  : RequireExpect.TestContext :=
  if b then RequireExpect.use_expect t else t.

Definition mark_non_zero (b : bool) (t : RequireExpect.TestContext)
  : RequireExpect.TestContext :=
  if b then RequireExpect.use_non_zero_expect t else t.

(** A node other than a module call without a callback: [QUnit.module(name)]
    and the like push no frame for the rules that keep a module stack. *)
Definition has_callback (n : node) : bool :=
  match n with
  | CallExpression _ callee arguments =>
      negb (utils.isModule callee)
      || defined (NoHooksFromAncestorModules.getCallbackArg arguments)
  | _ => true
  end.

(** The ancestor-hook rule's reports carry neither fix nor suggestion. *)
Definition plain_hook_report (r : report) : Prop :=
  messageId r = "noHooksFromAncestorModules"
  /\ fix_ r = None /\ suggest r = [].

(** Some ancestor is a module call. *)
Definition in_module (ps : list node) : Prop :=
  exists i callee arguments,
    In (CallExpression i callee arguments) ps
    /\ utils.isModule callee = true.

(** [moduleCallee(name, function (params) { c1(args1); c2(args2); ... })] *)
Definition hooks_module (i : nat -> src) (moduleCallee name : node)
  (params : list node) (calls : list (node * list node)) : node :=
  CallExpression (i 0) moduleCallee
    [ name;
      FunctionExpression (i 1) params
        (Other (i 2) "BlockStatement"
           (map (fun c : node * list node =>
                   Other (i 3) "ExpressionStatement"
                     [CallExpression (i 4) (fst c) (snd c)])
              calls)) ].

(** The name of the first parameter that is an identifier other than
    [this]. *)
Fixpoint hooks_parameter (params : list node) : option string :=
  match params with
  | [] => None
  | Identifier _ name :: params' =>
      if String.eqb name "this" then hooks_parameter params' else Some name
  | _ :: params' => hooks_parameter params'
  end.

(** The receiver and the method of a call [receiver.beforeEach(...)] or
    [receiver.afterEach(...)]. *)
Definition hook_on (c : node * list node) : option (string * string) :=
  match fst c with
  | MemberExpression _ (Identifier _ receiver) (Identifier _ method) =>
      if String.eqb method "afterEach" || String.eqb method "beforeEach"
      then Some (receiver, method) else None
  | _ => None
  end.

(** The reports on the statements [k], [k + 1], ... of the block at [q]:
    one on the callee of each hook call whose receiver is not [expected]. *)
Fixpoint hook_reports (q : path) (expected : option string) (k : nat)
  (calls : list (node * list node)) : list report :=
  match calls with
  | [] => []
  | c :: calls' =>
      match hook_on c with
      | Some (receiver, method) =>
          if eq_name receiver expected then []
          else [Report (callee_path (0 :: k :: q))
                  "noHooksFromAncestorModules"
                  [ ("invokedMethodName", method);
                    ("usedHooksIdentifierName", receiver) ]
                  None []]
      | None => []
      end ++ hook_reports q expected (S k) calls'
  end.

(** A call of the body of [hooks_module] that is no module call and holds
    no call. *)
Definition plain_statement (c : node * list node) : bool :=
  negb (utils.isModule (fst c)) && call_free (fst c)
  && forallb call_free (snd c).

(** A call with a literal as its name: the callee, the source of the
    literal, its value and the arguments that follow. *)
Record named_call := NamedCall {
  nc_callee : node;
  nc_src : src;
  nc_title : lit;
  nc_more : list node
}.

Definition call_of (i : nat -> src) (c : named_call) : node :=
  CallExpression (i 2) (nc_callee c)
    (Literal (nc_src c) (nc_title c) :: nc_more c).

(** A statement of a file in the flat style: [module(name);], which opens a
    module for the tests that follow, or [test(name, ...);]. *)
Inductive flat_item :=
| ModuleDecl (c : named_call)
| TestCall (c : named_call).

Definition item_call (it : flat_item) : named_call :=
  match it with ModuleDecl c | TestCall c => c end.

Definition flat_program (i : nat -> src) (items : list flat_item) : node :=
  Other (i 0) "Program"
    (map (fun it => Other (i 1) "ExpressionStatement"
                      [call_of i (item_call it)])
       items).

(** A node other than a call of a test or a module, and a subtree of such
    nodes. *)
Definition names_no_call (m : node) : bool :=
  match m with
  | CallExpression _ callee _ =>
      negb (utils.isTest callee) && negb (utils.isModule callee)
  | _ => true
  end.

Definition names_nothing (n : node) : bool := all_nodes names_no_call n.

(** The module declarations hold no call; the tests hold no call of a test
    or a module. *)
Definition plain_item (it : flat_item) : bool :=
  match it with
  | ModuleDecl c =>
      utils.isModule (nc_callee c) && forallb call_free (nc_more c)
  | TestCall c =>
      utils.isTest (nc_callee c) && forallb names_nothing (nc_more c)
  end.

(** The report on the name at [q] when one of the calls [l] has the same
    title: it gives the line of the first of them. *)
Definition duplicate (q : path) (messageId : string) (title : lit)
  (l : list named_call) : list report :=
  match find (fun e => NoIdenticalNames.strict_eq (nc_title e) title) l with
  | Some e => [Report q messageId [("line", pretty (line (nc_src e)))]
                 None []]
  | None => []
  end.

(** The reports on the statements [k], [k + 1], ... of the file, given the
    modules [mods] declared so far and the tests [group] that follow the
    last declaration (all tests so far, when there is none). *)
Fixpoint flat_reports (mods group : list named_call) (k : nat)
  (items : list flat_item) : list report :=
  match items with
  | [] => []
  | ModuleDecl c :: items' =>
      duplicate (arg_path [0; k] 0) "duplicateModule" (nc_title c) mods
        ++ flat_reports (mods ++ [c]) [] (S k) items'
  | TestCall c :: items' =>
      duplicate (arg_path [0; k] 0) "duplicateTest" (nc_title c) group
        ++ flat_reports mods (group ++ [c]) (S k) items'
  end.

(** The state of the rule between two statements of a flat file: the
    top-level module has the declared modules as children, and the tests of
    the group are recorded under the last of them (under the top-level
    module when there is none), which is not marked as having tests. *)
Definition flat_inv (i : nat -> src) (mods group : list named_call)
  (s : NoIdenticalNames.state) : Prop :=
  NoIdenticalNames.modulesStack s = [NoIdenticalNames.TOP_LEVEL_MODULE_NODE]
  /\ exists info0 ck cinfo,
       NoIdenticalNames.mapModuleNodeToInfo s !! (None : option path)
       = Some info0
       /\ map snd (NoIdenticalNames.modules info0) = map (call_of i) mods
       /\ NoIdenticalNames.mapModuleNodeToInfo s !! ck = Some cinfo
       /\ map snd (NoIdenticalNames.tests cinfo) = map (call_of i) group
       /\ ((NoIdenticalNames.modules info0 = [] /\ ck = None)
           \/ (exists l q n,
                  NoIdenticalNames.modules info0 = (l ++ [(q, n)])%list
                  /\ ck = Some q
                  /\ NoIdenticalNames.hasNestedTests cinfo = false)).

(** The reports of the duplicate-name rule: one of its three messages with
    a line as data, and neither fix nor suggestion. *)
Definition duplicate_name_report (r : report) : Prop :=
  In (messageId r)
    ["duplicateTest"; "duplicateModule"; "duplicateModuleAncestor"]
  /\ (exists l, data r = [("line", l)])
  /\ fix_ r = None /\ suggest r = [].

(** ** Induction on syntax trees *)

Section NodeInduction.
Variable P : node -> Prop.
Hypothesis HIdentifier : forall i name, P (Identifier i name).
Hypothesis HLiteral : forall i value, P (Literal i value).
Hypothesis HUnary : forall i op a, P a -> P (UnaryExpression i op a).
Hypothesis HMember : forall i o pr, P o -> P pr -> P (MemberExpression i o pr).
Hypothesis HCall : forall i c args,
    P c -> Forall P args -> P (CallExpression i c args).
Hypothesis HFunction : forall i pa b,
    Forall P pa -> P b -> P (FunctionExpression i pa b).
Hypothesis HArrow : forall i pa b,
    Forall P pa -> P b -> P (ArrowFunctionExpression i pa b).
Hypothesis HProperty : forall i k v, P k -> P v -> P (Property i k v).
Hypothesis HAssignment : forall i l r,
    P l -> P r -> P (AssignmentExpression i l r).
Hypothesis HDeclarator : forall i x e,
    P x -> match e with Some e' => P e' | None => True end ->
    P (VariableDeclarator i x e).
Hypothesis HOther : forall i t cs, Forall P cs -> P (Other i t cs).

Fixpoint node_induction (n : node) : P n :=
  let all := fix all (l : list node) : Forall P l :=
    match l with
    | [] => List.Forall_nil P
    | c :: l' => List.Forall_cons P c l' (node_induction c) (all l')
    end in
  match n with
  | Identifier i name => HIdentifier i name
  | Literal i value => HLiteral i value
  | UnaryExpression i op a => HUnary i op a (node_induction a)
  | MemberExpression i o pr =>
      HMember i o pr (node_induction o) (node_induction pr)
  | CallExpression i c args => HCall i c args (node_induction c) (all args)
  | FunctionExpression i pa b =>
      HFunction i pa b (all pa) (node_induction b)
  | ArrowFunctionExpression i pa b =>
      HArrow i pa b (all pa) (node_induction b)
  | Property i k v => HProperty i k v (node_induction k) (node_induction v)
  | AssignmentExpression i l r =>
      HAssignment i l r (node_induction l) (node_induction r)
  | VariableDeclarator i x e =>
      HDeclarator i x e (node_induction x)
        (match e return match e with Some e' => P e' | None => True end
         with
         | Some e0 => node_induction e0
         | None => I
         end)
  | Other i t cs => HOther i t cs (all cs)
  end.
End NodeInduction.

(** * Properties *)

(** ** The walk *)

Section TraversalFacts.
Context {St : Type} (R : rule St).

Lemma bind_Ok {A B} (m : result A) (f : A -> result B) b :
  (a ← m; f a) = Ok b <-> exists a, m = Ok a /\ f a = Ok b.
Proof.
  destruct m as [a|e]; simpl; split.
  - intros H. exists a. auto.
  - intros (a' & Ha & H). injection Ha as ->. exact H.
  - discriminate.
  - intros (a' & Ha & _). discriminate.
Qed.

Lemma traverse_list_app ps p k l1 l2 s :
  traverse_list R ps p k (l1 ++ l2) s =
  (s' ← traverse_list R ps p k l1 s;
   traverse_list R ps p (k + length l1) l2 s').
Proof.
  revert k s. induction l1 as [|c l1 IH]; intros k s; simpl.
  - rewrite Nat.add_0_r. reflexivity.
  - destruct (traverse R ps (k :: p) c s) as [s1|e]; simpl; [|reflexivity].
    rewrite IH. replace (S k + length l1) with (k + S (length l1)) by lia.
    reflexivity.
Qed.

(** One step of the walk: enter, the children in order, leave. *)
Lemma traverse_unfold ps p n s :
  traverse R ps p n s =
  (s1 ← enter R (Visit p n ps) s;
   s2 ← traverse_list R (n :: ps) p 0 (children n) s1;
   leave R (Visit p n ps) s2).
Proof.
  assert (Hgo : forall l k s0,
    (fix go (k : nat) (l : list node) (s : St) {struct l} : result St :=
       match l with
       | [] => Ok s
       | c :: l' =>
           s' ← traverse R (n :: ps) (k :: p) c s; go (S k) l' s'
       end) k l s0 = traverse_list R (n :: ps) p k l s0).
  { induction l as [|c l IH]; intros k s0; simpl; [reflexivity|].
    destruct (traverse R (n :: ps) (k :: p) c s0); simpl; auto. }
  destruct n as [| | | | | | | | | ? ? [e|] |]; simpl;
    destruct (enter R _ s) as [s1|e1]; simpl; try reflexivity;
    rewrite ?traverse_list_app; simpl;
    repeat first
      [ reflexivity
      | rewrite Hgo
      | match goal with
        | |- context [traverse R ?a ?b ?c ?d] =>
            destruct (traverse R a b c d); simpl
        | |- context [traverse_list R ?a ?b ?c ?d ?e] =>
            destruct (traverse_list R a b c d e); simpl
        end ].
Qed.
End TraversalFacts.

(** From here on the walk is unfolded one node at a time, by
    [traverse_unfold]. *)
Arguments traverse : simpl never.

Section TraversalInduction.
Context {St : Type} (R : rule St).

Lemma all_nodes_children P n :
  all_nodes P n = P n && forallb (all_nodes P) (children n).
Proof.
  destruct n as [| | | | | | | | | ? ? [e|] |]; simpl;
    rewrite ?forallb_app; simpl; rewrite ?andb_true_r; reflexivity.
Qed.

(** A property of the state that every handler keeps is kept by the walk. *)
Lemma traverse_preserves (Inv : St -> Prop) :
  (forall v s s', Inv s -> enter R v s = Ok s' -> Inv s') ->
  (forall v s s', Inv s -> leave R v s = Ok s' -> Inv s') ->
  forall n ps p s s', Inv s -> traverse R ps p n s = Ok s' -> Inv s'.
Proof.
  intros Henter Hleave.
  assert (Hlist : forall l, Forall (fun c => forall ps p s s',
              Inv s -> traverse R ps p c s = Ok s' -> Inv s') l ->
            forall ps p k s s', Inv s ->
              traverse_list R ps p k l s = Ok s' -> Inv s').
  { induction 1 as [|c l Hc _ IH]; intros ps p k s s' Hs; simpl.
    - intros [= <-]. exact Hs.
    - intros (s1 & H1 & H2)%bind_Ok. eauto. }
  assert (Hnode : forall n, Forall (fun c => forall ps p s s',
              Inv s -> traverse R ps p c s = Ok s' -> Inv s') (children n) ->
            forall ps p s s', Inv s -> traverse R ps p n s = Ok s' -> Inv s').
  { intros n Hc ps p s s' Hs. rewrite traverse_unfold.
    intros (s1 & H1 & (s2 & H2 & H3)%bind_Ok)%bind_Ok. eauto. }
  induction n using node_induction; apply Hnode; simpl;
    repeat first [ apply Forall_app_2 | apply List.Forall_cons
                 | apply List.Forall_nil | assumption ].
  - destruct e; repeat first [ apply List.Forall_cons
                             | apply List.Forall_nil | assumption ].
Qed.

(** Handlers that do nothing at the nodes of a tree: the walk of the tree
    returns the state it started from. *)
Lemma traverse_inert (P : node -> bool) :
  (forall v s, P (v_node v) = true -> enter R v s = Ok s) ->
  (forall v s, P (v_node v) = true -> leave R v s = Ok s) ->
  forall n ps p s, all_nodes P n = true -> traverse R ps p n s = Ok s.
Proof.
  intros Henter Hleave.
  assert (Hlist : forall l, Forall (fun c => forall ps p s,
              all_nodes P c = true -> traverse R ps p c s = Ok s) l ->
            forall ps p k s, forallb (all_nodes P) l = true ->
              traverse_list R ps p k l s = Ok s).
  { induction 1 as [|c l Hc _ IH]; intros ps p k s; simpl; [reflexivity|].
    intros [H1 H2]%andb_true_iff. rewrite Hc by exact H1. simpl. auto. }
  assert (Hnode : forall n, Forall (fun c => forall ps p s,
              all_nodes P c = true -> traverse R ps p c s = Ok s)
              (children n) ->
            forall ps p s, all_nodes P n = true ->
              traverse R ps p n s = Ok s).
  { intros n Hc ps p s. rewrite all_nodes_children.
    intros [H1 H2]%andb_true_iff. rewrite traverse_unfold.
    rewrite Henter by exact H1. simpl. rewrite Hlist by assumption. simpl.
    apply Hleave. exact H1. }
  induction n using node_induction; apply Hnode; simpl;
    repeat first [ apply Forall_app_2 | apply List.Forall_cons
                 | apply List.Forall_nil | assumption ].
  - destruct e; repeat first [ apply List.Forall_cons
                             | apply List.Forall_nil | assumption ].
Qed.

Lemma traverse_list_inert (P : node -> bool) :
  (forall v s, P (v_node v) = true -> enter R v s = Ok s) ->
  (forall v s, P (v_node v) = true -> leave R v s = Ok s) ->
  forall l ps p k s, forallb (all_nodes P) l = true ->
    traverse_list R ps p k l s = Ok s.
Proof.
  intros Henter Hleave. induction l as [|c l IH]; intros ps p k s; simpl.
  - reflexivity.
  - intros [H1 H2]%andb_true_iff.
    rewrite (traverse_inert P Henter Hleave) by exact H1. simpl. auto.
Qed.
End TraversalInduction.

(** ** Call shapes *)

Lemma eqb_true (a b : string) : String.eqb a b = true -> a = b.
Proof. apply String.eqb_eq. Qed.

Lemma bare_or_QUnit_inv p c :
  utils.bare_or_QUnit p c = true ->
  (exists i name, c = Identifier i name /\ p name = true) \/
  (exists i i1 i2 name,
      c = MemberExpression i (Identifier i1 "QUnit") (Identifier i2 name)
      /\ p name = true).
Proof.
  destruct c as [i name| | |i o pr| | | | | | |]; simpl; try discriminate.
  - left. eauto.
  - destruct o as [i1 oname| | | | | | | | | |]; simpl; try discriminate.
    destruct pr as [i2 pname| | | | | | | | | |]; simpl;
      rewrite ?andb_false_r; try discriminate.
    intros [H1%eqb_true H2]%andb_true_iff. subst. right. eauto 8.
Qed.

Lemma bare_or_QUnit_excl p q c :
  (forall name, p name = true -> q name = false) ->
  utils.bare_or_QUnit p c = true -> utils.bare_or_QUnit q c = false.
Proof.
  intros Hpq [(i & name & -> & H)|(i & i1 & i2 & name & -> & H)]%bare_or_QUnit_inv;
    simpl; auto.
Qed.

Lemma isStop_not_isTest c : utils.isStop c = true -> utils.isTest c = false.
Proof.
  apply bare_or_QUnit_excl. intros name ->%eqb_true. reflexivity.
Qed.

Lemma isStart_not_isTest c : utils.isStart c = true -> utils.isTest c = false.
Proof.
  apply bare_or_QUnit_excl. intros name ->%eqb_true. reflexivity.
Qed.

Lemma isStart_not_isStop c : utils.isStart c = true -> utils.isStop c = false.
Proof.
  apply bare_or_QUnit_excl. intros name ->%eqb_true. reflexivity.
Qed.

Lemma includes_inv l s : includes l s = true -> In s l.
Proof.
  unfold includes. intros (x & Hx & ->%eqb_true)%existsb_exists. exact Hx.
Qed.

(** A callee of one of the [bare_or_QUnit] shapes has no call inside. *)
Lemma bare_or_QUnit_quiet p c (Q : node -> bool) :
  (forall i name, Q (Identifier i name) = true) ->
  (forall i o pr, Q (MemberExpression i o pr) = true) ->
  utils.bare_or_QUnit p c = true -> all_nodes Q c = true.
Proof.
  intros HI HM [(i & name & -> & H)|(i & i1 & i2 & name & -> & H)]%bare_or_QUnit_inv;
    simpl; rewrite ?HI, ?HM; reflexivity.
Qed.

Lemma identifiers_quiet (Q : node -> bool) l :
  (forall i name, Q (Identifier i name) = true) ->
  forallb is_Identifier l = true -> forallb (all_nodes Q) l = true.
Proof.
  intros HI. induction l as [|c l IH]; simpl; [reflexivity|].
  intros [H1 H2]%andb_true_iff. destruct c; try discriminate.
  simpl. rewrite HI, IH by assumption. reflexivity.
Qed.

(** ** resolve-async *)

Section ResolveAsyncFacts.
Import ResolveAsync.

Lemma resolve_async_quiet n ps p st :
  all_nodes no_async_handler n = true ->
  traverse the_rule ps p n st = Ok st.
Proof.
  apply (traverse_inert the_rule no_async_handler).
  - intros [q m qs] s; simpl. unfold on_enter; simpl.
    destruct m; simpl; intros; try discriminate; reflexivity.
  - intros [q m qs] s; simpl. unfold on_exit; simpl.
    destruct m; simpl; intros; try discriminate; reflexivity.
Qed.

Lemma resolve_async_quiet_list l ps p k st :
  forallb (all_nodes no_async_handler) l = true ->
  traverse_list the_rule ps p k l st = Ok st.
Proof.
  revert k st. induction l as [|c l IH]; intros k st; simpl; [reflexivity|].
  intros [H1 H2]%andb_true_iff.
  rewrite resolve_async_quiet by exact H1. simpl. auto.
Qed.

Lemma callee_quiet pr c :
  utils.bare_or_QUnit pr c = true -> all_nodes no_async_handler c = true.
Proof. apply bare_or_QUnit_quiet; reflexivity. Qed.

Lemma stop_enter callee a rest rs :
  utils.isStop callee = true ->
  getAsyncCallbackVarOrNull (mkState (a :: rest) rs) callee = None ->
  CallExpression_enter callee [] (mkState (a :: rest) rs)
  = mkState (mkAsyncState (JS.add (stopSemaphoreCount a) (JS.Num 1))
               (asyncCallbackVars a) (assertContextVar a) :: rest) rs.
Proof.
  intros Hstop Hcb. unfold CallExpression_enter.
  rewrite (isStop_not_isTest _ Hstop), Hcb, Hstop. reflexivity.
Qed.

Lemma start_enter callee a rest rs :
  utils.isStart callee = true ->
  getAsyncCallbackVarOrNull (mkState (a :: rest) rs) callee = None ->
  CallExpression_enter callee [] (mkState (a :: rest) rs)
  = mkState (mkAsyncState (JS.add (stopSemaphoreCount a) (JS.Num (-1)))
               (asyncCallbackVars a) (assertContextVar a) :: rest) rs.
Proof.
  intros Hstart Hcb. unfold CallExpression_enter.
  rewrite (isStart_not_isTest _ Hstart), Hcb,
    (isStart_not_isStop _ Hstart), Hstart.
  reflexivity.
Qed.

(** In a frame that tracks no callback variable, [stop] and [start] are
    not taken for one. *)
Lemma fresh_frame_no_callback pr c count v rest rs :
  utils.bare_or_QUnit pr c = true ->
  (forall name, pr name = true -> includes JS.Object_prototype name = false) ->
  (forall name, pr name = true -> includes ["call"; "apply"] name = false) ->
  getAsyncCallbackVarOrNull
    (mkState (mkAsyncState count [] v :: rest) rs) c = None.
Proof.
  intros [(i & name & -> & H)|(i & i1 & i2 & name & -> & H)]%bare_or_QUnit_inv
    Hproto Hcall; unfold getAsyncCallbackVarOrNull;
    cbn [asyncStateStack asyncCallbackVars utils.ident_with].
  - unfold JS.has_in. cbn [utils.own]. rewrite (Hproto _ H). reflexivity.
  - rewrite (Hcall _ H). reflexivity.
Qed.

Lemma exit_not_test p callee st :
  utils.isTest callee = false -> CallExpression_exit p callee st = st.
Proof. intros H. unfold CallExpression_exit. rewrite H. reflexivity. Qed.

Lemma async_calls_walk i calls : forall ps p k count v rest rs,
  forallb well_marked calls = true ->
  traverse_list the_rule ps p k
    (map (fun c : bool * node =>
            Other (i 4) "ExpressionStatement"
              [CallExpression (i 5) (snd c) []])
       calls)
    (mkState (mkAsyncState (JS.Num count) [] v :: rest) rs)
  = Ok (mkState (mkAsyncState (JS.Num (count + balance calls)) [] v :: rest)
          rs).
Proof.
  induction calls as [|[b c] calls IH]; intros ps p k count v rest rs;
    cbn [map traverse_list forallb balance fold_right fst snd].
  - intros _. rewrite Z.add_0_r. reflexivity.
  - intros [Hc Hcs]%andb_true_iff. unfold well_marked in Hc. cbn [fst snd] in Hc.
    rewrite (traverse_unfold _ _ _ (Other _ _ _)).
    cbn [children traverse_list enter leave the_rule on_enter on_exit v_node
           v_path mbind result_bind].
    rewrite (traverse_unfold _ _ _ (CallExpression _ _ _)).
    cbn [children traverse_list enter leave the_rule on_enter on_exit v_node
           v_path mbind result_bind].
    destruct b.
    + rewrite stop_enter; [|assumption|].
      2:{ eapply fresh_frame_no_callback; [eassumption| |];
          intros ? ->%eqb_true; reflexivity. }
      rewrite (resolve_async_quiet c) by (eapply callee_quiet; eassumption).
      cbn [mbind result_bind].
      rewrite (exit_not_test _ c) by (apply isStop_not_isTest, Hc).
      cbn [stopSemaphoreCount asyncCallbackVars assertContextVar JS.add].
      rewrite IH by assumption. rewrite Z.add_assoc. reflexivity.
    + rewrite start_enter; [|assumption|].
      2:{ eapply fresh_frame_no_callback; [eassumption| |];
          intros ? ->%eqb_true; reflexivity. }
      rewrite (resolve_async_quiet c) by (eapply callee_quiet; eassumption).
      cbn [mbind result_bind].
      rewrite (exit_not_test _ c) by (apply isStart_not_isTest, Hc).
      cbn [stopSemaphoreCount asyncCallbackVars assertContextVar JS.add].
      rewrite IH by assumption. rewrite Z.add_assoc. reflexivity.
Qed.

End ResolveAsyncFacts.

Section ResolveAsyncClaims.
Import ResolveAsync.





(** What the rule does with an explicit count: [+node.arguments[0]] is
    applied to the argument node, not to its value, so the counter becomes
    [NaN] and nothing is reported for [QUnit.stop(2); QUnit.start();],
    which leaves one [start()] call missing. *)
Lemma resolve_async_explicit_count_is_NaN :
  reports_of reports (lint the_rule Examples.stop_two_start_one initial)
  = Ok []
  /\ CallExpression_enter (Build.QUnit_ "stop") [Build.num 2]
       (mkState [mkAsyncState (JS.Num 0) [] None] [])
     = mkState [mkAsyncState JS.NaN [] None] [].
Proof. split; reflexivity. Qed.

Lemma set_own_false_inv o k v name :
  existsb (fun kv => String.eqb (fst kv) name && negb (snd kv))
    (JS.set_own o k v) = true ->
  existsb (fun kv => String.eqb (fst kv) name && negb (snd kv)) o = true
  \/ (k = name /\ v = false).
Proof.
  induction o as [|[k' v'] o IH]; simpl.
  - rewrite orb_false_r. intros [H1%eqb_true H2]%andb_true_iff.
    right. split; [exact H1|]. destruct v; [discriminate|reflexivity].
  - destruct (String.eqb k k') eqn:E; simpl.
    + intros [[H1%eqb_true H2]%andb_true_iff|H]%orb_true_iff.
      * right. split; [exact H1|]. destruct v; [discriminate|reflexivity].
      * left. rewrite H. apply orb_true_r.
    + intros [H|H]%orb_true_iff.
      * left. rewrite H. reflexivity.
      * destruct (IH H) as [H'|H']; [left|right; exact H'].
        rewrite H'. apply orb_true_r.
Qed.

Lemma assign_false_inv o k v name :
  existsb (fun kv => String.eqb (fst kv) name && negb (snd kv))
    (JS.assign o k v) = true ->
  existsb (fun kv => String.eqb (fst kv) name && negb (snd kv)) o = true
  \/ (k = name /\ v = false).
Proof.
  unfold JS.assign. destruct (String.eqb k "__proto__"); auto.
  apply set_own_false_inv.
Qed.

Lemma pending_on_top f name st :
  (forall a, pending_in name (f a) = true ->
             pending_in name a = true) ->
  pending name (on_top f st) = true -> pending name st = true.
Proof.
  intros Hf. unfold pending, on_top. destruct st as [[|a rest] rs]; simpl; auto.
  intros [H|H]%orb_true_iff.
  - rewrite (Hf _ H). reflexivity.
  - rewrite H. apply orb_true_r.
Qed.

Lemma pending_pop p name st :
  pending name (pop_and_verify p st) = true -> pending name st = true.
Proof.
  unfold pending, pop_and_verify. destruct st as [[|a rest] rs]; simpl; auto.
  intros ->. apply orb_true_r.
Qed.

Lemma pending_add lhs name st :
  pending name (addAsyncCallbackVar lhs st) = true ->
  pending name st = true \/ exists i, lhs = Identifier i name.
Proof.
  destruct lhs as [i x| | | | | | | | | |]; simpl; auto.
  unfold pending, on_top. destruct st as [[|a rest] rs]; simpl; auto.
  intros [H|H]%orb_true_iff.
  - unfold pending_in in H. simpl in H.
    apply assign_false_inv in H as [H|[-> _]]; [left|right; eauto].
    unfold pending_in. rewrite H. reflexivity.
  - left. rewrite H. apply orb_true_r.
Qed.

Lemma pending_enter v st name :
  pending name (on_enter v st) = true ->
  pending name st = false ->
  exists i i' rhs,
    isAsyncCallExpression st rhs = true
    /\ (v_node v = AssignmentExpression i (Identifier i' name) rhs
        \/ v_node v = VariableDeclarator i (Identifier i' name) (Some rhs)).
Proof.
  intros Hafter Hbefore.
  assert (Hno : pending name st = true -> exists i i' rhs,
    isAsyncCallExpression st rhs = true
    /\ (v_node v = AssignmentExpression i (Identifier i' name) rhs
        \/ v_node v = VariableDeclarator i (Identifier i' name) (Some rhs)))
    by (rewrite Hbefore; discriminate).
  unfold on_enter in Hafter.
  destruct (v_node v) as [| | | |i callee args| | |i key value|i lhs rhs
                          |i x init|]; auto.
  - (* CallExpression *)
    unfold CallExpression_enter in Hafter.
    destruct (utils.isTest callee).
    { apply Hno. unfold pending, push in *. simpl in Hafter. exact Hafter. }
    destruct (utils.truthy (getAsyncCallbackVarOrNull st callee)).
    { destruct (getAsyncCallbackVarOrNull st callee) as [cb|]; auto.
      apply Hno. revert Hafter. apply pending_on_top. intros a.
      unfold pending_in. simpl.
      intros [H|[_ [=]]]%assign_false_inv. exact H. }
    destruct (utils.isStop callee);
      [apply Hno; revert Hafter; apply pending_on_top; auto|].
    destruct (utils.isStart callee);
      [apply Hno; revert Hafter; apply pending_on_top; auto|].
    auto.
  - (* Property *)
    unfold Property_enter in Hafter.
    destruct (_ && _); auto.
  - (* AssignmentExpression *)
    unfold AssignmentExpression_enter in Hafter.
    destruct (isAsyncCallExpression st rhs) eqn:Hasync; auto.
    destruct (is_Identifier lhs); auto.
    apply pending_add in Hafter as [H|[i' ->]]; [exact (Hno H)|].
    exists i, i', rhs. auto.
  - (* VariableDeclarator *)
    unfold VariableDeclarator_enter in Hafter.
    destruct init as [e|]; auto.
    destruct (isAsyncCallExpression st e) eqn:Hasync; auto.
    destruct (is_Identifier x); auto.
    apply pending_add in Hafter as [H|[i' ->]]; [exact (Hno H)|].
    exists i, i', e. auto.
Qed.

Lemma pending_exit v st name :
  pending name (on_exit v st) = true -> pending name st = true.
Proof.
  unfold on_exit.
  destruct (v_node v) as [| | | |i callee args| | |i key value| | |]; auto.
  - unfold CallExpression_exit. destruct (utils.isTest callee); auto.
    apply pending_pop.
  - unfold Property_exit. destruct (_ && _); auto. apply pending_pop.
Qed.

Lemma verifyAsyncState_asyncCallbackNotCalled a p r :
  In r (verifyAsyncState a p) ->
  messageId r = "asyncCallbackNotCalled" ->
  exists name, pending_in name a = true /\ r = asyncCallbackNotCalled p name.
Proof.
  unfold verifyAsyncState. intros [H|H]%in_app_or Hm.
  - destruct (JS.gt0 _); [|destruct H].
    destruct H as [<-|[]]. discriminate.
  - apply in_map_iff in H as ([k b] & <- & [Hin Hb]%filter_In).
    exists k. split; [|reflexivity]. unfold pending_in.
    apply existsb_exists. exists (k, b). split; [exact Hin|]. simpl in *.
    rewrite String.eqb_refl, Hb. reflexivity.
Qed.

(** C10.  An assignment or a declarator whose target is not an
    [Identifier] changes nothing; a name becomes a pending callback
    variable only at an assignment or a declarator that binds the result
    of the top frame's [.async()] call to the [Identifier] of that name;
    leaving a node makes no name pending; and every "asyncCallbackNotCalled"
    report made when a frame is left is for a name pending in that frame.
    So the result of [.async()] bound through a pattern or a member
    expression is never tracked and never reported. *)
Theorem resolve_async_tracks_identifier_targets_only :
  (forall lhs rhs st,
      is_Identifier lhs = false ->
      AssignmentExpression_enter lhs rhs st = st)
  /\ (forall id init st,
        is_Identifier id = false ->
        VariableDeclarator_enter id init st = st)
  /\ (forall v st name,
        pending name (on_enter v st) = true ->
        pending name st = false ->
        exists i i' rhs,
          isAsyncCallExpression st rhs = true
          /\ (v_node v = AssignmentExpression i (Identifier i' name) rhs
              \/ v_node v
                 = VariableDeclarator i (Identifier i' name) (Some rhs)))
  /\ (forall v st name,
        pending name (on_exit v st) = true -> pending name st = true)
  /\ (forall a p r,
        In r (verifyAsyncState a p) ->
        messageId r = "asyncCallbackNotCalled" ->
        exists name,
          pending_in name a = true /\ r = asyncCallbackNotCalled p name).
Proof.
  repeat split.
  - intros lhs rhs st H. unfold AssignmentExpression_enter. rewrite H.
    destruct (isAsyncCallExpression st rhs); reflexivity.
  - intros id init st H. unfold VariableDeclarator_enter. rewrite H.
    destruct init as [e|]; [|reflexivity].
    destruct (isAsyncCallExpression st e); reflexivity.
  - apply pending_enter.
  - apply pending_exit.
  - apply verifyAsyncState_asyncCallbackNotCalled.
Qed.

Lemma resolve_async_tracks_identifier_targets_only_witness :
  AssignmentExpression_enter
    (Build.member (Build.ident "this") (Build.ident "done"))
    (Build.call (Build.member (Build.ident "assert") (Build.ident "async")) [])
    (mkState [mkAsyncState (JS.Num 0) [] (Some "assert")] [])
  = mkState [mkAsyncState (JS.Num 0) [] (Some "assert")] [].
Proof.
  apply (proj1 resolve_async_tracks_identifier_targets_only). reflexivity.
Defined.

(** The three ways of binding the result, run through the rule: only the
    plain identifier is reported when the callback is never called. *)
Lemma resolve_async_binding_examples :
  reports_of reports
    (lint the_rule (Examples.async_bound_to (Build.ident "done") true)
       initial)
  = Ok [asyncCallbackNotCalled [0; 0] "done"]
  /\ reports_of reports
       (lint the_rule
          (Examples.async_bound_to
             (Other (Src "[done]" 1) "ArrayPattern" [Build.ident "done"])
             true)
          initial)
     = Ok []
  /\ reports_of reports
       (lint the_rule
          (Examples.async_bound_to
             (Build.member (Build.ident "this") (Build.ident "done")) false)
          initial)
     = Ok [].
Proof. repeat split; reflexivity. Qed.
End ResolveAsyncClaims.

(** ** no-assert-equal-boolean *)

Section NoAssertEqualBooleanFacts.
Import NoAssertEqualBoolean.

Lemma filter_indexed_keep {A} (g : nat -> A -> nat * A) (k : nat) (l : list A) :
  (forall j a, fst (g j a) <> k) ->
  List.filter (fun ka : nat * A => negb (Nat.eqb (fst ka) k)) (imap g l)
  = imap g l.
Proof.
  revert g. induction l as [|x l IH]; intros g Hg; simpl; [reflexivity|].
  destruct (Nat.eqb_spec (fst (g 0 x)) k) as [E|_]; [destruct (Hg 0 x E)|].
  simpl. f_equal. apply IH. intros j a. apply Hg.
Qed.

Lemma map_snd_indexed {A B} (h : A -> B) (g : nat -> A -> nat * A)
  (l : list A) :
  (forall j a, snd (g j a) = a) ->
  map (fun ka : nat * A => h (snd ka)) (imap g l) = map h l.
Proof.
  revert g. induction l as [|x l IH]; intros g Hg; simpl; [reflexivity|].
  rewrite Hg. f_equal. apply IH. intros j a. apply Hg.
Qed.

(** Dropping the argument at index 0, and at index 1. *)
Lemma drop_first_argument (a0 : node) l :
  map (fun ka => getText (snd ka))
    (List.filter (fun ka => negb (Nat.eqb (fst ka) 0)) (indexed (a0 :: l)))
  = map getText l.
Proof.
  unfold indexed. simpl.
  rewrite filter_indexed_keep by (intros j a; discriminate).
  apply map_snd_indexed. reflexivity.
Qed.

Lemma drop_second_argument (a0 a1 : node) l :
  map (fun ka => getText (snd ka))
    (List.filter (fun ka => negb (Nat.eqb (fst ka) 1))
       (indexed (a0 :: a1 :: l)))
  = map getText (a0 :: l).
Proof.
  unfold indexed. simpl. f_equal.
  rewrite filter_indexed_keep by (intros j a; discriminate).
  apply map_snd_indexed. reflexivity.
Qed.

Lemma equality_name_not_test name :
  includes EQUALITY_ASSERTIONS name = true ->
  includes utils.SUPPORTED_TEST_IDENTIFIERS name = false
  /\ String.eqb name "asyncTest" = false.
Proof.
  intros H%includes_inv. unfold EQUALITY_ASSERTIONS, In in H.
  destruct H as [<-|[<-|[<-|[]]]]; split; reflexivity.
Qed.

(** The two shapes of an equality assertion in a frame. *)
Lemma isEqualityAssertion_inv st f rest callee :
  testStack st = f :: rest ->
  isEqualityAssertion st callee = Ok true ->
  (exists i name, callee = Identifier i name
                  /\ includes EQUALITY_ASSERTIONS name = true)
  \/ (exists i i1 i2 oname pname,
         callee = MemberExpression i (Identifier i1 oname) (Identifier i2 pname)
         /\ includes EQUALITY_ASSERTIONS pname = true
         /\ assertVar f = Some oname).
Proof.
  intros Hst. unfold isEqualityAssertion, isGlobalEqualityAssertion.
  destruct callee as [i name| | |i o pr| | | | | | |];
    cbn [utils.ident_with isAssertEquality]; try discriminate.
  - destruct (includes EQUALITY_ASSERTIONS name) eqn:E; [|discriminate].
    left. eauto.
  - destruct pr as [i2 pname| | | | | | | | | |];
      cbn [utils.ident_with]; try discriminate.
    destruct (includes EQUALITY_ASSERTIONS pname) eqn:E; [|discriminate].
    destruct o as [i1 oname| | | | | | | | | |]; try discriminate.
    unfold getCurrentAssertContextVariable. rewrite Hst.
    cbn [mbind result_bind].
    destruct (assertVar f) as [x|] eqn:Ef; cbn [eq_name]; [|discriminate].
    intros [= ->%eqb_true]. right. eauto 10.
Qed.

Lemma equality_not_test st f rest callee :
  testStack st = f :: rest ->
  isEqualityAssertion st callee = Ok true ->
  utils.isTest callee || utils.isAsyncTest callee = false.
Proof.
  intros Hst [(i & name & -> & H)|(i & i1 & i2 & o & pn & -> & H & _)]%(isEqualityAssertion_inv _ _ _ _ Hst);
    apply equality_name_not_test in H as [H1 H2];
    unfold utils.isTest, utils.isAsyncTest;
    cbn [utils.bare_or_QUnit utils.ident_with];
    rewrite H1, H2, ?andb_false_r; reflexivity.
Qed.

Lemma equality_prefix st f rest callee :
  testStack st = f :: rest ->
  isEqualityAssertion st callee = Ok true ->
  match callee with
  | Identifier _ _ => Ok ""
  | _ => v ← getCurrentAssertContextVariable st; Ok (template v ++ ".")
  end = Ok (receiver_prefix callee).
Proof.
  intros Hst [(i & name & -> & H)|(i & i1 & i2 & o & pn & -> & H & Hv)]%(isEqualityAssertion_inv _ _ _ _ Hst);
    simpl; [reflexivity|].
  unfold getCurrentAssertContextVariable. rewrite Hst. simpl. rewrite Hv.
  reflexivity.
Qed.

(** The fix when the first argument is a boolean literal: it is the one
    dropped, whatever the second is. *)
Lemma fix_first_boolean st f rest p callee i b a1 more :
  testStack st = f :: rest ->
  isEqualityAssertion st callee = Ok true ->
  fix_of st p callee (Literal i (LBool b) :: a1 :: more)
  = Ok (Some [Edit p (receiver_prefix callee ++ boolean_name b ++ "("
                        ++ join ", " (map getText (a1 :: more)) ++ ")")]).
Proof.
  intros Hst Heq. unfold fix_of, getBooleanArgument. simpl find.
  cbv iota beta. rewrite (equality_prefix _ _ _ _ Hst Heq).
  rewrite drop_first_argument. destruct b; reflexivity.
Qed.

Lemma fix_second_boolean st f rest p callee a0 i b more :
  testStack st = f :: rest ->
  isEqualityAssertion st callee = Ok true ->
  is_boolean_literal a0 = false ->
  fix_of st p callee (a0 :: Literal i (LBool b) :: more)
  = Ok (Some [Edit p (receiver_prefix callee ++ boolean_name b ++ "("
                        ++ join ", " (map getText (a0 :: more)) ++ ")")]).
Proof.
  intros Hst Heq H0. unfold fix_of, getBooleanArgument. simpl find.
  rewrite H0. cbv iota beta. rewrite (equality_prefix _ _ _ _ Hst Heq).
  rewrite drop_second_argument. destruct b; reflexivity.
Qed.

Lemma enter_equality st f rest p callee args :
  testStack st = f :: rest ->
  isEqualityAssertion st callee = Ok true ->
  CallExpression_enter p callee args st
  = if defined (getBooleanArgument args)
    then reportError st p callee args else Ok st.
Proof.
  intros Hst Heq. unfold CallExpression_enter.
  rewrite (equality_not_test _ _ _ _ Hst Heq), Hst, Heq. reflexivity.
Qed.

Lemma is_boolean_literal_inv a :
  is_boolean_literal a = true -> exists i b, a = Literal i (LBool b).
Proof.
  destruct a as [|i [| b | | |]| | | | | | | | |]; try discriminate. eauto.
Qed.
End NoAssertEqualBooleanFacts.

Section NoAssertEqualBooleanClaims.
Import NoAssertEqualBoolean.

Lemma no_boolean_argument_inv a0 a1 more :
  getBooleanArgument (a0 :: a1 :: more) = None
  <-> is_boolean_literal a0 = false /\ is_boolean_literal a1 = false.
Proof.
  unfold getBooleanArgument. simpl.
  destruct (is_boolean_literal a0), (is_boolean_literal a1); simpl;
    split; try discriminate; auto; intros [? ?]; discriminate.
Qed.

Lemma enter_without_boolean st p callee args :
  getBooleanArgument args = None ->
  utils.isTest callee || utils.isAsyncTest callee = false ->
  CallExpression_enter p callee args st = Ok st.
Proof.
  intros Hnone Hnt. unfold CallExpression_enter. rewrite Hnt, Hnone.
  destruct (testStack st) as [|f rest] eqn:Hst; simpl; [reflexivity|].
  assert (H : exists b, isEqualityAssertion st callee = Ok b).
  { unfold isEqualityAssertion, isAssertEquality,
      getCurrentAssertContextVariable. rewrite Hst.
    destruct (isGlobalEqualityAssertion callee); [eauto|].
    destruct callee as [| | |i o pr| | | | | | |]; eauto.
    destruct (utils.ident_with _ pr); eauto.
    destruct o; simpl; eauto. }
  destruct H as [b ->]. simpl. rewrite andb_false_r. reflexivity.
Qed.

(** C2, as amended.  Without a boolean literal among the first two
    arguments (or with fewer than two arguments) the fix function returns no
    rewrite, and such a call is not reported either; with a boolean literal
    in at least one of the two places a reported equality assertion carries
    one rewrite of the call; and when both are boolean literals the rewrite
    drops the first and keeps the second as an argument. *)
Theorem boolean_fix_offered :
  (forall st p callee args,
      getBooleanArgument args = None ->
      fix_of st p callee args = Ok None
      /\ (utils.isTest callee || utils.isAsyncTest callee = false ->
          CallExpression_enter p callee args st = Ok st))
  /\ (forall a0 a1 more,
        getBooleanArgument (a0 :: a1 :: more) = None
        <-> is_boolean_literal a0 = false /\ is_boolean_literal a1 = false)
  /\ (forall args, length args < 2 -> getBooleanArgument args = None)
  /\ (forall st f rest p callee a0 a1 more,
        testStack st = f :: rest ->
        isEqualityAssertion st callee = Ok true ->
        is_boolean_literal a0 || is_boolean_literal a1 = true ->
        exists text,
          fix_of st p callee (a0 :: a1 :: more) = Ok (Some [Edit p text])
          /\ CallExpression_enter p callee (a0 :: a1 :: more) st
             = Ok (mkState (testStack st)
                     (reports st ++
                        [Report p "useAssertTrueOrFalse" []
                           (Some [Edit p text]) []])))
  /\ (forall st f rest p callee i b i' b' more,
        testStack st = f :: rest ->
        isEqualityAssertion st callee = Ok true ->
        fix_of st p callee
          (Literal i (LBool b) :: Literal i' (LBool b') :: more)
        = Ok (Some [Edit p (receiver_prefix callee ++ boolean_name b ++ "("
                              ++ join ", "
                                   (map getText (Literal i' (LBool b') :: more))
                              ++ ")")])).
Proof.
  split; [|split; [|split; [|split]]].
  - intros st p callee args Hnone. split.
    + unfold fix_of. rewrite Hnone. reflexivity.
    + apply enter_without_boolean. exact Hnone.
  - apply no_boolean_argument_inv.
  - intros [|a0 [|a1 more]]; simpl; intros H; try reflexivity. lia.
  - intros st f rest p callee a0 a1 more Hst Heq Hb.
    assert (Hfix : exists text,
      fix_of st p callee (a0 :: a1 :: more) = Ok (Some [Edit p text])
      /\ defined (getBooleanArgument (a0 :: a1 :: more)) = true).
    { destruct (is_boolean_literal a0) eqn:H0.
      - apply is_boolean_literal_inv in H0 as (i & b & ->).
        eexists. split; [eapply fix_first_boolean; eassumption|reflexivity].
      - simpl in Hb. pose proof Hb as H1.
        apply is_boolean_literal_inv in H1 as (i & b & ->).
        eexists. split; [eapply fix_second_boolean; eassumption|].
        unfold getBooleanArgument. simpl. rewrite H0. reflexivity. }
    destruct Hfix as (text & Hfix & Hdef). exists text. split; [exact Hfix|].
    rewrite (enter_equality _ _ _ _ _ _ Hst Heq), Hdef.
    unfold reportError. rewrite Hfix. reflexivity.
  - intros. eapply fix_first_boolean; eassumption.
Qed.

Lemma boolean_fix_offered_witness :
  fix_of (mkState [Frame (Some "assert")] []) [0]
    (Build.member (Build.ident "assert") (Build.ident "equal"))
    [Build.bool_lit true; Build.bool_lit false]
  = Ok (Some [Edit [0] "assert.true(false)"]).
Proof.
  apply (proj2 (proj2 (proj2 (proj2 boolean_fix_offered)))
           (mkState [Frame (Some "assert")] []) (Frame (Some "assert")) []);
    reflexivity.
Defined.

(** C2 as stated fails when both arguments are boolean literals: the call
    [assert.equal(true, false)] is reported with the rewrite
    [assert.true(false)]. *)
Lemma boolean_fix_offered_for_two_literals :
  reports_of reports (lint the_rule Examples.equal_true_false initial)
  = Ok [Report [0; 0; 1; 2; 0; 0] "useAssertTrueOrFalse" []
          (Some [Edit [0; 0; 1; 2; 0; 0] "assert.true(false)"]) []].
Proof. reflexivity. Qed.


End NoAssertEqualBooleanClaims.

(** ** no-negated-ok *)

Section NoNegatedOkClaims.
Import NoNegatedOk.






End NoNegatedOkClaims.

(** ** literal-compare-order *)

Section LiteralCompareOrderClaims.
Import LiteralCompareOrder.

Lemma metadata_name_not_test name m :
  utils.own utils.ASSERTION_METADATA name = Some m ->
  includes utils.SUPPORTED_TEST_IDENTIFIERS name = false.
Proof.
  intros H. destruct (includes _ name) eqn:E; [|reflexivity].
  apply includes_inv in E. unfold utils.SUPPORTED_TEST_IDENTIFIERS, In in E.
  destruct E as [<-|[<-|[<-|[]]]]; discriminate H.
Qed.

Lemma assertion_not_test callee v :
  utils.isAssertion callee v = true -> utils.isTest callee = false.
Proof.
  unfold utils.isAssertion, utils.getAssertionMetadata, utils.isTest.
  destruct callee as [i name| | |i o pr| | | | | | |]; try discriminate.
  - destruct (utils.own _ name) as [m|] eqn:E; [|discriminate].
    intros _. cbn [utils.bare_or_QUnit].
    eapply metadata_name_not_test, E.
  - destruct o as [i1 oname| | | | | | | | | |]; try discriminate.
    destruct pr as [i2 pname| | | | | | | | | |]; try discriminate.
    destruct (eq_name oname v); [|discriminate].
    destruct (utils.own _ pname) as [m|] eqn:E; [|discriminate].
    intros _. cbn [utils.bare_or_QUnit utils.ident_with].
    rewrite (metadata_name_not_test _ _ E). apply andb_false_r.
Qed.

(** Every comparative entry of the table has the actual value first. *)
Lemma comparative_is_actual_first callee v :
  utils.isComparativeAssertion callee v = Ok true ->
  utils.shouldCompareActualFirst callee v = true.
Proof.
  unfold utils.isComparativeAssertion, utils.shouldCompareActualFirst.
  destruct (utils.getAssertionMetadata callee v) as [m|] eqn:E;
    [|discriminate].
  assert (Hm : In m (map snd utils.ASSERTION_METADATA)).
  { unfold utils.getAssertionMetadata in E.
    assert (Hown : forall name, utils.own utils.ASSERTION_METADATA name
                                = Some m ->
                                In m (map snd utils.ASSERTION_METADATA)).
    { generalize utils.ASSERTION_METADATA.
      induction l as [|[k x] l IH]; simpl; [discriminate|]. intros name.
      destruct (String.eqb name k); [intros [= ->]; auto|eauto]. }
    destruct callee as [i name| | |i o pr| | | | | | |]; try discriminate E.
    - eauto.
    - destruct o; try discriminate E. destruct pr; try discriminate E.
      destruct (eq_name _ v); [eauto|discriminate E]. }
  simpl in Hm.
  repeat (destruct Hm as [<-|Hm]; [simpl; auto; discriminate|]).
  destruct Hm.
Qed.


End LiteralCompareOrderClaims.

(** ** no-assert-equal *)

Section NoAssertEqualClaims.
Import NoAssertEqual.

Lemma isAssertEqual_inv st callee :
  isAssertEqual st callee = Ok true ->
  exists i i1 i2 oname f rest,
    callee = MemberExpression i (Identifier i1 oname) (Identifier i2 "equal")
    /\ testStack st = f :: rest /\ assertVar f = Some oname.
Proof.
  unfold isAssertEqual.
  destruct callee as [| | |i o pr| | | | | | |]; try discriminate.
  destruct pr as [i2 pname| | | | | | | | | |];
    cbn [utils.ident_with]; try discriminate.
  destruct (String.eqb_spec "equal" pname) as [<-|_]; [|discriminate].
  destruct o as [i1 oname| | | | | | | | | |]; try discriminate.
  unfold getCurrentAssertContextVariable.
  destruct (testStack st) as [|f rest]; [discriminate|].
  cbn [mbind result_bind]. destruct (assertVar f) as [x|] eqn:E;
    cbn [eq_name]; [|discriminate].
  intros [= ->%eqb_true]. eauto 10.
Qed.



End NoAssertEqualClaims.

Section NoAssertEqualTheorems.
Import NoAssertEqual.



(** The rule on the two example files, each with the references that the
    tracker yields for it: the call of the declared [equal] is not
    reported, the call of the global one is. *)
Lemma no_assert_equal_examples :
  reports_of reports (lint (the_rule []) Examples.local_equal initial) = Ok []
  /\ reports_of reports
       (lint (the_rule [[0; 0; 0; 2; 0; 0]]) Examples.global_equal initial)
     = Ok [Report [0; 0; 0; 2; 0; 0] "unexpectedGlobalEqual" [] None
             [ ("switchToDeepEqual",
                 Some [Edit [0; 0; 0; 0; 2; 0; 0] "deepEqual"]);
               ("switchToPropEqual",
                 Some [Edit [0; 0; 0; 0; 2; 0; 0] "propEqual"]);
               ("switchToStrictEqual",
                 Some [Edit [0; 0; 0; 0; 2; 0; 0] "strictEqual"]) ]].
Proof. split; vm_compute; reflexivity. Qed.

(** The rule pushes a frame at the call of a test only: [assert.equal] in
    a module hook is met with an empty stack and is not reported, whatever
    the tracker yields. *)
Lemma hook_equal_not_reported globals :
  reports_of reports (lint (the_rule globals) Examples.hook_equal initial)
  = Ok [].
Proof. reflexivity. Qed.

End NoAssertEqualTheorems.

(** ** no-hooks-from-ancestor-modules *)

Section NoHooksFromAncestorModulesClaims.
Import NoHooksFromAncestorModules.

Lemma hooks_quiet_list l ps p k st :
  forallb (all_nodes (fun n => negb (is_CallExpression n))) l = true ->
  traverse_list the_rule ps p k l st = Ok st.
Proof.
  apply (traverse_list_inert the_rule
           (fun n => negb (is_CallExpression n)));
    intros [q m qs] s; cbn [v_node enter leave the_rule];
    destruct m; try discriminate; reflexivity.
Qed.

Ltac walk := repeat (rewrite (traverse_unfold the_rule); cbn).

(** C8.  Whatever call-free arguments the three hook calls are given, the
    rule makes exactly one report on the nested-module program: on the
    callee [hooks.afterEach] of the call inside the callback of module B,
    whose receiver [hooks] is not the parameter [hooks2] of that callback.
    The report bears the message "noHooksFromAncestorModules" with the
    method [afterEach] and the identifier [hooks] as its data, and neither
    fix nor suggestion; the node it is made on is the one at the path of
    that callee.  The two [beforeEach] calls, each on its own module's
    parameter, are not reported, and the walk ends with an empty module
    stack. *)
Theorem ancestor_hook_reported_once :
  forall i a1 a2 a3,
    forallb (all_nodes (fun n => negb (is_CallExpression n))) a1 = true ->
    forallb (all_nodes (fun n => negb (is_CallExpression n))) a2 = true ->
    forallb (all_nodes (fun n => negb (is_CallExpression n))) a3 = true ->
    lint the_rule (nested_modules i a1 a2 a3) initial
    = Ok (mkState []
            [Report afterEach_callee "noHooksFromAncestorModules"
               [ ("invokedMethodName", "afterEach");
                 ("usedHooksIdentifierName", "hooks") ]
               None []])
    /\ afterEach_callee = [0; 0; 1; 1; 2; 0; 1; 1; 2; 0; 0]
    /\ node_at (rev afterEach_callee) (nested_modules i a1 a2 a3)
       = Some (MemberExpression (i 52) (Identifier (i 53) "hooks")
                 (Identifier (i 54) "afterEach")).
Proof.
  intros i a1 a2 a3 H1 H2 H3. split; [|split; reflexivity].
  unfold lint, nested_modules, module_call, hook_call, initial.
  walk. rewrite hooks_quiet_list by exact H1. cbn.
  walk. rewrite hooks_quiet_list by exact H2. cbn.
  walk. rewrite hooks_quiet_list by exact H3. cbn.
  reflexivity.
Qed.
End NoHooksFromAncestorModulesClaims.

Section NoHooksExamples.
Import NoHooksFromAncestorModules.

Lemma ancestor_hook_reported_once_witness :
  lint the_rule
    (nested_modules (fun _ => Src "" 1) [Build.func [] []] [Build.func [] []]
       [Build.func [] []])
    initial
  = Ok (mkState []
          [Report [0; 0; 1; 1; 2; 0; 1; 1; 2; 0; 0]
             "noHooksFromAncestorModules"
             [ ("invokedMethodName", "afterEach");
               ("usedHooksIdentifierName", "hooks") ]
             None []])
  /\ afterEach_callee = [0; 0; 1; 1; 2; 0; 1; 1; 2; 0; 0]
  /\ node_at (rev afterEach_callee)
       (nested_modules (fun _ => Src "" 1) [Build.func [] []]
          [Build.func [] []] [Build.func [] []])
     = Some (MemberExpression (Src "" 1) (Identifier (Src "" 1) "hooks")
               (Identifier (Src "" 1) "afterEach")).
Proof.
  apply (ancestor_hook_reported_once (fun _ => Src "" 1)
           [Build.func [] []] [Build.func [] []] [Build.func [] []]);
    reflexivity.
Defined.

(** The program written out with its source text. *)
Lemma ancestor_hook_example :
  reports_of reports (lint the_rule Examples.nested_modules initial)
  = Ok [Report [0; 0; 1; 1; 2; 0; 1; 1; 2; 0; 0]
          "noHooksFromAncestorModules"
          [ ("invokedMethodName", "afterEach");
            ("usedHooksIdentifierName", "hooks") ]
          None []].
Proof. reflexivity. Qed.
End NoHooksExamples.

(** ** Stack discipline *)

Section Balanced.
Context {St K : Type} (R : rule St) (Inv : nat -> St -> Prop) (key : St -> K).

(** Handlers that pair up.  [Inv d] is what holds of the state when a node
    at depth [d] is visited.  Under it entering the node cannot throw and
    makes the state fit for the children; leaving the node in a state fit
    for the children whose stack is the one entering made cannot throw and
    gives back the stack from before.  Then the walk of any tree cannot
    throw and gives back the stack it started with. *)
Hypothesis paired : forall v s,
    Inv (length (v_path v)) s ->
    exists s1, enter R v s = Ok s1 /\ Inv (S (length (v_path v))) s1
               /\ forall s2, Inv (S (length (v_path v))) s2 ->
                             key s2 = key s1 ->
                             exists s3, leave R v s2 = Ok s3
                                        /\ Inv (length (v_path v)) s3
                                        /\ key s3 = key s.

Lemma traverse_list_balanced_aux l :
  Forall (fun c => forall ps p s, Inv (length p) s ->
            exists s', traverse R ps p c s = Ok s' /\ Inv (length p) s'
                       /\ key s' = key s) l ->
  forall ps p k s, Inv (S (length p)) s ->
    exists s', traverse_list R ps p k l s = Ok s' /\ Inv (S (length p)) s'
               /\ key s' = key s.
Proof.
  induction 1 as [|c l Hc _ IH]; intros ps p k s Hs; simpl; [eauto|].
  destruct (Hc ps (k :: p) s Hs) as (s1 & -> & Hs1 & Hk1). simpl.
  destruct (IH ps p (S k) s1 Hs1) as (s2 & -> & Hs2 & Hk2).
  exists s2. repeat split; congruence.
Qed.

Lemma traverse_balanced n :
  forall ps p s, Inv (length p) s ->
    exists s', traverse R ps p n s = Ok s' /\ Inv (length p) s'
               /\ key s' = key s.
Proof.
  assert (Hnode : forall n,
            Forall (fun c => forall ps p s, Inv (length p) s ->
                      exists s', traverse R ps p c s = Ok s'
                                 /\ Inv (length p) s' /\ key s' = key s)
              (children n) ->
            forall ps p s, Inv (length p) s ->
              exists s', traverse R ps p n s = Ok s' /\ Inv (length p) s'
                         /\ key s' = key s).
  { intros m Hc ps p s Hs. rewrite traverse_unfold.
    destruct (paired (Visit p m ps) s Hs) as (s1 & -> & Hs1 & Hleave). simpl.
    destruct (traverse_list_balanced_aux _ Hc (m :: ps) p 0 s1 Hs1)
      as (s2 & -> & Hs2 & Hk2).
    simpl. destruct (Hleave s2 Hs2 Hk2) as (s3 & -> & Hs3 & Hk3). eauto. }
  induction n using node_induction; apply Hnode; simpl;
    repeat first [ apply Forall_app_2 | apply List.Forall_cons
                 | apply List.Forall_nil | assumption ].
  - destruct e; repeat first [ apply List.Forall_cons
                             | apply List.Forall_nil | assumption ].
Qed.

Lemma traverse_list_balanced l ps p k s :
  Inv (S (length p)) s ->
  exists s', traverse_list R ps p k l s = Ok s' /\ Inv (S (length p)) s'
             /\ key s' = key s.
Proof.
  apply traverse_list_balanced_aux. apply Forall_forall. intros c _.
  apply traverse_balanced.
Qed.
End Balanced.

Section NoAsyncInLoopsClaims.
Import NoAsyncInLoops.

Lemma getLoopTypeText_loop t :
  includes LOOP_TYPES t = true -> exists text, getLoopTypeText t = Ok text.
Proof.
  intros H%includes_inv. unfold LOOP_TYPES, In in H.
  destruct H as [<-|[<-|[<-|[<-|[<-|[]]]]]]; eexists; reflexivity.
Qed.

Lemma loops_paired v s :
  loops_only s ->
  exists s1, enter the_rule v s = Ok s1 /\ loops_only s1
             /\ forall s2, loops_only s2 -> loopStack s2 = loopStack s1 ->
                           exists s3, leave the_rule v s2 = Ok s3
                                      /\ loops_only s3
                                      /\ loopStack s3 = loopStack s.
Proof.
  intros Hs. destruct v as [p n ps]. cbn [enter leave the_rule v_node v_path].
  destruct n as [| | | |i callee args| | | | | |i t cs];
    try (exists s; repeat split; [assumption|]; intros s2 H2 E; exists s2;
         repeat split; assumption).
  - (* CallExpression: the loop stack is not touched *)
    assert (He : exists s1, CallExpression_enter p (CallExpression i callee args)
                              callee args s = Ok s1
                            /\ loopStack s1 = loopStack s).
    { unfold CallExpression_enter.
      destruct (utils.isTest callee).
      { destruct (utils.getAssertContextNameForTest args) as [x|]; [|eauto].
        destruct (utils.truthy (Some x)); eauto. }
      destruct (loopStack s) as [|[q loopNode] rest] eqn:E; [eauto|].
      cbn [length Nat.ltb Nat.leb].
      destruct (_ || _); [|eauto].
      unfold reportError. rewrite E.
      unfold loops_only in Hs. rewrite E in Hs.
      apply Forall_cons_1 in Hs as [Hl _]. cbn [snd] in Hl.
      apply getLoopTypeText_loop in Hl as [text ->]. cbn. eauto. }
    destruct He as (s1 & -> & E1). exists s1.
    split; [reflexivity|]. split; [unfold loops_only; rewrite E1; exact Hs|].
    intros s2 H2 E2. eexists. split; [reflexivity|].
    unfold CallExpression_exit. destruct (utils.isTest callee);
      (split; [exact H2|cbn; congruence]).
  - (* a loop is pushed when entered and matched when left *)
    destruct (includes LOOP_TYPES t) eqn:Ht.
    + eexists. split; [reflexivity|]. split.
      { unfold loops_only. cbn. apply Forall_cons_2; [exact Ht|exact Hs]. }
      intros s2 H2 E2. unfold popAndMatch. rewrite E2. cbn.
      rewrite bool_decide_eq_true_2 by reflexivity.
      eexists. split; [reflexivity|]. split; [|reflexivity].
      unfold loops_only in *. rewrite E2 in H2. cbn in *.
      apply Forall_cons_1 in H2 as [_ H2]. exact H2.
    + exists s. repeat split; [assumption|]. intros s2 H2 E. exists s2.
      repeat split; assumption.
Qed.

(** On every file the loop stack is pushed and popped in step with the
    walk: [popAndMatch] always finds the loop it is given, nothing else
    throws, and the stack is empty again at the end. *)
Lemma loop_stack_balanced program :
  exists st, lint the_rule program initial = Ok st /\ loopStack st = [].
Proof.
  destruct (traverse_balanced the_rule (fun _ => loops_only) loopStack
              (fun v s => loops_paired v s) program [] [] initial)
    as (st & H & _ & E).
  - unfold loops_only. cbn. constructor.
  - eauto.
Qed.

(** C9.  The assertion-variable stack of the no-async-in-loops rule is not
    pushed and popped in step with the walk: a test whose callback has no
    parameter pushes nothing when it is entered, and the pop made when it is
    left takes the frame of the enclosing test.  After the inner test the
    outer test's [assert.async()] in a loop is no longer recognised, while
    the same loop without the inner test is reported. *)
Theorem assert_variable_stack_unbalanced :
  traverse the_rule [] [] inner_test (mkState [] ["assert"] [])
  = Ok (mkState [] [] [])
  /\ reports_of reports (lint the_rule Examples.nested_tests initial) = Ok []
  /\ reports_of reports (lint the_rule Examples.async_in_loop initial)
     = Ok [Report [0; 0; 1; 0; 1; 2; 0; 0] "unexpectedAsyncInLoop"
             [("call", "assert.async()"); ("loopTypeText", "while loop")]
             None []].
Proof. repeat split; reflexivity. Qed.
End NoAsyncInLoopsClaims.

Section OtherStacks.

(** The test stack of the boolean-assertion rule is balanced, and its
    guarded read of the top never throws. *)
Lemma boolean_test_stack_balanced program :
  exists st,
    lint NoAssertEqualBoolean.the_rule program NoAssertEqualBoolean.initial
    = Ok st
    /\ NoAssertEqualBoolean.testStack st = [].
Proof.
  assert (Hpaired : forall v s, True ->
    exists s1, enter NoAssertEqualBoolean.the_rule v s = Ok s1 /\ True
      /\ forall s2, True ->
            NoAssertEqualBoolean.testStack s2
            = NoAssertEqualBoolean.testStack s1 ->
            exists s3, leave NoAssertEqualBoolean.the_rule v s2 = Ok s3
                       /\ True
                       /\ NoAssertEqualBoolean.testStack s3
                          = NoAssertEqualBoolean.testStack s);
    [|destruct (traverse_balanced NoAssertEqualBoolean.the_rule
                  (fun _ _ => True) NoAssertEqualBoolean.testStack Hpaired
                  program [] [] NoAssertEqualBoolean.initial I)
        as (st & H & _ & E); eauto].
  intros [p n ps] s _.
  cbn [enter leave NoAssertEqualBoolean.the_rule v_node v_path].
  destruct n as [| | | |i callee args| | | | | |];
    try (exists s; repeat split; intros s2 _ E; exists s2; repeat split;
         assumption).
  unfold NoAssertEqualBoolean.CallExpression_enter,
    NoAssertEqualBoolean.CallExpression_exit.
  destruct (_ || _).
  - eexists. split; [reflexivity|]. split; [exact I|].
    intros s2 _ E2. eexists. split; [reflexivity|]. split; [exact I|].
    cbn. rewrite E2. reflexivity.
  - assert (He : exists s1,
      (if (0 <? length (NoAssertEqualBoolean.testStack s))%nat
       then b ← NoAssertEqualBoolean.isEqualityAssertion s callee;
            if b && defined (NoAssertEqualBoolean.getBooleanArgument args)
            then NoAssertEqualBoolean.reportError s p callee args
            else Ok s
       else Ok s) = Ok s1
      /\ NoAssertEqualBoolean.testStack s1 = NoAssertEqualBoolean.testStack s).
    { destruct (NoAssertEqualBoolean.testStack s) as [|f rest] eqn:Hst;
        [eauto|]. cbn [length Nat.ltb Nat.leb].
      assert (Hcur : NoAssertEqualBoolean.getCurrentAssertContextVariable s
                     = Ok (NoAssertEqualBoolean.assertVar f))
        by (unfold NoAssertEqualBoolean.getCurrentAssertContextVariable;
            rewrite Hst; reflexivity).
      assert (Hb : exists b,
                NoAssertEqualBoolean.isEqualityAssertion s callee = Ok b).
      { unfold NoAssertEqualBoolean.isEqualityAssertion,
          NoAssertEqualBoolean.isAssertEquality. rewrite Hcur.
        destruct (NoAssertEqualBoolean.isGlobalEqualityAssertion callee);
          [eauto|].
        destruct callee as [| | |? o pr| | | | | | |]; eauto.
        destruct (utils.ident_with _ pr); eauto. destruct o; cbn; eauto. }
      destruct Hb as [b ->]. cbn [mbind result_bind].
      destruct (b && _); [|eauto].
      unfold NoAssertEqualBoolean.reportError, NoAssertEqualBoolean.fix_of.
      rewrite Hcur.
      destruct (NoAssertEqualBoolean.getBooleanArgument args)
        as [[k [| ? v| | | | | | | | |]]|]; cbn; eauto.
      destruct callee; cbn; eauto. }
    destruct He as (s1 & -> & E1). exists s1. split; [reflexivity|].
    split; [exact I|]. intros s2 _ E2. exists s2. repeat split. congruence.
Qed.

(** The module stack of the ancestor-hook rule has the same defect as the
    assertion-variable stack above: [QUnit.module('B')], without a callback,
    pushes nothing and pops the frame of the enclosing module, after which
    reading the top of the empty stack at the next hook call throws. *)
Lemma module_stack_unbalanced :
  traverse NoHooksFromAncestorModules.the_rule [] [] module_B
    (NoHooksFromAncestorModules.mkState
       [NoHooksFromAncestorModules.mkInfo [] "A" (Some "hooks")] [])
  = Ok (NoHooksFromAncestorModules.mkState [] [])
  /\ lint NoHooksFromAncestorModules.the_rule Examples.module_without_callback
       NoHooksFromAncestorModules.initial
     = Throw "TypeError: Cannot read properties of undefined".
Proof. split; reflexivity. Qed.
End OtherStacks.

(** ** no-identical-names *)

Section NoIdenticalNamesFacts.
Import NoIdenticalNames.

Variables (N : nat) (key : option path) (L : list (path * node)).
Hypothesis Hkey : key_below N key.

Lemma key_not_deep p : N <= length p -> Some p <> key.
Proof.
  intros Hp E. unfold key_below in Hkey. rewrite <- E in Hkey. lia.
Qed.

Lemma handleModuleNames_stack p n st :
  modulesStack (handleModuleNames p n st) = modulesStack st
  \/ modulesStack (handleModuleNames p n st) = Some (p, n) :: modulesStack st.
Proof.
  unfold handleModuleNames.
  destruct n as [| | | |i callee [|[|j title| | | | | | | | |] more]| | | | | |];
    auto.
  destruct (utils.isModule callee); auto.
  destruct (modulesStack st) as [|cur rest] eqn:E; auto.
  destruct (mapModuleNodeToInfo st !! key_of cur); auto.
Qed.

Lemma handleModuleNames_keeps p n st :
  N <= length p ->
  keeps_children key L st -> keeps_children key L (handleModuleNames p n st).
Proof.
  intros Hp Hk. unfold handleModuleNames.
  destruct n as [| | | |i callee [|[|j title| | | | | | | | |] more]| | | | | |];
    auto.
  destruct (utils.isModule callee); auto.
  destruct (modulesStack st) as [|cur rest] eqn:E; auto.
  destruct (mapModuleNodeToInfo st !! key_of cur) as [cinfo|] eqn:Ec; auto.
  destruct Hk as (info & Hi & Hpre). unfold keeps_children. cbn.
  rewrite lookup_insert_ne by (apply key_not_deep, Hp).
  destruct (decide (key_of cur = key)) as [<-|Hne].
  - rewrite lookup_insert_eq. eexists. split; [reflexivity|]. cbn.
    rewrite Ec in Hi. injection Hi as ->. apply prefix_app_r, Hpre.
  - rewrite lookup_insert_ne by exact Hne. eauto.
Qed.

Lemma handleTestNames_stack p n st :
  modulesStack (handleTestNames p n st) = modulesStack st.
Proof.
  unfold handleTestNames.
  destruct n as [| | | |i callee [|[|j title| | | | | | | | |] more]| | | | | |];
    auto.
  destruct (utils.isTest callee); auto.
  destruct (getCurrentModuleNode st) as [cmn|]; auto.
  destruct (mapModuleNodeToInfo st !! key_of cmn); auto.
Qed.

Lemma handleTestNames_keeps p n st :
  keeps_children key L st -> keeps_children key L (handleTestNames p n st).
Proof.
  intros Hk. unfold handleTestNames.
  destruct n as [| | | |i callee [|[|j title| | | | | | | | |] more]| | | | | |];
    auto.
  destruct (utils.isTest callee); auto.
  destruct (getCurrentModuleNode st) as [cmn|]; auto.
  destruct (mapModuleNodeToInfo st !! key_of cmn) as [cinfo|] eqn:Ec; auto.
  destruct Hk as (info & Hi & Hpre). unfold keeps_children. cbn.
  destruct (decide (key_of cmn = key)) as [<-|Hne].
  - rewrite lookup_insert_eq. eexists. split; [reflexivity|]. cbn.
    rewrite Ec in Hi. injection Hi as ->. exact Hpre.
  - rewrite lookup_insert_ne by exact Hne. eauto.
Qed.

Lemma enter_stack p n st :
  modulesStack (CallExpression_enter p n st) = modulesStack st
  \/ modulesStack (CallExpression_enter p n st) = Some (p, n) :: modulesStack st.
Proof.
  unfold CallExpression_enter. destruct (isFirstArgLiteral n); auto.
  rewrite handleTestNames_stack. apply handleModuleNames_stack.
Qed.

Lemma enter_keeps p n st :
  N <= length p ->
  keeps_children key L st -> keeps_children key L (CallExpression_enter p n st).
Proof.
  intros Hp Hk. unfold CallExpression_enter.
  destruct (isFirstArgLiteral n); auto.
  apply handleTestNames_keeps, handleModuleNames_keeps; assumption.
Qed.

Lemma exit_keeps p st :
  keeps_children key L st -> keeps_children key L (CallExpression_exit p st).
Proof.
  intros Hk. unfold CallExpression_exit.
  destruct (modulesStack st) as [|[[q m]|] rest]; auto.
  destruct (bool_decide (q = p)); auto. cbn.
  destruct Hk as (info & Hi & Hpre).
  destruct (mapModuleNodeToInfo st !! Some p) as [minfo|] eqn:Em.
  - unfold keeps_children. cbn.
    destruct (decide (Some p = key)) as [<-|Hne].
    + rewrite lookup_insert_eq. eexists. split; [reflexivity|]. cbn.
      rewrite Em in Hi. injection Hi as ->. exact Hpre.
    + rewrite lookup_insert_ne by exact Hne. eauto.
  - exists info. auto.
Qed.

Lemma exit_pushed p n rest st :
  modulesStack st = Some (p, n) :: rest ->
  modulesStack (CallExpression_exit p st) = rest.
Proof.
  intros E. unfold CallExpression_exit. rewrite E.
  rewrite bool_decide_eq_true_2 by reflexivity. cbn.
  destruct (mapModuleNodeToInfo st !! Some p); reflexivity.
Qed.

Lemma exit_not_pushed p st :
  shallow (length p) st ->
  modulesStack (CallExpression_exit p st) = modulesStack st.
Proof.
  intros Hs. unfold CallExpression_exit, shallow in *.
  destruct st as [[|[[q m]|] rest] mp rs]; cbn in *; auto.
  apply Forall_cons_1 in Hs as [Hq _].
  rewrite bool_decide_eq_false_2; [reflexivity|]. intros ->. lia.
Qed.

Lemma shallow_mono d d' st : d <= d' -> shallow d st -> shallow d' st.
Proof.
  intros Hd H. unfold shallow in *. eapply Forall_impl; [exact H|].
  intros [[q m]|]; auto. cbn. lia.
Qed.

Lemma names_paired v s :
  names_inv N key L (length (v_path v)) s ->
  exists s1, enter the_rule v s = Ok s1
             /\ names_inv N key L (S (length (v_path v))) s1
             /\ forall s2, names_inv N key L (S (length (v_path v))) s2 ->
                           modulesStack s2 = modulesStack s1 ->
                           exists s3, leave the_rule v s2 = Ok s3
                                      /\ names_inv N key L (length (v_path v)) s3
                                      /\ modulesStack s3 = modulesStack s.
Proof.
  destruct v as [p n ps]. cbn [v_path v_node enter leave the_rule].
  intros (HN & Hsh & Hk).
  assert (Hquiet :
    exists s1, Ok s = Ok s1
               /\ names_inv N key L (S (length p)) s1
               /\ forall s2, names_inv N key L (S (length p)) s2 ->
                             modulesStack s2 = modulesStack s1 ->
                             exists s3, Ok s2 = Ok s3
                                        /\ names_inv N key L (length p) s3
                                        /\ modulesStack s3 = modulesStack s).
  { exists s. split; [reflexivity|]. split.
    - split; [lia|]. split; [|exact Hk].
      eapply shallow_mono; [|exact Hsh]. lia.
    - intros s2 (_ & _ & Hk2) E. exists s2. split; [reflexivity|].
      split; [|exact E]. split; [exact HN|]. split; [|exact Hk2].
      unfold shallow in *. rewrite E. exact Hsh. }
  destruct n as [| | | |i callee args| | | | | |]; try exact Hquiet.
  eexists. split; [reflexivity|]. split.
  - split; [lia|]. split; [|apply enter_keeps; assumption].
    unfold shallow.
    destruct (enter_stack p (CallExpression i callee args) s) as [->| ->].
    + eapply shallow_mono; [|exact Hsh]. lia.
    + apply Forall_cons_2; [lia|].
      eapply shallow_mono; [|exact Hsh]. lia.
  - intros s2 (_ & _ & Hk2) E. eexists. split; [reflexivity|].
    assert (Hst : modulesStack (CallExpression_exit p s2) = modulesStack s).
    { destruct (enter_stack p (CallExpression i callee args) s) as [E'|E'];
        rewrite E' in E.
      - rewrite exit_not_pushed; [exact E|].
        unfold shallow. rewrite E. exact Hsh.
      - eapply exit_pushed, E. }
    split; [|exact Hst]. split; [exact HN|]. split.
    + unfold shallow. rewrite Hst. exact Hsh.
    + apply exit_keeps, Hk2.
Qed.
End NoIdenticalNamesFacts.

Section NoIdenticalNamesClaims.
Import NoIdenticalNames.

Lemma find_app {A} (f : A -> bool) l1 l2 :
  find f (l1 ++ l2)
  = match find f l1 with Some x => Some x | None => find f l2 end.
Proof.
  induction l1 as [|x l1 IH]; simpl; [reflexivity|].
  destruct (f x); auto.
Qed.

Lemma isModule_not_isTest c : utils.isModule c = true -> utils.isTest c = false.
Proof.
  apply bare_or_QUnit_excl. intros name ->%eqb_true. reflexivity.
Qed.

(** Entering a module call with a literal name, below a module that is on
    the map. *)
Lemma enter_module p i callee j title more st cur rest info :
  utils.isModule callee = true ->
  modulesStack st = cur :: rest ->
  mapModuleNodeToInfo st !! key_of cur = Some info ->
  CallExpression_enter p (CallExpression i callee (Literal j title :: more)) st
  = mkState
      (Some (p, CallExpression i callee (Literal j title :: more))
         :: modulesStack st)
      (<[ Some p := mkInfo [] [] false ]>
         (<[ key_of cur :=
               mkInfo (modules info
                         ++ [(p, CallExpression i callee
                                   (Literal j title :: more))])
                 (tests info) (hasNestedTests info) ]>
            (mapModuleNodeToInfo st)))
      (reports st
         ++ match find (has_title title) (modules info) with
            | Some m => [duplicate_report (arg_path p 0) "duplicateModule" m]
            | None => []
            end
         ++ match find (has_title title) (ancestors st) with
            | Some m => [duplicate_report (arg_path p 0)
                           "duplicateModuleAncestor" m]
            | None => []
            end).
Proof.
  intros Hm Hst Hi. unfold CallExpression_enter. cbn [isFirstArgLiteral].
  unfold handleTestNames. rewrite (isModule_not_isTest _ Hm).
  unfold handleModuleNames. rewrite Hm, Hst, Hi. reflexivity.
Qed.

Lemma shallow_key_below N st cur rest :
  shallow N st -> modulesStack st = cur :: rest -> key_below N (key_of cur).
Proof.
  unfold shallow. intros H E. rewrite E in H.
  apply Forall_cons_1 in H as [H _]. destruct cur as [[q m]|]; exact H.
Qed.

(** The walk of one node, and of several one after the other, below the
    modules of the stack: the stack comes back and the children recorded
    stay. *)
Lemma walk_keeps N key L ps p n st :
  key_below N key -> N <= length p -> shallow N st ->
  keeps_children key L st ->
  exists st', traverse the_rule ps p n st = Ok st'
              /\ modulesStack st' = modulesStack st
              /\ keeps_children key L st'.
Proof.
  intros Hkey Hp Hsh Hk.
  destruct (traverse_balanced the_rule (names_inv N key L) modulesStack
              (names_paired N key L Hkey) n ps p st)
    as (st' & Ht & (_ & _ & Hk') & E).
  - split; [exact Hp|]. split; [|exact Hk].
    eapply shallow_mono; [|exact Hsh]. exact Hp.
  - eauto.
Qed.

Lemma walks_keep N key L ws :
  key_below N key ->
  Forall (fun w : list node * path * node => N <= length (snd (fst w))) ws ->
  forall st, shallow N st -> keeps_children key L st ->
    exists st', traverse_seq the_rule ws st = Ok st'
                /\ modulesStack st' = modulesStack st
                /\ keeps_children key L st'.
Proof.
  intros Hkey. induction 1 as [|[[ps p] n] ws Hp _ IH]; intros st Hsh Hk;
    cbn [traverse_seq]; [eauto|].
  destruct (walk_keeps N key L ps p n st Hkey Hp Hsh Hk)
    as (st1 & -> & E1 & Hk1). cbn [mbind result_bind].
  destruct (IH st1) as (st2 & -> & E2 & Hk2); [|exact Hk1|].
  - unfold shallow in *. rewrite E1. exact Hsh.
  - exists st2. repeat split; [congruence|exact Hk2].
Qed.

(** Two sibling module calls of one name with whole walks between them: the
    stack is back where it was when the second is entered, and the second is
    reported once, with the line of the first. *)
Lemma duplicate_sibling_module_after_walks :
  forall N st cur rest info name
         i1 callee1 j1 more1 ps1 p1 mids i2 callee2 j2 more2 p2,
    let m1 := CallExpression i1 callee1 (Literal j1 (LStr name) :: more1) in
    let m2 := CallExpression i2 callee2 (Literal j2 (LStr name) :: more2) in
    modulesStack st = cur :: rest ->
    mapModuleNodeToInfo st !! key_of cur = Some info ->
    shallow N st ->
    find (has_title (LStr name)) (modules info) = None ->
    find (has_title (LStr name)) (ancestors st) = None ->
    utils.isModule callee1 = true ->
    utils.isModule callee2 = true ->
    N <= length p1 ->
    N <= length p2 ->
    Forall (fun w : list node * path * node => N <= length (snd (fst w)))
      mids ->
    reports (CallExpression_enter p1 m1 st) = reports st
    /\ exists st1 st2,
         traverse the_rule ps1 p1 m1 st = Ok st1
         /\ traverse_seq the_rule mids st1 = Ok st2
         /\ reports (CallExpression_enter p2 m2 st2)
            = (reports st2
                 ++ [Report (arg_path p2 0) "duplicateModule"
                       [("line", pretty (line j1))] None []])%list.
Proof.
  intros N st cur rest info name i1 callee1 j1 more1 ps1 p1 mids
    i2 callee2 j2 more2 p2 m1 m2 Hst Hi Hsh Hsib Hanc Hm1 Hm2 Hp1 Hp2 Hmids.
  pose proof (shallow_key_below _ _ _ _ Hsh Hst) as Hkey.
  pose proof (enter_module p1 i1 callee1 j1 (LStr name) more1 st cur rest info
                Hm1 Hst Hi) as Henter.
  fold m1 in Henter. rewrite Hsib, Hanc in Henter. cbn [app] in Henter.
  rewrite app_nil_r in Henter.
  split; [rewrite Henter; reflexivity|].
  set (L := (modules info ++ [(p1, m1)])%list).
  (* the state in which the children of [m1] are walked *)
  assert (Hk0 : keeps_children (key_of cur) L (CallExpression_enter p1 m1 st)).
  { rewrite Henter. unfold keeps_children. cbn.
    rewrite lookup_insert_ne by (apply (key_not_deep N); assumption).
    rewrite lookup_insert_eq. eexists. split; [reflexivity|]. reflexivity. }
  assert (Hinv0 : names_inv N (key_of cur) L (S (length p1))
                    (CallExpression_enter p1 m1 st)).
  { split; [lia|]. split; [|exact Hk0].
    unfold shallow. rewrite Henter. cbn. rewrite Hst.
    apply Forall_cons_2; [lia|].
    unfold shallow in Hsh. rewrite Hst in Hsh.
    eapply Forall_impl; [exact Hsh|]. intros [[q m]|]; auto. cbn. lia. }
  destruct (traverse_list_balanced the_rule (names_inv N (key_of cur) L)
              modulesStack (names_paired N (key_of cur) L Hkey)
              (children m1) (m1 :: ps1) p1 0 _ Hinv0)
    as (sc & Hc & (_ & _ & Hkc) & Ec).
  (* leaving [m1] *)
  assert (Hs1 : modulesStack (CallExpression_exit p1 sc) = cur :: rest).
  { rewrite (exit_pushed p1 m1 (cur :: rest)); [reflexivity|].
    rewrite Ec, Henter. cbn. rewrite Hst. reflexivity. }
  pose proof (exit_keeps N _ _ Hkey p1 sc Hkc) as Hk1.
  assert (Hsh1 : shallow N (CallExpression_exit p1 sc)).
  { unfold shallow in *. rewrite Hs1, <- Hst. exact Hsh. }
  destruct (walks_keep N (key_of cur) L mids Hkey Hmids _ Hsh1 Hk1)
    as (st2 & Hw & E2 & (info2 & Hi2 & [k Hpre])).
  exists (CallExpression_exit p1 sc), st2. split; [|split; [exact Hw|]].
  - rewrite traverse_unfold.
    change (enter the_rule (Visit p1 m1 ps1) st)
      with (Ok (CallExpression_enter p1 m1 st)).
    cbn [mbind result_bind]. rewrite Hc. reflexivity.
  - assert (Hs2 : modulesStack st2 = cur :: rest) by congruence.
    unfold m2.
    rewrite (enter_module p2 i2 callee2 j2 (LStr name) more2 st2 cur rest
               info2 Hm2 Hs2 Hi2).
    cbn [reports]. rewrite Hpre. unfold L.
    rewrite !find_app, Hsib. cbn [find has_title snd m1 strict_eq].
    rewrite String.eqb_refl.
    replace (ancestors st2) with (ancestors st)
      by (unfold ancestors; rewrite Hs2, Hst; reflexivity).
    rewrite Hanc, app_nil_r. reflexivity.
Qed.
End NoIdenticalNamesClaims.

Section NoIdenticalNamesExamples.
Import NoIdenticalNames.

Lemma run_keeps N key L es :
  key_below N key ->
  Forall (fun e => N <= length (v_path (event_visit e))) es ->
  forall s s', keeps_children key L s -> run the_rule es s = Ok s' ->
               keeps_children key L s'.
Proof.
  intros Hkey. induction 1 as [|e es He _ IH]; intros s s' Hk; cbn [run].
  - intros [= <-]. exact Hk.
  - intros (s1 & H1 & H2)%bind_Ok. apply (IH s1); [|exact H2].
    destruct e as [[p n ps]|[p n ps]];
      cbn [handle enter leave the_rule v_node v_path event_visit] in *;
      destruct n; try (injection H1 as <-; exact Hk);
      injection H1 as <-.
    + apply (enter_keeps N); assumption.
    + apply (exit_keeps N); assumption.
Qed.

(** C7, as amended.  Take a state of the rule whose module stack has [cur]
    on top, and a name that no child recorded for [cur] and no module on the
    stack bears.  A module call [m1] with that string literal as its name is
    then entered without a report.  After any handler calls that follow,
    all deeper in the tree than the modules of the stack, if the stack is
    again what it was when [m1] was entered (the rule is at the nesting level
    of [m1]), entering a module call [m2] with the same name makes exactly
    one report: "duplicateModule", on the name argument of [m2], with the
    line of the name argument of [m1] as its data. *)
Theorem duplicate_sibling_module_reported_once :
  forall N st cur rest info name
         i1 callee1 j1 more1 p1 es i2 callee2 j2 more2 p2 st2,
    let m1 := CallExpression i1 callee1 (Literal j1 (LStr name) :: more1) in
    let m2 := CallExpression i2 callee2 (Literal j2 (LStr name) :: more2) in
    modulesStack st = cur :: rest ->
    mapModuleNodeToInfo st !! key_of cur = Some info ->
    shallow N st ->
    find (has_title (LStr name)) (modules info) = None ->
    find (has_title (LStr name)) (ancestors st) = None ->
    utils.isModule callee1 = true ->
    utils.isModule callee2 = true ->
    N <= length p1 ->
    Forall (fun e => N <= length (v_path (event_visit e))) es ->
    run the_rule es (CallExpression_enter p1 m1 st) = Ok st2 ->
    modulesStack st2 = modulesStack st ->
    reports (CallExpression_enter p1 m1 st) = reports st
    /\ reports (CallExpression_enter p2 m2 st2)
       = (reports st2
            ++ [Report (arg_path p2 0) "duplicateModule"
                  [("line", pretty (line j1))] None []])%list.
Proof.
  intros N st cur rest info name i1 callee1 j1 more1 p1 es
    i2 callee2 j2 more2 p2 st2 m1 m2 Hst Hi Hsh Hsib Hanc Hm1 Hm2 Hp1
    Hes Hrun Hst2.
  pose proof (shallow_key_below _ _ _ _ Hsh Hst) as Hkey.
  pose proof (enter_module p1 i1 callee1 j1 (LStr name) more1 st cur rest info
                Hm1 Hst Hi) as Henter.
  fold m1 in Henter. rewrite Hsib, Hanc in Henter. cbn [app] in Henter.
  rewrite app_nil_r in Henter.
  split; [rewrite Henter; reflexivity|].
  assert (Hk0 : keeps_children (key_of cur) (modules info ++ [(p1, m1)])
                  (CallExpression_enter p1 m1 st)).
  { rewrite Henter. unfold keeps_children. cbn.
    rewrite lookup_insert_ne by (apply (key_not_deep N); assumption).
    rewrite lookup_insert_eq. eexists. split; reflexivity. }
  destruct (run_keeps N _ _ es Hkey Hes _ _ Hk0 Hrun)
    as (info2 & Hi2 & [k Hpre]).
  rewrite Hst in Hst2. unfold m2.
  rewrite (enter_module p2 i2 callee2 j2 (LStr name) more2 st2 cur rest
             info2 Hm2 Hst2 Hi2).
  cbn [reports]. rewrite Hpre.
  rewrite !find_app, Hsib. cbn [find has_title snd m1 strict_eq].
  rewrite String.eqb_refl.
  replace (ancestors st2) with (ancestors st)
    by (unfold ancestors; rewrite Hst2, Hst; reflexivity).
  rewrite Hanc, app_nil_r. reflexivity.
Qed.

(** The handler calls of [Examples.two_siblings] from the entry of the first
    module call (the third call of the walk) to the entry of the second
    (the fifteenth). *)
Lemma two_siblings_events :
  exists before after_,
    events [] [] Examples.two_siblings
    = (before
         ++ Enter (Visit [0; 0]
                     (Build.call (Build.QUnit_ "module")
                        [Build.at_line 1 (Build.str "Same")])
                     [Build.stmt (Build.call (Build.QUnit_ "module")
                                    [Build.at_line 1 (Build.str "Same")]);
                      Examples.two_siblings])
         :: take 11 (drop 3 (events [] [] Examples.two_siblings))
         ++ Enter (Visit [0; 1]
                     (Build.call (Build.QUnit_ "module")
                        [Build.at_line 2 (Build.str "Same")])
                     [Build.stmt (Build.call (Build.QUnit_ "module")
                                    [Build.at_line 2 (Build.str "Same")]);
                      Examples.two_siblings])
         :: after_)%list
    /\ length before = 2.
Proof.
  exists (take 2 (events [] [] Examples.two_siblings)),
    (drop 15 (events [] [] Examples.two_siblings)).
  split; reflexivity.
Qed.

Lemma duplicate_sibling_module_reported_once_witness :
  reports
    (CallExpression_enter [0; 0]
       (Build.call (Build.QUnit_ "module")
          [Build.at_line 1 (Build.str "Same")])
       initial)
  = reports initial
  /\ reports
       (CallExpression_enter [0; 1]
          (Build.call (Build.QUnit_ "module")
             [Build.at_line 2 (Build.str "Same")])
          (mkState [None]
             (<[ Some [0; 0] := mkInfo [] [] false ]>
                (<[ None :=
                      mkInfo
                        [([0; 0],
                          Build.call (Build.QUnit_ "module")
                            [Build.at_line 1 (Build.str "Same")])]
                        [] false ]>
                   (mapModuleNodeToInfo initial)))
             []))
     = [Report [1; 0; 1] "duplicateModule" [("line", "1")] None []].
Proof.
  apply (duplicate_sibling_module_reported_once 0 initial None []
           (mkInfo [] [] false) "Same"
           (Src "QUnit.module('Same')" 1) (Build.QUnit_ "module")
           (Src "'Same'" 1) [] [0; 0]
           (take 11 (drop 3 (events [] [] Examples.two_siblings)))
           (Src "QUnit.module('Same')" 1) (Build.QUnit_ "module")
           (Src "'Same'" 2) [] [0; 1]);
    try reflexivity; try (simpl; lia).
  - repeat constructor.
  - apply Forall_forall. intros. lia.
Defined.

(** C7 as stated fails for the second and third of three sibling modules
    of one name: the second is itself reported, and the report on the name
    argument of the third (line 3) gives line 1, the line of the first
    sibling, not line 2. *)
Lemma duplicate_module_third_sibling_cites_first :
  reports_of reports (lint the_rule Examples.three_siblings initial)
  = Ok [ Report [1; 0; 1] "duplicateModule" [("line", "1")] None [];
         Report [1; 0; 2] "duplicateModule" [("line", "1")] None [] ]
  /\ node_at [1; 0; 1] Examples.three_siblings
     = Some (Build.at_line 2 (Build.str "Same"))
  /\ node_at [2; 0; 1] Examples.three_siblings
     = Some (Build.at_line 3 (Build.str "Same")).
Proof. repeat split; reflexivity. Qed.
End NoIdenticalNamesExamples.

(** ** The walk as a sequence of events *)

Section Events.
Context {St : Type} (R : rule St).

Lemma run_app es1 es2 s :
  run R (es1 ++ es2) s = (s' ← run R es1 s; run R es2 s').
Proof.
  revert s. induction es1 as [|e es1 IH]; intros s; simpl; [reflexivity|].
  destruct (handle R e s); simpl; auto.
Qed.

Lemma events_unfold ps p n :
  events ps p n
  = (Enter (Visit p n ps) :: events_list (n :: ps) p 0 (children n)
       ++ [Leave (Visit p n ps)])%list.
Proof.
  assert (Hgo : forall l k,
    (fix go (k : nat) (l : list node) {struct l} : list event :=
       match l with
       | [] => []
       | c :: l' => (events (n :: ps) (k :: p) c ++ go (S k) l')%list
       end) k l = events_list (n :: ps) p k l).
  { induction l as [|c l IH]; intros k; simpl; [reflexivity|].
    rewrite IH. reflexivity. }
  assert (Happ : forall l1 l2 k,
    events_list (n :: ps) p k (l1 ++ l2)
    = (events_list (n :: ps) p k l1
         ++ events_list (n :: ps) p (k + length l1) l2)%list).
  { induction l1 as [|c l1 IH]; intros l2 k; simpl.
    - rewrite Nat.add_0_r. reflexivity.
    - rewrite IH, <- app_assoc.
      replace (S k + length l1) with (k + S (length l1)) by lia.
      reflexivity. }
  destruct n as [| | | | | | | | | ? ? [e|] |]; simpl;
    rewrite ?Hgo, ?Happ; simpl; rewrite ?app_nil_r; reflexivity.
Qed.

(** The walk makes exactly the handler calls of [events], in that order. *)
Lemma traverse_run n :
  forall ps p s, traverse R ps p n s = run R (events ps p n) s.
Proof.
  assert (Hlist : forall l,
            Forall (fun c => forall ps p s,
                      traverse R ps p c s = run R (events ps p c) s) l ->
            forall ps p k s,
              traverse_list R ps p k l s = run R (events_list ps p k l) s).
  { induction 1 as [|c l Hc _ IH]; intros ps p k s; simpl; [reflexivity|].
    rewrite run_app, Hc. destruct (run R _ s); simpl; auto. }
  assert (Hnode : forall n,
            Forall (fun c => forall ps p s,
                      traverse R ps p c s = run R (events ps p c) s)
              (children n) ->
            forall ps p s, traverse R ps p n s = run R (events ps p n) s).
  { intros m Hc ps p s. rewrite traverse_unfold, events_unfold.
    cbn [run handle]. destruct (enter R _ s) as [s1|]; simpl; [|reflexivity].
    rewrite run_app, (Hlist _ Hc).
    destruct (run R _ s1); simpl; [|reflexivity].
    destruct (leave R _ _); reflexivity. }
  induction n using node_induction; apply Hnode; simpl;
    repeat first [ apply Forall_app_2 | apply List.Forall_cons
                 | apply List.Forall_nil | assumption ].
  - destruct e; repeat first [ apply List.Forall_cons
                             | apply List.Forall_nil | assumption ].
Qed.
End Events.

Section BalancedIn.
Context {St K : Type} (R : rule St) (P : node -> bool)
  (Inv : list node -> St -> Prop) (key : St -> K).

Hypothesis paired : forall v s,
    P (v_node v) = true -> Inv (v_parents v) s ->
    exists s1, enter R v s = Ok s1 /\ Inv (v_node v :: v_parents v) s1
               /\ forall s2, Inv (v_node v :: v_parents v) s2 ->
                             key s2 = key s1 ->
                             exists s3, leave R v s2 = Ok s3
                                        /\ Inv (v_parents v) s3
                                        /\ key s3 = key s.

Lemma traverse_list_balanced_in_aux l :
  Forall (fun c => forall ps p s, all_nodes P c = true -> Inv ps s ->
            exists s', traverse R ps p c s = Ok s' /\ Inv ps s'
                       /\ key s' = key s) l ->
  forall ps p k s, forallb (all_nodes P) l = true -> Inv ps s ->
    exists s', traverse_list R ps p k l s = Ok s' /\ Inv ps s'
               /\ key s' = key s.
Proof.
  induction 1 as [|c l Hc _ IH]; intros ps p k s Hl Hs; simpl; [eauto|].
  simpl in Hl. apply andb_true_iff in Hl as [H1 H2].
  destruct (Hc ps (k :: p) s H1 Hs) as (s1 & -> & Hs1 & Hk1). simpl.
  destruct (IH ps p (S k) s1 H2 Hs1) as (s2 & -> & Hs2 & Hk2).
  exists s2. repeat split; congruence.
Qed.

Lemma traverse_balanced_in n :
  forall ps p s, all_nodes P n = true -> Inv ps s ->
    exists s', traverse R ps p n s = Ok s' /\ Inv ps s' /\ key s' = key s.
Proof.
  assert (Hnode : forall n,
            Forall (fun c => forall ps p s, all_nodes P c = true -> Inv ps s ->
                      exists s', traverse R ps p c s = Ok s'
                                 /\ Inv ps s' /\ key s' = key s)
              (children n) ->
            forall ps p s, all_nodes P n = true -> Inv ps s ->
              exists s', traverse R ps p n s = Ok s' /\ Inv ps s'
                         /\ key s' = key s).
  { intros m Hc ps p s Hm Hs. rewrite all_nodes_children in Hm.
    apply andb_true_iff in Hm as [Hm Hcs]. rewrite traverse_unfold.
    destruct (paired (Visit p m ps) s Hm Hs) as (s1 & -> & Hs1 & Hleave).
    simpl.
    destruct (traverse_list_balanced_in_aux _ Hc (m :: ps) p 0 s1 Hcs Hs1)
      as (s2 & -> & Hs2 & Hk2).
    simpl. destruct (Hleave s2 Hs2 Hk2) as (s3 & -> & Hs3 & Hk3). eauto. }
  induction n using node_induction; apply Hnode; simpl;
    repeat first [ apply Forall_app_2 | apply List.Forall_cons
                 | apply List.Forall_nil | assumption ].
  - destruct e; repeat first [ apply List.Forall_cons
                             | apply List.Forall_nil | assumption ].
Qed.
End BalancedIn.

Lemma all_nodes_true n : all_nodes (fun _ => true) n = true.
Proof.
  assert (Hl : forall l, Forall (fun c => all_nodes (fun _ => true) c = true) l ->
                         forallb (all_nodes (fun _ => true)) l = true).
  { induction 1 as [|c l Hc _ IH]; simpl; [reflexivity|]. rewrite Hc, IH.
    reflexivity. }
  induction n using node_induction; simpl;
    rewrite ?IHn, ?IHn1, ?IHn2, ?Hl by assumption; try reflexivity.
  match goal with |- context [match ?e with _ => _ end] => destruct e end;
    auto.
Qed.

(** ** resolve-async: the frame stack *)

Section ResolveAsyncFrames.
Import ResolveAsync.

Lemma frame_shape_on_top f st :
  (forall a, assertContextVar (f a) = assertContextVar a) ->
  frame_shape (on_top f st) = frame_shape st.
Proof.
  intros Hf. unfold frame_shape, on_top.
  destruct st as [[|a rest] rs]; cbn; [reflexivity|]. rewrite Hf. reflexivity.
Qed.

Lemma frame_shape_push a st s2 p :
  frame_shape s2 = frame_shape (push a st) ->
  frame_shape (pop_and_verify p s2) = frame_shape st.
Proof.
  unfold frame_shape, push, pop_and_verify.
  destruct s2 as [[|a2 rest2] rs2]; cbn; [discriminate|].
  intros [= _ -> _]. reflexivity.
Qed.

Lemma frame_shape_paired v st s2 :
  frame_shape s2 = frame_shape (on_enter v st) ->
  frame_shape (on_exit v s2) = frame_shape st.
Proof.
  destruct v as [p n ps]. unfold on_enter, on_exit. cbn [v_node v_path].
  destruct n as [| | | |i callee args| | |i key value|i lhs rhs|i x init|];
    auto.
  - unfold CallExpression_enter, CallExpression_exit.
    destruct (utils.isTest callee); [apply frame_shape_push|].
    intros ->. destruct (utils.truthy _).
    { destruct (getAsyncCallbackVarOrNull st callee); [|reflexivity].
      apply frame_shape_on_top. reflexivity. }
    destruct (utils.isStop callee); [apply frame_shape_on_top; reflexivity|].
    destruct (utils.isStart callee); [apply frame_shape_on_top; reflexivity|].
    reflexivity.
  - unfold Property_enter, Property_exit.
    destruct (_ && _); [apply frame_shape_push|auto].
  - intros ->. unfold AssignmentExpression_enter.
    destruct (isAsyncCallExpression st rhs); [|reflexivity].
    destruct lhs; cbn; try reflexivity.
    apply frame_shape_on_top. reflexivity.
  - intros ->. unfold VariableDeclarator_enter.
    destruct init as [e|]; [|reflexivity].
    destruct (isAsyncCallExpression st e); [|reflexivity].
    destruct x; cbn; try reflexivity.
    apply frame_shape_on_top. reflexivity.
Qed.

(** X1.  The frame stack of the resolve-async rule is pushed and popped in
    step with the walk.  The walk of any subtree, from any state, ends
    without an exception and leaves the stack with the depth it had, the
    same frames below the top and the same assert variable in the top
    frame: only the counter and the callback table of the top frame can
    have changed. *)
Theorem resolve_async_frames_balanced n ps p st :
  exists st',
    traverse the_rule ps p n st = Ok st'
    /\ length (asyncStateStack st') = length (asyncStateStack st)
    /\ tail (asyncStateStack st') = tail (asyncStateStack st)
    /\ assertContextVar <$> head (asyncStateStack st')
       = assertContextVar <$> head (asyncStateStack st).
Proof.
  destruct (traverse_balanced the_rule (fun _ _ => True) frame_shape) with
    (n := n) (ps := ps) (p := p) (s := st) as (st' & H & _ & E).
  - intros v s _. exists (on_enter v s). split; [reflexivity|].
    split; [exact I|]. intros s2 _ E2. exists (on_exit v s2).
    split; [reflexivity|]. split; [exact I|].
    apply frame_shape_paired. exact E2.
  - exact I.
  - exists st'. split; [exact H|]. unfold frame_shape in E.
    injection E as E1 E2 E3. auto.
Qed.

(** X2.  Outside a test and a module hook the rule does nothing: the walk
    of a subtree that holds no call of a test and no property named like a
    module hook, started with an empty stack, returns the state it started
    from, whatever calls of [stop], [start] or [assert.async] it meets. *)
Theorem resolve_async_silent_outside_frames n ps p st :
  all_nodes opens_no_frame n = true ->
  asyncStateStack st = [] ->
  traverse the_rule ps p n st = Ok st.
Proof.
  intros Hn Hst.
  destruct (traverse_balanced_in the_rule opens_no_frame
              (fun _ s => asyncStateStack s = []) (fun s => s)) with
    (n := n) (ps := ps) (p := p) (s := st) as (st' & H & _ & E);
    [|assumption|assumption|congruence].
  intros [q m qs] s Hm Hs. cbn [v_node v_parents] in *.
  assert (He : on_enter (Visit q m qs) s = s).
  { unfold on_enter. cbn [v_node]. destruct s as [stack rs]. cbn in Hs.
    subst stack.
    destruct m as [| | | |i callee args| | |i key value|i lhs rhs|i x init|];
      try reflexivity; cbn in Hm.
    - unfold CallExpression_enter.
      destruct (utils.isTest callee); [discriminate|]. cbn.
      destruct (utils.isStop callee); [reflexivity|].
      destruct (utils.isStart callee); reflexivity.
    - unfold Property_enter.
      destruct (utils.isModuleHookPropertyKey key); [discriminate|].
      reflexivity.
    - destruct init; reflexivity. }
  assert (Hx : forall s2, on_exit (Visit q m qs) s2 = s2).
  { intros s2. unfold on_exit. cbn [v_node].
    destruct m as [| | | |i callee args| | |i key value|i lhs rhs|i x init|];
      try reflexivity; cbn in Hm.
    - unfold CallExpression_exit.
      destruct (utils.isTest callee); [discriminate|reflexivity].
    - unfold Property_exit.
      destruct (utils.isModuleHookPropertyKey key); [discriminate|].
      reflexivity. }
  exists s. split; [cbn; rewrite He; reflexivity|]. split; [exact Hs|].
  intros s2 H2 E2. exists s2. split; [cbn; rewrite Hx; reflexivity|].
  split; [exact H2|]. congruence.
Qed.
Lemma resolve_async_silent_outside_frames_witness :
  traverse the_rule [] []
    (Build.program
       [ Build.stmt (Build.call (Build.QUnit_ "stop") []);
         Build.stmt
           (AssignmentExpression (Src "=" 1) (Build.ident "done")
              (Build.call
                 (Build.member (Build.ident "assert") (Build.ident "async"))
                 [])) ])
    initial
  = Ok initial.
Proof.
  apply resolve_async_silent_outside_frames; reflexivity.
Defined.
End ResolveAsyncFrames.

Section ResolveAsyncHooks.
Import ResolveAsync.

Ltac step :=
  cbn [children traverse_list enter leave the_rule on_enter on_exit v_node
         v_path v_parents mbind result_bind].

Lemma module_call_enter callee args st :
  utils.isModule callee = true ->
  getAsyncCallbackVarOrNull st callee = None ->
  CallExpression_enter callee args st = st.
Proof.
  intros Hm Hcb. unfold CallExpression_enter.
  rewrite (isModule_not_isTest _ Hm), Hcb. cbn.
  assert (Hs : utils.isStop callee = false).
  { revert Hm. apply bare_or_QUnit_excl. intros name ->%eqb_true.
    reflexivity. }
  assert (Ht : utils.isStart callee = false).
  { revert Hm. apply bare_or_QUnit_excl. intros name ->%eqb_true.
    reflexivity. }
  rewrite Hs, Ht. reflexivity.
Qed.

(** X3.  A module hook is a frame of its own, which starts at 0.  For a
    hook given as a property of the options of a module call, whose body is
    a list of argument-less [stop] and [start] calls, the report is made on
    the property, exactly when the stops outnumber the starts, with the
    difference as the number of [start()] calls that are missing. *)
Theorem resolve_async_hook_semaphore i moduleCallee name hook params calls
  ps p st :
  utils.isModule moduleCallee = true ->
  includes utils.ALL_MODULE_HOOK_IDENTIFIERS hook = true ->
  forallb is_Identifier params = true ->
  forallb well_marked calls = true ->
  getAsyncCallbackVarOrNull st moduleCallee = None ->
  traverse the_rule ps p
    (async_calls_hook i moduleCallee name hook params calls) st
  = Ok (mkState (asyncStateStack st)
          (reports st ++
             if (0 <? balance calls)%Z
             then [needMoreStartCalls (0 :: 2 :: p) (JS.Num (balance calls))]
             else [])).
Proof.
  intros Hmod Hhook Hparams Hcalls Hcb. unfold async_calls_hook.
  rewrite traverse_unfold. step.
  rewrite module_call_enter by assumption.
  rewrite (resolve_async_quiet moduleCallee)
    by (eapply callee_quiet; eassumption).
  step. rewrite (resolve_async_quiet (Literal _ _)) by reflexivity. step.
  rewrite (traverse_unfold _ _ _ (Other _ _ _)). step.
  rewrite (traverse_unfold _ _ _ (Property _ _ _)). step.
  unfold Property_enter at 1, Property_exit at 1.
  replace (utils.isModuleHookPropertyKey (Identifier (i 6) hook)
           && utils.isInModule _) with true.
  2:{ unfold utils.isModuleHookPropertyKey, utils.isInModule,
        utils.ident_with. cbn [v_parents]. rewrite Hhook, Hmod.
      reflexivity. }
  rewrite (resolve_async_quiet (Identifier _ _)) by reflexivity. step.
  rewrite (traverse_unfold _ _ _ (FunctionExpression _ _ _)). step.
  rewrite traverse_list_app.
  rewrite resolve_async_quiet_list
    by (apply identifiers_quiet; [reflexivity|assumption]).
  cbn [mbind result_bind traverse_list].
  rewrite (traverse_unfold _ _ _ (Other _ _ _)).
  cbn [children enter leave the_rule on_enter on_exit v_node v_path mbind
         result_bind].
  unfold push. rewrite async_calls_walk by assumption.
  cbn [mbind result_bind].
  unfold CallExpression_exit. rewrite (isModule_not_isTest _ Hmod).
  unfold pop_and_verify, verifyAsyncState.
  cbn [asyncStateStack reports stopSemaphoreCount asyncCallbackVars JS.gt0
         List.filter map Z.add].
  rewrite app_nil_r. destruct st; reflexivity.
Qed.
Lemma resolve_async_hook_semaphore_witness :
  traverse the_rule [] []
    (async_calls_hook (fun _ => Src "" 1) (Build.QUnit_ "module") "m" "setup"
       [] [(true, Build.ident "stop")])
    initial
  = Ok (mkState [] [needMoreStartCalls [0; 2] (JS.Num 1)]).
Proof.
  apply (resolve_async_hook_semaphore (fun _ => Src "" 1)
           (Build.QUnit_ "module") "m" "setup" []
           [(true, Build.ident "stop")] [] [] initial);
    reflexivity.
Defined.
End ResolveAsyncHooks.
Section ResolveAsyncCallbacks.
Import ResolveAsync.

Ltac step :=
  cbn [children traverse_list enter leave the_rule on_enter on_exit v_node
         v_path v_parents mbind result_bind].


Lemma truthy_Some s : s <> "" -> utils.truthy (Some s) = true.
Proof.
  intros H. cbn. destruct (String.eqb_spec s ""); [contradiction|reflexivity].
Qed.





End ResolveAsyncCallbacks.

Section ResolveAsyncCounts.
Import ResolveAsync.

Ltac step :=
  cbn [children traverse_list enter leave the_rule on_enter on_exit v_node
         v_path v_parents mbind result_bind].

Lemma counted_calls_walk i calls : forall ps p k count v rest rs,
  forallb well_marked_call calls = true ->
  traverse_list the_rule ps p k
    (map (fun c : bool * node * list node =>
            Other (i 4) "ExpressionStatement"
              [CallExpression (i 5) (snd (fst c)) (snd c)])
       calls)
    (mkState (mkAsyncState count [] v :: rest) rs)
  = Ok (mkState (mkAsyncState (tally calls count) [] v :: rest) rs).
Proof.
  induction calls as [|[[b c] args] calls IH]; intros ps p k count v rest rs;
    cbn [map traverse_list forallb tally fold_left fst snd].
  - reflexivity.
  - intros [[Hc Hargs]%andb_true_iff Hcs]%andb_true_iff.
    cbn [fst snd] in Hc, Hargs.
    rewrite (traverse_unfold _ _ _ (Other _ _ _)). step.
    rewrite (traverse_unfold _ _ _ (CallExpression _ _ _)). step.
    assert (Htest : utils.isTest c = false)
      by (destruct b; [apply isStop_not_isTest|apply isStart_not_isTest];
          exact Hc).
    assert (Hcb : getAsyncCallbackVarOrNull
                    (mkState (mkAsyncState count [] v :: rest) rs) c = None).
    { destruct b;
        (eapply fresh_frame_no_callback; [eassumption| |];
         intros ? ->%eqb_true; reflexivity). }
    assert (Hq : all_nodes no_async_handler c = true)
      by (destruct b; eapply callee_quiet; eassumption).
    unfold CallExpression_enter, CallExpression_exit.
    rewrite Htest, Hcb. cbn [utils.truthy].
    rewrite (resolve_async_quiet c) by exact Hq. cbn [mbind result_bind].
    rewrite resolve_async_quiet_list by exact Hargs.
    cbn [mbind result_bind].
    destruct b.
    + rewrite Hc. unfold incrementSemaphoreCount, on_top.
      cbn [asyncStateStack reports stopSemaphoreCount asyncCallbackVars
             assertContextVar].
      rewrite IH by assumption. reflexivity.
    + rewrite (isStart_not_isStop _ Hc), Hc.
      unfold incrementSemaphoreCount, on_top.
      cbn [asyncStateStack reports stopSemaphoreCount asyncCallbackVars
             assertContextVar].
      rewrite IH by assumption. reflexivity.
Qed.

Lemma tally_NaN calls : tally calls JS.NaN = JS.NaN.
Proof. induction calls as [|c calls IH]; [reflexivity|exact IH]. Qed.

Lemma tally_argument calls count :
  existsb has_argument calls = true -> tally calls count = JS.NaN.
Proof.
  revert count. induction calls as [|[[b c] args] calls IH]; intros count;
    cbn [existsb]; [discriminate|].
  intros [H|H]%orb_true_iff.
  - destruct args as [|a args]; [discriminate|].
    change (tally ((b, c, a :: args) :: calls) count)
      with (tally calls
              (JS.add count (if b then JS.NaN else JS.neg JS.NaN))).
    replace (JS.add count (if b then JS.NaN else JS.neg JS.NaN))
      with JS.NaN by (destruct b, count; reflexivity).
    apply tally_NaN.
  - apply IH. exact H.
Qed.

(** X5.  A [stop] or [start] call that is given an argument turns the
    counter of its frame into [NaN]: the unary plus is applied to the
    argument node, not to its value.  The counter then stays [NaN], and
    when the test ends nothing is reported for it, whatever other [stop]
    and [start] calls the body holds and whether or not the test is an
    [asyncTest]. *)
Theorem resolve_async_counted_call_silences i testCallee name params calls
  ps p st :
  utils.isTest testCallee = true ->
  forallb is_Identifier params = true ->
  forallb well_marked_call calls = true ->
  existsb has_argument calls = true ->
  traverse the_rule ps p
    (counted_calls_test i testCallee name params calls) st
  = Ok st.
Proof.
  intros Htest Hparams Hcalls Harg. unfold counted_calls_test.
  rewrite traverse_unfold. step.
  unfold CallExpression_enter at 1. rewrite Htest.
  rewrite (resolve_async_quiet testCallee)
    by (eapply callee_quiet; eassumption).
  step. rewrite (resolve_async_quiet (Literal _ _)) by reflexivity. step.
  rewrite (traverse_unfold _ _ _ (FunctionExpression _ _ _)). step.
  rewrite traverse_list_app.
  rewrite resolve_async_quiet_list
    by (apply identifiers_quiet; [reflexivity|assumption]).
  cbn [mbind result_bind traverse_list].
  rewrite (traverse_unfold _ _ _ (Other _ _ _)).
  cbn [children enter leave the_rule on_enter on_exit v_node v_path mbind
         result_bind].
  unfold push. rewrite counted_calls_walk by assumption.
  cbn [mbind result_bind]. rewrite tally_argument by exact Harg.
  unfold CallExpression_exit. rewrite Htest.
  unfold pop_and_verify, verifyAsyncState.
  cbn [asyncStateStack reports stopSemaphoreCount asyncCallbackVars JS.gt0
         List.filter map].
  rewrite app_nil_r. destruct st; reflexivity.
Qed.

Lemma resolve_async_counted_call_silences_witness :
  traverse the_rule [] []
    (counted_calls_test (fun _ => Src "" 1) (Build.QUnit_ "test") "name" []
       [ (true, Build.QUnit_ "stop", [Build.num 2]);
         (false, Build.QUnit_ "start", []) ])
    initial
  = Ok initial.
Proof.
  apply (resolve_async_counted_call_silences (fun _ => Src "" 1)
           (Build.QUnit_ "test") "name" []
           [ (true, Build.QUnit_ "stop", [Build.num 2]);
             (false, Build.QUnit_ "start", []) ] [] [] initial);
    reflexivity.
Defined.
End ResolveAsyncCounts.
(** ** lib/utils.js *)

Section UtilsFacts.
Import utils.

Lemma find_passed_over (f : node -> bool) l x rest :
  forallb (fun y => negb (f y)) l = true -> f x = true ->
  find f (l ++ x :: rest) = Some x.
Proof.
  intros Hl Hx. induction l as [|y l IH]; cbn.
  - rewrite Hx. reflexivity.
  - cbn in Hl. apply andb_true_iff in Hl as [Hy Hl].
    apply negb_true_iff in Hy. rewrite Hy. auto.
Qed.

Lemma find_none (f : node -> bool) l :
  forallb (fun y => negb (f y)) l = true -> find f l = None.
Proof.
  induction l as [|y l IH]; cbn; [reflexivity|].
  intros [Hy Hl]%andb_true_iff. apply negb_true_iff in Hy. rewrite Hy. auto.
Qed.

Lemma find_some {A} (f : A -> bool) l x : find f l = Some x -> f x = true.
Proof.
  induction l as [|y l IH]; cbn; [discriminate|].
  destruct (f y) eqn:E; [intros [= <-]; exact E|exact IH].
Qed.

(** X6.  The assert variable of a test is the first parameter of the first
    function among the arguments of the call that is an identifier other
    than [this]: arguments that are not functions are passed over, and so
    are parameters that are patterns or named [this].  A function all of
    whose parameters are passed over gives [null], also when a later
    argument is a function with a parameter; the name [this] is never
    returned. *)
Theorem assert_context_is_first_named_parameter :
  (forall before f after,
      forallb (fun a => negb (is_function a)) before = true ->
      is_function f = true ->
      getAssertContextNameForTest (before ++ f :: after)
      = getAssertContextName f)
  /\ (forall args,
        forallb (fun a => negb (is_function a)) args = true ->
        getAssertContextNameForTest args = None)
  /\ (forall i skipped j name rest body,
        forallb passed_over skipped = true -> name <> "this" ->
        getAssertContextName
          (FunctionExpression i (skipped ++ Identifier j name :: rest) body)
        = Some name
        /\ getAssertContextName
             (ArrowFunctionExpression i (skipped ++ Identifier j name :: rest)
                body)
           = Some name)
  /\ (forall i params body,
        forallb passed_over params = true ->
        getAssertContextName (FunctionExpression i params body) = None
        /\ getAssertContextName (ArrowFunctionExpression i params body)
           = None)
  /\ (forall f name,
        getAssertContextName f = Some name ->
        name <> "this" /\ is_function f = true).
Proof.
  repeat split.
  - intros before f after Hb Hf. unfold getAssertContextNameForTest.
    rewrite (find_passed_over is_function) by assumption. reflexivity.
  - intros args Hargs. unfold getAssertContextNameForTest.
    rewrite (find_none is_function) by assumption. reflexivity.
  - unfold getAssertContextName.
    rewrite (find_passed_over
               (ident_with (fun n => negb (String.eqb n "this"))));
      [reflexivity|exact H|].
    cbn. destruct (String.eqb_spec name "this"); [contradiction|reflexivity].
  - unfold getAssertContextName.
    rewrite (find_passed_over
               (ident_with (fun n => negb (String.eqb n "this"))));
      [reflexivity|exact H|].
    cbn. destruct (String.eqb_spec name "this"); [contradiction|reflexivity].
  - unfold getAssertContextName.
    rewrite (find_none (ident_with (fun n => negb (String.eqb n "this"))));
      [reflexivity|exact H].
  - unfold getAssertContextName.
    rewrite (find_none (ident_with (fun n => negb (String.eqb n "this"))));
      [reflexivity|exact H].
  - destruct f as [| | | | |i pa b|i pa b| | | |]; try discriminate;
      cbn in H;
      destruct (find _ pa) as [[j x| | | | | | | | | |]|] eqn:E;
      try discriminate; injection H as <-;
      apply find_some in E; cbn in E; intros ->; discriminate.
  - destruct f; try discriminate; reflexivity.
Qed.

Lemma assert_context_is_first_named_parameter_witness :
  getAssertContextName
    (FunctionExpression (Src "" 1)
       ([ Build.ident "this";
          Other (Src "{ ok }" 1) "ObjectPattern" [Build.ident "ok"] ]
        ++ Build.ident "assert" :: [Build.ident "extra"])
       (Build.block []))
  = Some "assert".
Proof.
  apply (proj1 (proj2 (proj2 assert_context_is_first_named_parameter)));
    [reflexivity|discriminate].
Defined.

Lemma metadata_in callee assertVar m :
  getAssertionMetadata callee assertVar = Some m ->
  In m (map snd ASSERTION_METADATA).
Proof.
  assert (Hown : forall (o : list (string * metadata)) k,
             own o k = Some m -> In m (map snd o)).
  { induction o as [|[k' v] o IH]; intros k; cbn; [discriminate|].
    destruct (String.eqb k k'); [intros [= ->]; auto|eauto]. }
  unfold getAssertionMetadata.
  destruct callee as [i name| | |i o pr| | | | | | |]; try discriminate.
  - apply Hown.
  - destruct o; try discriminate. destruct pr; try discriminate.
    destruct (eq_name _ _); [apply Hown|discriminate].
Qed.

(** X7.  What the metadata queries answer for a callee that is not an
    assertion: [isComparativeAssertion] throws a [TypeError], since it
    reads a property of [null], while [shouldCompareActualFirst] answers
    [false] and [getAllowedArities] the empty list.  For an assertion none
    of them throws. *)
Theorem metadata_queries_off_the_table callee assertVar :
  (isAssertion callee assertVar = false ->
   isComparativeAssertion callee assertVar = Throw "TypeError"
   /\ shouldCompareActualFirst callee assertVar = false
   /\ getAllowedArities callee assertVar = [])
  /\ (isAssertion callee assertVar = true ->
      exists b, isComparativeAssertion callee assertVar = Ok b).
Proof.
  unfold isAssertion, isComparativeAssertion, shouldCompareActualFirst,
    getAllowedArities.
  destruct (getAssertionMetadata callee assertVar) as [m|]; split;
    try discriminate; eauto.
Qed.

Lemma metadata_queries_off_the_table_witness :
  isComparativeAssertion (Build.ident "expect") (Some "assert")
  = Throw "TypeError"
  /\ shouldCompareActualFirst (Build.ident "expect") (Some "assert") = false
  /\ getAllowedArities (Build.ident "expect") (Some "assert") = [].
Proof.
  apply (proj1 (metadata_queries_off_the_table (Build.ident "expect")
                  (Some "assert"))).
  reflexivity.
Defined.

(** X8.  Every comparative assertion takes its actual value first and has
    exactly two arguments before the message: for an assertion,
    [isComparativeAssertion] and [shouldCompareActualFirst] give the same
    answer, and when it is [true] the allowed arities are [[2]].  The
    other assertions allow one argument, or one or two. *)
Theorem comparative_assertions_are_binary callee assertVar :
  isAssertion callee assertVar = true ->
  isComparativeAssertion callee assertVar
  = Ok (shouldCompareActualFirst callee assertVar)
  /\ (shouldCompareActualFirst callee assertVar = true ->
      getAllowedArities callee assertVar = [2])
  /\ (shouldCompareActualFirst callee assertVar = false ->
      getAllowedArities callee assertVar = [1]
      \/ getAllowedArities callee assertVar = [1; 2]).
Proof.
  unfold isAssertion, isComparativeAssertion, shouldCompareActualFirst,
    getAllowedArities.
  destruct (getAssertionMetadata callee assertVar) as [m|] eqn:E;
    [intros _|discriminate].
  apply metadata_in in E. cbn in E.
  repeat destruct E as [<-|E]; try destruct E; cbn; repeat split;
    try discriminate; auto.
Qed.

Lemma comparative_assertions_are_binary_witness :
  isComparativeAssertion
    (Build.member (Build.ident "assert") (Build.ident "strictEqual"))
    (Some "assert")
  = Ok (shouldCompareActualFirst
          (Build.member (Build.ident "assert") (Build.ident "strictEqual"))
          (Some "assert")).
Proof.
  apply (proj1 (comparative_assertions_are_binary
                  (Build.member (Build.ident "assert")
                     (Build.ident "strictEqual"))
                  (Some "assert") eq_refl)).
Defined.

(** X9.  A callee is of at most one of the kinds test, module, [stop] and
    [start], so the order in which the handlers try them does not matter;
    and an [asyncTest] is a test, so that
    [isTest(callee) || isAsyncTest(callee)] is [isTest(callee)]. *)
Theorem callee_kinds_exclusive callee :
  (isAsyncTest callee = true -> isTest callee = true)
  /\ (isTest callee = true ->
      isModule callee = false /\ isStop callee = false
      /\ isStart callee = false)
  /\ (isModule callee = true ->
      isStop callee = false /\ isStart callee = false)
  /\ (isStop callee = true -> isStart callee = false)
  /\ isTest callee || isAsyncTest callee = isTest callee.
Proof.
  assert (Hasync : isAsyncTest callee = true -> isTest callee = true).
  { intros [(i & name & -> & H)|(i & i1 & i2 & name & -> & H)]%bare_or_QUnit_inv;
      apply eqb_true in H; subst name; reflexivity. }
  assert (Hex : forall (p q : string -> bool),
             (forall name, p name = true -> q name = false) ->
             bare_or_QUnit p callee = true -> bare_or_QUnit q callee = false)
    by (intros p q; apply bare_or_QUnit_excl).
  assert (Htest : forall q,
             (forall name, In name SUPPORTED_TEST_IDENTIFIERS ->
                           q name = false) ->
             isTest callee = true -> bare_or_QUnit q callee = false).
  { intros q Hq. apply (Hex (includes SUPPORTED_TEST_IDENTIFIERS) q).
    intros name Hn%includes_inv. auto. }
  assert (Hmodule : forall q, q "module" = false ->
             isModule callee = true -> bare_or_QUnit q callee = false).
  { intros q Hq. apply (Hex (fun n => String.eqb n "module") q).
    intros name ->%eqb_true. exact Hq. }
  split; [exact Hasync|]. split; [|split; [|split]].
  - intros Ht. repeat split; revert Ht; apply Htest; intros name Hn;
      cbn in Hn; destruct Hn as [<-|[<-|[<-|[]]]]; reflexivity.
  - intros Hm. split; revert Hm; apply Hmodule; reflexivity.
  - apply (Hex (fun n => String.eqb n "stop")
             (fun n => String.eqb n "start")).
    intros name ->%eqb_true. reflexivity.
  - destruct (isTest callee) eqn:Ht; [reflexivity|].
    destruct (isAsyncTest callee) eqn:Ha; [|reflexivity].
    specialize (Hasync eq_refl). discriminate.
Qed.

Lemma callee_kinds_exclusive_witness :
  isTest (Build.QUnit_ "asyncTest") = true.
Proof.
  apply (proj1 (callee_kinds_exclusive (Build.QUnit_ "asyncTest"))).
  reflexivity.
Defined.
End UtilsFacts.
(** ** no-async-in-loops *)

Section NoAsyncInLoopsFacts.
Import NoAsyncInLoops.

(** X10.  The rule never throws.  From any state whose loop stack holds
    loop statements only, the walk of any subtree ends without an
    exception: [popAndMatch] always finds the loop it is given on top of the
    stack, [getLoopTypeText] is only asked for the text of a loop, and the
    loop stack is given back as it was. *)
Theorem no_async_in_loops_never_throws n ps p st :
  loops_only st ->
  exists st',
    traverse the_rule ps p n st = Ok st'
    /\ loopStack st' = loopStack st
    /\ loops_only st'.
Proof.
  intros Hst.
  destruct (traverse_balanced the_rule (fun _ => loops_only) loopStack
              (fun v s => loops_paired v s) n ps p st Hst)
    as (st' & H & Hl & E).
  eauto.
Qed.

Lemma no_async_in_loops_never_throws_witness :
  exists st',
    traverse the_rule [] [] Examples.async_in_loop initial = Ok st'
    /\ loopStack st' = loopStack initial
    /\ loops_only st'.
Proof.
  apply (no_async_in_loops_never_throws Examples.async_in_loop [] [] initial).
  unfold loops_only. cbn. constructor.
Defined.

(** X11.  Nothing is reported outside a loop.  The walk of a subtree that
    holds no loop statement, started with an empty loop stack, ends with
    the reports it started with, whatever calls of [stop], [start] or
    [assert.async] the subtree holds. *)
Theorem no_async_in_loops_silent_without_loop n ps p st :
  all_nodes no_loop n = true ->
  loopStack st = [] ->
  exists st',
    traverse the_rule ps p n st = Ok st'
    /\ reports st' = reports st
    /\ loopStack st' = [].
Proof.
  intros Hn Hst.
  destruct (traverse_balanced_in the_rule no_loop
              (fun _ s => loopStack s = [])
              (fun s => (loopStack s, reports s))) with
    (n := n) (ps := ps) (p := p) (s := st) as (st' & H & Hl & E);
    [|assumption|assumption|].
  - intros [q m qs] s Hm Hs.
    cbn [v_node v_path v_parents enter leave the_rule] in *.
    destruct m as [| | | |i callee args| | | | | |i t cs];
      try (exists s; repeat split; [assumption|]; intros s2 H2 E2;
           exists s2; repeat split; assumption).
    + (* a call: the stack of assert variables alone can change *)
      assert (He : exists s1,
                 CallExpression_enter q (CallExpression i callee args) callee
                   args s = Ok s1
                 /\ loopStack s1 = [] /\ reports s1 = reports s).
      { unfold CallExpression_enter. rewrite Hs. cbn [length Nat.ltb Nat.leb].
        destruct (utils.isTest callee); [|eauto].
        destruct (utils.getAssertContextNameForTest args) as [x|]; [|eauto].
        destruct (utils.truthy (Some x)); eauto. }
      destruct He as (s1 & -> & Hl1 & Hr1). exists s1.
      split; [reflexivity|]. split; [exact Hl1|].
      intros s2 H2 E2. eexists. split; [reflexivity|].
      unfold CallExpression_exit.
      destruct (utils.isTest callee); cbn [loopStack reports];
        (split; [exact H2|]); injection E2 as E2 E3; congruence.
    + cbn [no_loop] in Hm. apply negb_true_iff in Hm. rewrite Hm.
      exists s. repeat split; [assumption|]. intros s2 H2 E2.
      exists s2. repeat split; assumption.
  - exists st'. injection E as E1 E2. auto.
Qed.

Lemma no_async_in_loops_silent_without_loop_witness :
  exists st',
    traverse the_rule [] []
      (Examples.in_test (Build.stmt (Build.call (Build.QUnit_ "stop") [])))
      initial
    = Ok st'
    /\ reports st' = reports initial
    /\ loopStack st' = [].
Proof.
  apply no_async_in_loops_silent_without_loop; reflexivity.
Defined.
End NoAsyncInLoopsFacts.
(** ** Reports that only grow *)

Lemma grown_by_refl {A} (good : A -> Prop) rs : grown_by good rs rs.
Proof. exists []. split; [rewrite app_nil_r; reflexivity|constructor]. Qed.

Lemma grown_by_snoc {A} (good : A -> Prop) rs0 rs r :
  grown_by good rs0 rs -> good r -> grown_by good rs0 (rs ++ [r]).
Proof.
  intros (new & -> & Hnew) Hr. exists (new ++ [r])%list.
  split; [rewrite app_assoc; reflexivity|].
  apply Forall_app_2; [exact Hnew|]. constructor; [exact Hr|constructor].
Qed.

(** ** literal-compare-order *)

Section LiteralCompareOrderFacts.
Import LiteralCompareOrder.

Lemma checkLiteralCompareOrder_actual_first p args :
  checkLiteralCompareOrder p args true = []
  \/ exists r, checkLiteralCompareOrder p args true = [r]
               /\ swaps_first_two r.
Proof.
  unfold checkLiteralCompareOrder.
  destruct args as [|a0 [|a1 args]]; auto.
  cbn [andb negb].
  destruct (is_Literal a0 && negb (is_Literal a1)); [|auto].
  right. eexists. split; [reflexivity|].
  unfold swaps_first_two, swapFirstTwoNodesInList. cbn.
  repeat split. eauto 8.
Qed.

(** X12.  The rule never throws and never asks for the expected value
    first.  From any state the walk of any subtree ends without an
    exception, with the test stack it started with; [getAssertContext] is
    only called on a stack that is not empty and [isComparativeAssertion]
    only on an assertion.  Every report made on the way is "actualFirst",
    on the first argument of a call, and its fix exchanges the texts of the
    first two arguments. *)
Theorem literal_compare_order_never_throws n ps p st :
  exists st',
    traverse the_rule ps p n st = Ok st'
    /\ testStack st' = testStack st
    /\ grown_by swaps_first_two (reports st) (reports st').
Proof.
  destruct (traverse_balanced the_rule
              (fun _ s => grown_by swaps_first_two (reports st) (reports s))
              testStack) with (n := n) (ps := ps) (p := p) (s := st)
    as (st' & H & Hg & E); [|apply grown_by_refl|eauto].
  intros [q m qs] s Hs. cbn [v_node v_path enter leave the_rule].
  destruct m as [| | | |i callee args| | | | | |];
    try (exists s; repeat split; [assumption|]; intros s2 H2 E2; exists s2;
         repeat split; assumption).
  unfold CallExpression_enter, CallExpression_exit.
  destruct (utils.isTest callee).
  - eexists. split; [reflexivity|]. split; [exact Hs|].
    intros s2 H2 E2. eexists. split; [reflexivity|]. split; [exact H2|].
    cbn. rewrite E2. reflexivity.
  - assert (He : exists s1,
      (if (0 <? length (testStack s))%nat
       then assertVar ← getAssertContext s;
            if utils.isAssertion callee assertVar
            then processAssertion q callee args assertVar s
            else Ok s
       else Ok s) = Ok s1
      /\ testStack s1 = testStack s
      /\ grown_by swaps_first_two (reports st) (reports s1)).
    { destruct (testStack s) as [|f rest] eqn:Hst; [eauto|].
      cbn [length Nat.ltb Nat.leb]. unfold getAssertContext. rewrite Hst.
      cbn [mbind result_bind].
      destruct (utils.isAssertion callee (assertContextVar f)) eqn:Ha;
        [|eauto].
      unfold processAssertion.
      destruct (utils.isComparativeAssertion callee (assertContextVar f))
        as [[|]|e] eqn:Hc; cbn [mbind result_bind].
      - rewrite (comparative_is_actual_first _ _ Hc).
        eexists. split; [reflexivity|]. split; [exact Hst|].
        cbn [reports].
        destruct (checkLiteralCompareOrder_actual_first q args)
          as [->|(r & -> & Hr)].
        + rewrite app_nil_r. exact Hs.
        + apply grown_by_snoc; assumption.
      - eauto.
      - unfold utils.isComparativeAssertion in Hc.
        unfold utils.isAssertion in Ha.
        destruct (utils.getAssertionMetadata callee (assertContextVar f));
          discriminate. }
    destruct He as (s1 & -> & E1 & Hg1). exists s1. split; [reflexivity|].
    split; [exact Hg1|]. intros s2 H2 E2. exists s2.
    repeat split; [exact H2|congruence].
Qed.
End LiteralCompareOrderFacts.

(** ** no-assert-equal *)

Section NoAssertEqualFacts.
Import NoAssertEqual.
Variable iterateGlobalReferences : list path.

(** X13.  Whatever references the tracker yields, the rule never throws:
    [getCurrentAssertContextVariable] is only called on a stack that is not
    empty.  The walk of any subtree gives back the test stack it started
    with, and every report made on the way has no fix and three
    suggestions, for [deepEqual], [propEqual] and [strictEqual] in that
    order, each of which replaces one node by the new name: the property
    of the member callee in a report "unexpectedAssertEqual", the whole
    callee of the call in a report "unexpectedGlobalEqual". *)
Theorem no_assert_equal_never_throws n ps p st :
  exists st',
    traverse (the_rule iterateGlobalReferences) ps p n st = Ok st'
    /\ testStack st' = testStack st
    /\ grown_by suggests_other_assertions (reports st) (reports st').
Proof.
  destruct (traverse_balanced (the_rule iterateGlobalReferences)
              (fun _ s => grown_by suggests_other_assertions (reports st) (reports s))
              testStack) with (n := n) (ps := ps) (p := p) (s := st)
    as (st' & H & Hg & E); [|apply grown_by_refl|eauto].
  intros [q m qs] s Hs. cbn [v_node v_path enter leave the_rule].
  destruct m as [| | | |i callee args| | | | | |i t cs];
    try (exists s; repeat split; [assumption|]; intros s2 H2 E2; exists s2;
         repeat split; assumption).
  - unfold CallExpression_enter, CallExpression_exit.
    destruct (utils.isTest callee || utils.isAsyncTest callee).
    + eexists. split; [reflexivity|]. split; [exact Hs|].
      intros s2 H2 E2. eexists. split; [reflexivity|]. split; [exact H2|].
      cbn. rewrite E2. reflexivity.
    + assert (He : exists s1,
        (if (0 <? length (testStack s))%nat
         then b ← isAssertEqual s callee;
              if b : bool then reportError q callee false s
              else if bool_decide (q ∈ globalEqualCallNodes s)
                   then reportError q callee true s
                   else Ok s
         else Ok s) = Ok s1
        /\ testStack s1 = testStack s
        /\ grown_by suggests_other_assertions (reports st) (reports s1)).
      { destruct (testStack s) as [|f rest] eqn:Hst; [eauto|].
        cbn [length Nat.ltb Nat.leb].
        assert (Hcur : getCurrentAssertContextVariable s = Ok (assertVar f))
          by (unfold getCurrentAssertContextVariable; rewrite Hst;
              reflexivity).
        destruct (isAssertEqual s callee) as [[|]|e] eqn:Hb;
          cbn [mbind result_bind].
        - apply isAssertEqual_inv in Hb
            as (j & j1 & j2 & oname & f' & rest' & -> & _ & _).
          unfold reportError. rewrite Hcur. cbn [mbind result_bind].
          eexists. split; [reflexivity|]. split; [exact Hst|].
          cbn [reports]. apply grown_by_snoc; [exact Hs|].
          unfold suggests_other_assertions. cbn. split; [reflexivity|].
          eexists. split; [left; split; reflexivity|reflexivity].
        - destruct (bool_decide _); [|eauto].
          unfold reportError. cbn [mbind result_bind].
          eexists. split; [reflexivity|]. split; [exact Hst|].
          cbn [reports]. apply grown_by_snoc; [exact Hs|].
          unfold suggests_other_assertions. cbn. split; [reflexivity|].
          eexists. split; [right; split; reflexivity|reflexivity].
        - unfold isAssertEqual in Hb. rewrite Hcur in Hb.
          destruct callee as [| | |? o pr| | | | | | |]; try discriminate.
          destruct (utils.ident_with _ pr); [|discriminate].
          destruct o; discriminate. }
      destruct He as (s1 & -> & E1 & Hg1). exists s1. split; [reflexivity|].
      split; [exact Hg1|]. intros s2 H2 E2. exists s2.
      repeat split; [exact H2|congruence].
  - destruct (String.eqb t "Program").
    + eexists. split; [reflexivity|]. split; [exact Hs|].
      intros s2 H2 E2. exists s2. repeat split; [exact H2|exact E2].
    + exists s. repeat split; [assumption|]. intros s2 H2 E2. exists s2.
      repeat split; assumption.
Qed.
End NoAssertEqualFacts.

(** ** no-assert-equal-boolean *)

Section NoAssertEqualBooleanMore.
Import NoAssertEqualBoolean.

(** X14.  The rule never throws: [getCurrentAssertContextVariable] is only
    called on a stack that is not empty, also from inside the fix.  The
    walk of any subtree gives back the test stack it started with, and
    every report made on the way comes with a fix, which replaces the whole
    call. *)
Theorem no_assert_equal_boolean_never_throws n ps p st :
  exists st',
    traverse the_rule ps p n st = Ok st'
    /\ testStack st' = testStack st
    /\ grown_by rewrites_call (reports st) (reports st').
Proof.
  destruct (traverse_balanced the_rule
              (fun _ s => grown_by rewrites_call (reports st) (reports s))
              testStack) with (n := n) (ps := ps) (p := p) (s := st)
    as (st' & H & Hg & E); [|apply grown_by_refl|eauto].
  intros [q m qs] s Hs. cbn [v_node v_path enter leave the_rule].
  destruct m as [| | | |i callee args| | | | | |];
    try (exists s; repeat split; [assumption|]; intros s2 H2 E2; exists s2;
         repeat split; assumption).
  unfold CallExpression_enter, CallExpression_exit.
  destruct (utils.isTest callee || utils.isAsyncTest callee).
  - eexists. split; [reflexivity|]. split; [exact Hs|].
    intros s2 H2 E2. eexists. split; [reflexivity|]. split; [exact H2|].
    cbn. rewrite E2. reflexivity.
  - assert (He : exists s1,
      (if (0 <? length (testStack s))%nat
       then b ← isEqualityAssertion s callee;
            if b && defined (getBooleanArgument args)
            then reportError s q callee args
            else Ok s
       else Ok s) = Ok s1
      /\ testStack s1 = testStack s
      /\ grown_by rewrites_call (reports st) (reports s1)).
    { destruct (testStack s) as [|f rest] eqn:Hst; [eauto|].
      cbn [length Nat.ltb Nat.leb].
      assert (Hcur : getCurrentAssertContextVariable s = Ok (assertVar f))
        by (unfold getCurrentAssertContextVariable; rewrite Hst;
            reflexivity).
      assert (Hb : exists b, isEqualityAssertion s callee = Ok b).
      { unfold isEqualityAssertion, isAssertEquality. rewrite Hcur.
        destruct (isGlobalEqualityAssertion callee); [eauto|].
        destruct callee as [| | |? o pr| | | | | | |]; eauto.
        destruct (utils.ident_with _ pr); eauto. destruct o; cbn; eauto. }
      destruct Hb as [b ->]. cbn [mbind result_bind].
      destruct (b && _) eqn:Hrep; [|eauto].
      apply andb_true_iff in Hrep as [_ Hdef].
      unfold reportError, fix_of. rewrite Hcur.
      destruct (getBooleanArgument args) as [[k a]|] eqn:Hg; [|discriminate].
      assert (Ha : is_boolean_literal a = true).
      { unfold getBooleanArgument in Hg.
        destruct args as [|a0 [|a1 args]]; try discriminate.
        apply find_some in Hg. exact Hg. }
      apply is_boolean_literal_inv in Ha as (j & v & ->).
      destruct callee; cbn [mbind result_bind];
        (eexists; split; [reflexivity|]; split; [exact Hst|];
         cbn [reports]; apply grown_by_snoc; [exact Hs|];
         unfold rewrites_call; cbn [messageId data suggest fix_ r_node];
         repeat split; eauto). }
    destruct He as (s1 & -> & E1 & Hg1). exists s1. split; [reflexivity|].
    split; [exact Hg1|]. intros s2 H2 E2. exists s2.
    repeat split; [exact H2|congruence].
Qed.
End NoAssertEqualBooleanMore.
(** ** Rules that handle calls only *)

Section CallsOnly.
Context {St : Type} (R : rule St).
Hypothesis enter_other : forall v s,
    is_CallExpression (v_node v) = false -> enter R v s = Ok s.
Hypothesis leave_other : forall v s,
    is_CallExpression (v_node v) = false -> leave R v s = Ok s.

Lemma call_free_inert n ps p s :
  call_free n = true -> traverse R ps p n s = Ok s.
Proof.
  apply (traverse_inert R (fun m => negb (is_CallExpression m)));
    intros v s0 H%negb_true_iff; auto.
Qed.

Lemma call_free_list_inert l ps p k s :
  forallb call_free l = true -> traverse_list R ps p k l s = Ok s.
Proof.
  apply (traverse_list_inert R (fun m => negb (is_CallExpression m)));
    intros v s0 H%negb_true_iff; auto.
Qed.

Lemma test_callee_inert pr c ps p s :
  utils.bare_or_QUnit pr c = true -> traverse R ps p c s = Ok s.
Proof.
  intros H. apply call_free_inert. revert H.
  apply bare_or_QUnit_quiet; reflexivity.
Qed.

(** The walk of [test_with_call]: the test call is entered, then the inner
    call is entered and left, then the test call is left. *)
Lemma test_with_call_walk i testCallee name a callee args ps p s :
  utils.isTest testCallee = true ->
  call_free callee = true ->
  forallb call_free args = true ->
  traverse R ps p (test_with_call i testCallee name a callee args) s
  = (s1 ← enter R
            (Visit p (test_with_call i testCallee name a callee args) ps) s;
     s2 ← enter R (inner_visit i testCallee name a callee args ps p) s1;
     s3 ← leave R (inner_visit i testCallee name a callee args ps p) s2;
     leave R (Visit p (test_with_call i testCallee name a callee args) ps)
       s3).
Proof.
  intros Htest Hcallee Hargs.
  unfold inner_visit, call_in_test, test_with_call.
  rewrite traverse_unfold.
  destruct (enter R _ s) as [s1|e]; [|reflexivity].
  cbn [mbind result_bind children traverse_list].
  rewrite (test_callee_inert _ testCallee) by exact Htest.
  cbn [mbind result_bind].
  rewrite call_free_inert by reflexivity. cbn [mbind result_bind].
  rewrite (traverse_unfold _ _ _ (FunctionExpression _ _ _)).
  rewrite enter_other by reflexivity.
  cbn [mbind result_bind children app traverse_list].
  rewrite call_free_inert by reflexivity. cbn [mbind result_bind].
  rewrite (traverse_unfold _ _ _ (Other _ _ _)).
  rewrite enter_other by reflexivity.
  cbn [mbind result_bind children traverse_list].
  rewrite (traverse_unfold _ _ _ (Other _ _ _)).
  rewrite enter_other by reflexivity.
  cbn [mbind result_bind children traverse_list].
  rewrite (traverse_unfold _ _ _ (CallExpression _ _ _)).
  destruct (enter R (Visit (0 :: 0 :: 1 :: 2 :: p) _ _) s1) as [s2|e];
    [|reflexivity].
  cbn [mbind result_bind children traverse_list].
  rewrite call_free_inert by exact Hcallee. cbn [mbind result_bind].
  rewrite call_free_list_inert by exact Hargs. cbn [mbind result_bind].
  destruct (leave R (Visit (0 :: 0 :: 1 :: 2 :: p) _ _) s2) as [s3|e];
    [|reflexivity].
  cbn [mbind result_bind].
  rewrite (leave_other (Visit _ (Other _ "ExpressionStatement" _) _))
    by reflexivity.
  cbn [mbind result_bind].
  rewrite (leave_other (Visit _ (Other _ "BlockStatement" _) _))
    by reflexivity.
  cbn [mbind result_bind].
  rewrite (leave_other (Visit _ (FunctionExpression _ _ _) _))
    by reflexivity.
  reflexivity.
Qed.
End CallsOnly.
Lemma test_with_call_assert_name i name a callee args :
  a <> "this" ->
  utils.getAssertContextNameForTest
    [ Literal (i 1) (LStr name);
      FunctionExpression (i 2) [Identifier (i 3) a]
        (Other (i 4) "BlockStatement"
           [ Other (i 5) "ExpressionStatement"
               [CallExpression (i 6) callee args] ]) ]
  = Some a.
Proof.
  intros Ha. cbn.
  destruct (String.eqb_spec a "this"); [contradiction|reflexivity].
Qed.

(** ** no-throws-string *)

Section NoThrowsStringFacts.
Import NoThrowsString.

Lemma no_throws_string_enter_other v s :
  is_CallExpression (v_node v) = false -> enter the_rule v s = Ok s.
Proof. destruct v as [p [] ps]; cbn; try discriminate; reflexivity. Qed.

Lemma no_throws_string_leave_other v s :
  is_CallExpression (v_node v) = false -> leave the_rule v s = Ok s.
Proof. destruct v as [p [] ps]; cbn; try discriminate; reflexivity. Qed.

Lemma isThrows_not_test callee v :
  isThrows callee v = true -> utils.isTest callee = false.
Proof.
  unfold isThrows, utils.isTest, utils.bare_or_QUnit.
  destruct callee as [i name| | |i o pr| | | | | | |]; try discriminate.
  - intros ->%eqb_true. reflexivity.
  - destruct pr as [j pname| | | | | | | | | |]; cbn [utils.ident_with];
      rewrite ?andb_false_r; try discriminate.
    intros [_ H%includes_inv]%andb_true_iff. cbn in H.
    destruct H as [<-|[<-|[]]]; apply andb_false_r.
Qed.

Lemma isThrows_on a callee : isThrows callee (Some a) = throws_on a callee.
Proof.
  unfold isThrows, throws_on.
  destruct callee as [i name| | |i o pr| | | | | | |]; try reflexivity.
  destruct o as [j oname| | | | | | | | | |], pr as [k pname| | | | | | | | | |];
    cbn [utils.ident_with eq_name]; rewrite ?andb_false_r; try reflexivity.
  f_equal. unfold includes. cbn [existsb]. rewrite orb_false_r.
  reflexivity.
Qed.

Lemma no_throws_string_walk i testCallee name a callee args ps p st :
  utils.isTest testCallee = true ->
  a <> "this" ->
  call_free callee = true ->
  forallb call_free args = true ->
  traverse the_rule ps p (test_with_call i testCallee name a callee args) st
  = Ok (mkState (testStack st)
          (reports st ++
             if isThrows callee (Some a) && string_second_of_three args
             then [Report (call_in_test p) "noThrowsWithString"
                     [("callee", getText callee)] None []]
             else [])).
Proof.
  intros Htest Ha Hcallee Hargs.
  rewrite (test_with_call_walk the_rule no_throws_string_enter_other
             no_throws_string_leave_other) by assumption.
  unfold inner_visit, test_with_call.
  cbn [enter leave the_rule v_node v_path].
  unfold CallExpression_enter, CallExpression_exit. rewrite Htest.
  rewrite test_with_call_assert_name by exact Ha.
  cbn [mbind result_bind].
  destruct (utils.isTest callee) eqn:Hc.
  - cbn [mbind result_bind testStack reports tail].
    destruct (isThrows callee (Some a)) eqn:Ht.
    + rewrite (isThrows_not_test _ _ Ht) in Hc. discriminate.
    + rewrite app_nil_r. destruct st; reflexivity.
  - cbn [testStack length Nat.ltb Nat.leb getAssertVar assertVar mbind
           result_bind].
    destruct (isThrows callee (Some a)); cbn [mbind result_bind andb].
    + unfold checkAndReport. destruct (string_second_of_three args);
        cbn [testStack reports tail]; [reflexivity|].
      rewrite app_nil_r. destruct st; reflexivity.
    + cbn [testStack reports tail]. rewrite app_nil_r.
      destruct st; reflexivity.
Qed.


(** X15.  A call in the callback of a test is reported exactly when it is
    a call of [throws] or [raises] on the assert variable, or of the bare
    [throws], that has more than two arguments of which the second is a
    string literal.  The bare [raises] is not looked at, and two arguments
    are never reported.  The report is on the call, bears the message
    "noThrowsWithString" with the text of the callee as its data, and has
    neither fix nor suggestion. *)
Theorem no_throws_string_reports i testCallee name a callee args ps p st :
  utils.isTest testCallee = true ->
  a <> "this" ->
  call_free callee = true ->
  forallb call_free args = true ->
  traverse the_rule ps p (test_with_call i testCallee name a callee args) st
  = Ok (mkState (testStack st)
          (reports st ++
             match args with
             | _ :: Literal _ (LStr _) :: _ :: _ =>
                 if throws_on a callee
                 then [Report (call_in_test p) "noThrowsWithString"
                         [("callee", getText callee)] None []]
                 else []
             | _ => []
             end)).
Proof.
  intros Htest Ha Hcallee Hargs.
  rewrite (no_throws_string_walk i testCallee name a callee args ps p st)
    by assumption.
  rewrite isThrows_on. do 3 f_equal. unfold string_second_of_three.
  destruct (throws_on a callee),
    args as [|a0 [|[|j [s| | | |]| | | | | | | | |] [|a2 more]]];
    reflexivity.
Qed.

Lemma no_throws_string_reports_witness :
  traverse the_rule [] []
    (test_with_call (fun _ => Src "" 1) (Build.QUnit_ "test") "name" "assert"
       (Build.member (Build.ident "assert") (Build.ident "throws"))
       [Build.ident "block"; Build.str "message"; Build.str "other"])
    initial
  = Ok (mkState []
          [Report [0; 0; 1; 2] "noThrowsWithString"
             [("callee", "assert.throws")] None []]).
Proof.
  apply (no_throws_string_reports (fun _ => Src "" 1) (Build.QUnit_ "test")
           "name" "assert"
           (Build.member (Build.ident "assert") (Build.ident "throws"))
           [Build.ident "block"; Build.str "message"; Build.str "other"]
           [] [] initial);
    first [reflexivity | discriminate].
Defined.
End NoThrowsStringFacts.
(** ** require-object-in-propequal *)

Section RequireObjectInPropEqualFacts.
Import RequireObjectInPropEqual.

Lemma propequal_enter_other v s :
  is_CallExpression (v_node v) = false -> enter the_rule v s = Ok s.
Proof. destruct v as [p [] ps]; cbn; try discriminate; reflexivity. Qed.

Lemma propequal_leave_other v s :
  is_CallExpression (v_node v) = false -> leave the_rule v s = Ok s.
Proof. destruct v as [p [] ps]; cbn; try discriminate; reflexivity. Qed.

Lemma isPropEqual_total f rest rs callee :
  exists b, isPropEqual (mkState (f :: rest) rs) callee = Ok b
            /\ (b = true ->
                utils.isTest callee || utils.isAsyncTest callee = false).
Proof.
  unfold isPropEqual, isAssertPropEqual, isGlobalPropEqual,
    getCurrentAssertContextVariable, utils.isTest, utils.isAsyncTest,
    utils.bare_or_QUnit.
  cbn [testStack].
  destruct callee as [i name| | |i o pr| | | | | | |];
    cbn [mbind result_bind utils.ident_with]; eauto.
  - eexists. split; [reflexivity|]. intros ->%eqb_true. reflexivity.
  - destruct pr as [j pname| | | | | | | | | |];
      cbn [mbind result_bind utils.ident_with];
      try (exists false; split; [reflexivity|discriminate]).
    destruct (String.eqb pname "propEqual") eqn:E;
      [|exists false; split; [reflexivity|discriminate]].
    apply eqb_true in E. subst pname.
    destruct o as [j' oname| | | | | | | | | |];
      cbn [mbind result_bind utils.ident_with];
      try (exists false; split; [reflexivity|discriminate]).
    destruct (eq_name oname (assertVar f)); eexists;
      (split; [reflexivity|]); intros _; rewrite !andb_false_r; reflexivity.
Qed.

Lemma isPropEqual_on a rest rs callee :
  isPropEqual (mkState (Frame (Some a) :: rest) rs) callee
  = Ok (propEqual_on a callee).
Proof.
  unfold isPropEqual, isAssertPropEqual, isGlobalPropEqual,
    getCurrentAssertContextVariable, propEqual_on.
  cbn [testStack assertVar].
  destruct callee as [i name| | |i o pr| | | | | | |];
    cbn [mbind result_bind utils.ident_with]; try reflexivity.
  destruct pr as [j pname| | | | | | | | | |];
    cbn [mbind result_bind utils.ident_with];
    try (destruct o; reflexivity).
  destruct (String.eqb pname "propEqual");
    cbn [mbind result_bind utils.ident_with andb];
    [|destruct o; reflexivity].
  destruct o as [j' oname| | | | | | | | | |];
    cbn [mbind result_bind utils.ident_with eq_name]; try reflexivity.
  destruct (String.eqb oname a); reflexivity.
Qed.

(** X16.  A call in the callback of a test is reported exactly when it is
    a call of [propEqual], on the assert variable or bare, with at least
    two arguments of which the second is a literal, a template literal, a
    JSX element, an update expression or a unary expression.  The report is
    on the call, bears the message "useObject" with the text of that
    argument as its data, and has neither fix nor suggestion; reading the
    assert variable never throws. *)
Theorem require_object_in_propequal_reports i testCallee name a callee args
  ps p st :
  utils.isTest testCallee = true ->
  a <> "this" ->
  call_free callee = true ->
  forallb call_free args = true ->
  traverse the_rule ps p (test_with_call i testCallee name a callee args) st
  = Ok (mkState (testStack st)
          (reports st ++
             match args with
             | _ :: expected :: _ =>
                 if propEqual_on a callee
                    && includes
                         [ "Literal"; "TemplateLiteral"; "JSXElement";
                           "UpdateExpression"; "UnaryExpression" ]
                         (node_type expected)
                 then [Report (call_in_test p) "useObject"
                         [("value", getText expected)] None []]
                 else []
             | _ => []
             end)).
Proof.
  intros Htest Ha Hcallee Hargs.
  destruct (isPropEqual_total (Frame (Some a)) (testStack st) (reports st)
              callee) as (b & Hb & Hnot).
  pose proof (isPropEqual_on a (testStack st) (reports st) callee) as Hon.
  rewrite Hb in Hon. injection Hon as ->.
  rewrite (test_with_call_walk the_rule propequal_enter_other
             propequal_leave_other) by assumption.
  unfold inner_visit, test_with_call.
  cbn [enter leave the_rule v_node v_path].
  unfold CallExpression_enter, CallExpression_exit. rewrite Htest.
  rewrite test_with_call_assert_name by exact Ha.
  cbn [mbind result_bind orb].
  destruct (utils.isTest callee || utils.isAsyncTest callee) eqn:Hc.
  - cbn [mbind result_bind testStack reports tail].
    destruct (propEqual_on a callee); [discriminate (Hnot eq_refl)|].
    cbn [andb]. destruct args as [|a0 [|expected more]];
      rewrite app_nil_r; destruct st; reflexivity.
  - cbn [testStack length Nat.ltb Nat.leb]. rewrite Hb.
    cbn [mbind result_bind]. unfold hasNonObjectExpectedValue.
    destruct args as [|a0 [|expected more]];
      rewrite ?andb_false_r; cbn [mbind result_bind testStack reports tail];
      try (rewrite app_nil_r; destruct st; reflexivity).
    unfold isValidExpectedValue. rewrite negb_involutive.
    destruct (propEqual_on a callee && _);
      cbn [mbind result_bind testStack reports tail useObject];
      [reflexivity|rewrite app_nil_r; destruct st; reflexivity].
Qed.

Lemma require_object_in_propequal_reports_witness :
  traverse the_rule [] []
    (test_with_call (fun _ => Src "" 1) (Build.QUnit_ "test") "name"
       "assert"
       (Build.member (Build.ident "assert") (Build.ident "propEqual"))
       [Build.ident "actual"; Build.num 0])
    initial
  = Ok (mkState []
          [Report [0; 0; 1; 2] "useObject" [("value", "0")] None []]).
Proof.
  apply (require_object_in_propequal_reports (fun _ => Src "" 1)
           (Build.QUnit_ "test") "name" "assert"
           (Build.member (Build.ident "assert") (Build.ident "propEqual"))
           [Build.ident "actual"; Build.num 0] [] [] initial);
    first [reflexivity | discriminate].
Defined.
End RequireObjectInPropEqualFacts.
(** ** no-loose-assertions *)

Section NoLooseAssertionsFacts.
Import CreateAssertionCheck NoLooseAssertions.

Lemma name_of_inj a b : name_of a = name_of b -> a = b.
Proof. destruct a, b; cbn; intros [=]; reflexivity. Qed.

Lemma own_None {A} (o : list (string * A)) k :
  utils.own o k = None <-> ~ In k (map fst o).
Proof.
  induction o as [|[k' v] o IH]; cbn; [tauto|].
  destruct (String.eqb_spec k k') as [->|Hne].
  - split; [discriminate|]. intros H. exfalso. auto.
  - rewrite IH. split; [intros H [E|E]; [congruence|auto]|tauto].
Qed.

Lemma own_In {A} (o : list (string * A)) k v :
  utils.own o k = Some v -> In k (map fst o).
Proof.
  induction o as [|[k' v'] o IH]; cbn; [discriminate|].
  destruct (String.eqb_spec k k') as [->|Hne]; [auto|]. intros H. right.
  auto.
Qed.

Lemma set_own_fresh {A} (o : list (string * A)) k v :
  utils.own o k = None -> set_own o k v = (o ++ [(k, v)])%list.
Proof.
  induction o as [|[k' v'] o IH]; cbn; [reflexivity|].
  destruct (String.eqb k k'); [discriminate|]. intros H. rewrite IH by exact H.
  reflexivity.
Qed.

Lemma own_snoc {A} (o : list (string * A)) k v k0 :
  utils.own (o ++ [(k, v)]) k0
  = match utils.own o k0 with
    | Some x => Some x
    | None => if String.eqb k0 k then Some v else None
    end.
Proof.
  induction o as [|[k' v'] o IH]; cbn; [reflexivity|].
  destruct (String.eqb k0 k'); [reflexivity|exact IH].
Qed.

Lemma includes_In l s : includes l s = true <-> In s l.
Proof.
  split; [apply includes_inv|]. unfold includes. intros H.
  apply existsb_exists. exists s. split; [exact H|apply String.eqb_refl].
Qed.

Lemma parsed_step done acc i :
  parsed done acc -> parsed (done ++ [i]) (parse_item acc i).
Proof.
  destruct acc as [assertions config]. intros (Hkeys & Hnd & Hown).
  cbn [fst snd] in *.
  assert (Hstep : forall v,
    v = item_config i ->
    parsed (done ++ [i])
      (if includes assertions (name_of (disallowed_of i))
       then (assertions, config)
       else ((assertions ++ [name_of (disallowed_of i)])%list,
             set_own config (name_of (disallowed_of i)) v))).
  { intros v ->.
    destruct (includes assertions (name_of (disallowed_of i))) eqn:Hin.
    - (* disallowed before: the element is skipped *)
      split; [exact Hkeys|]. split; [exact Hnd|]. intros a. cbn [fst snd].
      rewrite find_app, Hown.
      destruct (find (disallows a) done) eqn:Hf; [reflexivity|].
      cbn [find]. destruct (disallows a i) eqn:Hd; [|reflexivity].
      exfalso. apply eqb_true, name_of_inj in Hd. subst a.
      specialize (Hown (disallowed_of i)). rewrite Hf in Hown. cbn in Hown.
      apply own_None in Hown. rewrite Hkeys in Hown.
      apply Hown, includes_In. exact Hin.
    - (* a new name and a new entry *)
      assert (Hfresh : utils.own config (name_of (disallowed_of i)) = None).
      { apply own_None. rewrite Hkeys. intros H%includes_In. congruence. }
      rewrite set_own_fresh by exact Hfresh.
      split; [cbn [fst snd]; rewrite map_app, Hkeys; reflexivity|].
      split.
      { cbn [fst]. apply NoDup_app. split; [exact Hnd|].
        split; [|apply NoDup_singleton].
        intros x Hx [<-|[]]%list_elem_of_In.
        apply list_elem_of_In, includes_In in Hx. congruence. }
      intros a. cbn [fst snd]. rewrite own_snoc, find_app, Hown.
      destruct (find (disallows a) done) eqn:Hf; [reflexivity|].
      cbn [fmap option_fmap option_map find]. unfold disallows.
      rewrite String.eqb_sym.
      destruct (String.eqb (name_of (disallowed_of i)) (name_of a));
        reflexivity. }
  destruct i as [a0|a0 recommended]; cbn [parse_item disallowed_of] in *;
    apply Hstep; [destruct a0|]; reflexivity.
Qed.

Lemma parsed_all items : forall done acc,
  parsed done acc -> parsed (done ++ items) (foldl parse_item acc items).
Proof.
  induction items as [|i items IH]; intros done acc H; cbn [foldl].
  - rewrite app_nil_r. exact H.
  - replace (done ++ i :: items)%list with ((done ++ [i]) ++ items)%list
      by (rewrite <- app_assoc; reflexivity).
    apply IH, parsed_step, H.
Qed.

Lemma parse_options_facts items :
  map fst (snd (parseOptions (Some items))) = fst (parseOptions (Some items))
  /\ NoDup (fst (parseOptions (Some items)))
  /\ forall a,
      utils.own (snd (parseOptions (Some items))) (name_of a)
      = item_config <$> find (disallows a) items.
Proof.
  apply (parsed_all items [] ([], [])). split; [reflexivity|].
  split; [constructor|]. intros a. reflexivity.
Qed.

Lemma parse_item_names acc i :
  fst (parse_item acc i)
  = if includes (fst acc) (name_of (disallowed_of i)) then fst acc
    else (fst acc ++ [name_of (disallowed_of i)])%list.
Proof.
  destruct acc as [assertions config], i as [a|a recommended];
    cbn [parse_item disallowed_of fst];
    destruct (includes assertions (name_of a)); reflexivity.
Qed.

Lemma filter_not_in_twice seen x l :
  In x seen ->
  List.filter (fun y => negb (includes seen y))
    (List.filter (fun y => negb (String.eqb y x)) l)
  = List.filter (fun y => negb (includes seen y)) l.
Proof.
  intros Hx. induction l as [|y l IH]; cbn [List.filter]; [reflexivity|].
  destruct (String.eqb_spec y x) as [->|Hne]; cbn [negb List.filter].
  - rewrite (proj2 (includes_In seen x) Hx). cbn [negb]. exact IH.
  - rewrite IH. reflexivity.
Qed.

Lemma filter_not_in_snoc seen x l :
  List.filter (fun y => negb (includes (seen ++ [x]) y)) l
  = List.filter (fun y => negb (includes seen y))
      (List.filter (fun y => negb (String.eqb y x)) l).
Proof.
  assert (Hinc : forall y,
            includes (seen ++ [x]) y = includes seen y || String.eqb y x).
  { intros y. unfold includes. rewrite existsb_app. cbn [existsb].
    rewrite orb_false_r, String.eqb_sym. reflexivity. }
  induction l as [|y l IH]; cbn [List.filter]; [reflexivity|].
  rewrite Hinc, IH. destruct (String.eqb y x); cbn [negb List.filter];
    rewrite ?orb_true_r, ?orb_false_r; reflexivity.
Qed.

(** The names listed by the loop of [parseOptions]: those that the
    accumulator holds, then the new ones in the order in which they first
    occur. *)
Lemma parse_names items : forall acc,
  fst (foldl parse_item acc items)
  = (fst acc
       ++ List.filter (fun y => negb (includes (fst acc) y))
            (first_occurrences
               (map (fun i => name_of (disallowed_of i)) items)))%list.
Proof.
  induction items as [|i items IH]; intros acc;
    cbn [foldl map first_occurrences List.filter].
  - rewrite app_nil_r. reflexivity.
  - rewrite IH, parse_item_names.
    destruct (includes (fst acc) (name_of (disallowed_of i))) eqn:Hin;
      cbn [negb].
    + rewrite filter_not_in_twice by (apply includes_In; exact Hin).
      reflexivity.
    + rewrite filter_not_in_snoc, <- app_assoc. reflexivity.
Qed.

(** X17.  What [parseOptions] makes of the option of the rule.  Each
    assertion that some element disallows is listed once, in the order of
    its first element: the list is that of the names the elements disallow,
    each at its first occurrence.  The entries of the message table are the
    listed names, in that order; and the entry of an assertion is the one
    of the first element that disallows it: a later element for the same
    assertion is ignored, whatever it recommends. *)
Theorem parse_options_first_wins items :
  NoDup (fst (parseOptions (Some items)))
  /\ map fst (snd (parseOptions (Some items)))
     = fst (parseOptions (Some items))
  /\ (forall a,
        In (name_of a) (fst (parseOptions (Some items)))
        <-> exists i, In i items /\ disallowed_of i = a)
  /\ (forall a,
        utils.own (snd (parseOptions (Some items))) (name_of a)
        = item_config <$> find (disallows a) items)
  /\ fst (parseOptions (Some items))
     = first_occurrences (map (fun i => name_of (disallowed_of i)) items).
Proof.
  destruct (parse_options_facts items) as (Hkeys & Hnd & Hown).
  split; [exact Hnd|]. split; [exact Hkeys|].
  split; [|split; [exact Hown|]];
    [|cbn [parseOptions]; rewrite parse_names; cbn [fst app];
      generalize (first_occurrences
                    (map (fun i => name_of (disallowed_of i)) items));
      intros l; induction l as [|y l IH]; cbn [List.filter includes];
      [reflexivity|unfold includes; cbn [existsb negb]; f_equal; exact IH]].
  intros a. rewrite <- Hkeys. split.
  - intros Hin.
    destruct (utils.own (snd (parseOptions (Some items))) (name_of a))
      as [c|] eqn:E; [|apply own_None in E; contradiction].
    rewrite Hown in E.
    destruct (find (disallows a) items) as [i|] eqn:Hf; [|discriminate].
    exists i. split.
    + clear -Hf. induction items as [|j items IH]; [discriminate|].
      cbn in Hf. destruct (disallows a j); [injection Hf as ->; left|right];
        auto.
    + apply find_some in Hf. apply eqb_true, name_of_inj in Hf. exact Hf.
  - intros (i & Hi & <-).
    destruct (utils.own (snd (parseOptions (Some items)))
                (name_of (disallowed_of i))) as [c|] eqn:E.
    + eapply own_In. exact E.
    + exfalso. rewrite Hown in E.
      assert (Hf : find (disallows (disallowed_of i)) items <> None).
      { clear -Hi. induction items as [|j items IH]; [destruct Hi|].
        cbn. destruct (disallows (disallowed_of i) j) eqn:Hd; [discriminate|].
        destruct Hi as [->|Hi]; [|auto].
        unfold disallows in Hd. rewrite String.eqb_refl in Hd. discriminate. }
      destruct (find _ items); [discriminate|contradiction].
Qed.

(** [createAssertionCheck] with a message table that has a usable entry
    for each of its assertions. *)
Lemma createAssertionCheck_total assertions config :
  (forall name, In name assertions ->
     exists c, utils.own config name = Some c /\ usable c = true) ->
  forall n ps p st,
    exists st',
      traverse (createAssertionCheck assertions config) ps p n st = Ok st'
      /\ testStack st' = testStack st
      /\ grown_by (names_assertion assertions) (reports st) (reports st').
Proof.
  intros Hcov n ps p st.
  destruct (traverse_balanced (createAssertionCheck assertions config)
              (fun _ s => grown_by (names_assertion assertions) (reports st)
                            (reports s))
              testStack) with (n := n) (ps := ps) (p := p) (s := st)
    as (st' & H & Hg & E); [|apply grown_by_refl|eauto].
  intros [q m qs] s Hs.
  cbn [v_node v_path enter leave createAssertionCheck].
  destruct m as [| | | |i callee args| | | | | |];
    try (exists s; repeat split; [assumption|]; intros s2 H2 E2; exists s2;
         repeat split; assumption).
  unfold CallExpression_enter, CallExpression_exit.
  destruct (utils.isTest callee || utils.isAsyncTest callee).
  - eexists. split; [reflexivity|]. split; [exact Hs|].
    intros s2 H2 E2. eexists. split; [reflexivity|]. split; [exact H2|].
    cbn. rewrite E2. reflexivity.
  - assert (He : exists s1,
      (if (0 <? length (testStack s))%nat
       then b ← isExpectedAssertion assertions s callee;
            if b : bool then reportError assertions config q callee s
            else Ok s
       else Ok s) = Ok s1
      /\ testStack s1 = testStack s
      /\ grown_by (names_assertion assertions) (reports st) (reports s1)).
    { destruct (testStack s) as [|f rest] eqn:Hst; [eauto|].
      cbn [length Nat.ltb Nat.leb].
      assert (Hcur : getCurrentAssertContextVariable s = Ok (assertVar f))
        by (unfold getCurrentAssertContextVariable; rewrite Hst;
            reflexivity).
      (* the name that is reported is one of the assertions *)
      assert (Hname : forall name,
        In name assertions ->
        forall isGlobal : bool,
        exists s1,
          (if utils.truthy (Some name) then
             let data :=
               [("assertVar", default "" (assertVar f));
                ("assertion", name)] in
             c ← config_of config name;
             let chosen :=
               if utils.truthy (unexpectedGlobalAssertionMessageId c)
                  && utils.truthy (unexpectedLocalAssertionMessageId c)
               then
                 (if isGlobal then unexpectedGlobalAssertionMessageId c
                  else unexpectedLocalAssertionMessageId c, None)
               else
                 (None,
                  if isGlobal then unexpectedGlobalAssertionMessage c
                  else unexpectedLocalAssertionMessage c) in
             if utils.truthy (fst chosen) then
               Ok (mkState (testStack s)
                     (reports s
                        ++ [AssertionReport q
                              (ById (default "" (fst chosen))) data]))
             else if utils.truthy (snd chosen) then
               Ok (mkState (testStack s)
                     (reports s
                        ++ [AssertionReport q
                              (ByText (default "" (snd chosen))) data]))
             else Throw "AssertionError: No messageId or message found"
           else Ok s) = Ok s1
          /\ testStack s1 = f :: rest
          /\ grown_by (names_assertion assertions) (reports st)
               (reports s1)).
      { intros name Hin isGlobal.
        destruct (utils.truthy (Some name)); [|eauto].
        destruct (Hcov name Hin) as (c & Hc & Hu).
        unfold config_of. rewrite Hc. cbn [mbind result_bind].
        assert (Hgood : forall d,
          grown_by (names_assertion assertions) (reports st)
            (reports s
               ++ [AssertionReport q d
                     [("assertVar", default "" (assertVar f));
                      ("assertion", name)]])).
        { intros d. apply grown_by_snoc; [exact Hs|].
          unfold names_assertion. cbn. eauto. }
        unfold usable in Hu.
        destruct (utils.truthy (unexpectedGlobalAssertionMessageId c)) eqn:G1;
          destruct (utils.truthy (unexpectedLocalAssertionMessageId c))
            eqn:G2;
          cbn [andb orb] in Hu |- *;
          try (apply andb_true_iff in Hu as [M1 M2]);
          destruct isGlobal; cbn [fst snd];
          rewrite ?G1, ?G2, ?M1, ?M2; cbn [utils.truthy];
          eexists; (split; [reflexivity|]);
          (split; [exact Hst|apply Hgood]). }
      unfold isExpectedAssertion, isMethodCalledOnLocalAssertObject,
        reportError.
      rewrite Hcur. cbn [mbind result_bind].
      destruct (isGlobalAssertion assertions callee) eqn:Hglobal.
      - cbn [mbind result_bind]. unfold isGlobalAssertion in Hglobal.
        destruct callee as [j name| | | | | | | | | |]; try discriminate.
        cbn [utils.ident_with] in Hglobal. apply includes_inv in Hglobal.
        apply (Hname name Hglobal true).
      - destruct callee as [| | |j o pr| | | | | | |];
          cbn [mbind result_bind]; eauto.
        destruct pr as [j2 pname| | | | | | | | | |];
          cbn [utils.ident_with mbind result_bind]; eauto.
        destruct (includes assertions pname) eqn:Hin;
          cbn [mbind result_bind]; [|eauto].
        destruct o as [j1 oname| | | | | | | | | |];
          cbn [mbind result_bind]; eauto.
        destruct (eq_name oname (assertVar f)); [|eauto].
        apply includes_inv in Hin. apply (Hname pname Hin false). }
    destruct He as (s1 & -> & E1 & Hg1). exists s1. split; [reflexivity|].
    split; [exact Hg1|]. intros s2 H2 E2. exists s2.
    repeat split; [exact H2|congruence].
Qed.

Lemma buildErrorMessage_usable recommended :
  usable (buildErrorMessage recommended) = true.
Proof. reflexivity. Qed.

(** X18.  However the rule is configured, it never throws.  Every
    assertion that [parseOptions] lists has an entry in the message table
    with both message identifiers or both message texts, so [reportError]
    reads no property of [undefined] and always finds a message; the test
    stack is only read when it is not empty.  The walk of any subtree gives
    back the test stack it started with, and every report made on the way
    is for one of the listed assertions. *)
Theorem no_loose_assertions_never_throws options n ps p st :
  exists st',
    traverse (the_rule options) ps p n st = Ok st'
    /\ testStack st' = testStack st
    /\ grown_by (names_assertion (fst (parseOptions options))) (reports st)
         (reports st').
Proof.
  unfold the_rule.
  destruct (parseOptions options) as [assertions config] eqn:E.
  cbn [fst]. apply createAssertionCheck_total.
  destruct options as [items|].
  - destruct (parse_options_facts items) as (Hkeys & _ & Hown).
    rewrite E in Hkeys, Hown. cbn [fst snd] in Hkeys, Hown.
    intros name Hin.
    destruct (utils.own config name) as [c|] eqn:Hc;
      [|apply own_None in Hc; rewrite Hkeys in Hc; contradiction].
    exists c. split; [reflexivity|].
    assert (Ha : exists a, name = name_of a).
    { clear -E Hin. revert Hin.
      assert (Hall : forall todo acc,
                 Forall (fun s => exists a, s = name_of a) (fst acc) ->
                 Forall (fun s => exists a, s = name_of a)
                   (fst (foldl parse_item acc todo))).
      { induction todo as [|i todo IH]; intros acc Hacc; [exact Hacc|].
        cbn [foldl]. apply IH. destruct acc as [l c0].
        destruct i as [a0|a0 r]; cbn [parse_item fst];
          destruct (includes l (name_of a0)); cbn [fst]; try exact Hacc;
          (apply Forall_app_2; [exact Hacc|]); repeat constructor; eauto. }
      specialize (Hall items ([], []) ltac:(constructor)).
      cbn [parseOptions] in E. rewrite E in Hall. cbn [fst] in Hall.
      intros Hin. rewrite Forall_forall in Hall.
      apply Hall, list_elem_of_In, Hin. }
    destruct Ha as [a ->]. rewrite Hown in Hc.
    destruct (find (disallows a) items) as [[a0|a0 r]|]; try discriminate;
      injection Hc as <-; reflexivity.
  - cbn in E. injection E as <- <-. intros name Hin. cbn in Hin.
    destruct Hin as [<-|[<-|[<-|[<-|[]]]]]; eexists; split; reflexivity.
Qed.
End NoLooseAssertionsFacts.
(** ** no-qunit-start-in-tests *)

Section NoQUnitStartInTestsFacts.
Import NoQUnitStartInTests.

(** X20.  The context stack is pushed and popped in step with the walk,
    and a report names the innermost context.  From any state whose stack
    holds contexts of tests and module hooks, the walk of any subtree ends
    without an exception and gives back the stack it started with; every
    report made on the way has as its context ["test"] or the name of a
    module hook followed by [" hook"]. *)
Theorem no_qunit_start_contexts n ps p st :
  Forall known_context (contextStack st) ->
  exists st',
    traverse the_rule ps p n st = Ok st'
    /\ contextStack st' = contextStack st
    /\ grown_by names_context (reports st) (reports st').
Proof.
  intros Hst.
  destruct (traverse_balanced the_rule
              (fun _ s => Forall known_context (contextStack s)
                          /\ grown_by names_context (reports st) (reports s))
              contextStack)
    with (n := n) (ps := ps) (p := p) (s := st) as (st' & H & [_ Hg] & E);
    [|split; [exact Hst|apply grown_by_refl]|eauto].
  intros [q m qs] s [Hk Hs]. cbn [enter leave the_rule v_node v_path].
  destruct m as [| | | |i callee args| | |i key value| | |];
    try (exists s; repeat split; try assumption; intros s2 H2 E2; exists s2;
         repeat split; try apply H2; assumption).
  - unfold CallExpression_enter, CallExpression_exit.
    destruct (utils.isTest callee).
    + eexists. split; [reflexivity|]. split.
      { split; [|exact Hs]. cbn. constructor; [left; reflexivity|exact Hk]. }
      intros s2 [Hk2 H2] E2. eexists. split; [reflexivity|].
      cbn [contextStack reports] in *. rewrite E2. cbn [tail].
      repeat split; assumption.
    + assert (He : exists s1,
                 match contextStack s with
                 | [] => s
                 | currentContext :: _ =>
                     if isQUnitStart callee
                     then mkState (contextStack s)
                            (reports s
                               ++ [noQUnitStartInTests q currentContext])
                     else s
                 end = s1
                 /\ contextStack s1 = contextStack s
                 /\ grown_by names_context (reports st) (reports s1)).
      { destruct (contextStack s) as [|c rest] eqn:Hc; [eauto|].
        destruct (isQUnitStart callee); [|eauto].
        eexists. split; [reflexivity|]. split; [reflexivity|].
        apply grown_by_snoc; [exact Hs|].
        unfold names_context. cbn. repeat split.
        exists c. split; [reflexivity|].
        apply Forall_cons_1 in Hk as [Hk _]. exact Hk. }
      destruct He as (s1 & -> & E1 & Hg1). exists s1. split; [reflexivity|].
      split; [split; [rewrite E1; exact Hk|exact Hg1]|].
      intros s2 H2 E2. exists s2. repeat split; try apply H2. congruence.
  - unfold Property_enter, Property_exit.
    destruct (utils.isModuleHookPropertyKey key && isInModule _) eqn:Hhook.
    + apply andb_true_iff in Hhook as [Hkey _].
      destruct key as [j name| | | | | | | | | |]; try discriminate.
      eexists. split; [reflexivity|]. split.
      { split; [|exact Hs]. cbn. constructor; [|exact Hk]. right.
        exists name. split; [|reflexivity]. apply includes_inv. exact Hkey. }
      intros s2 [Hk2 H2] E2. eexists. split; [reflexivity|].
      cbn [contextStack reports] in *. rewrite E2. cbn [tail].
      repeat split; assumption.
    + exists s. repeat split; try assumption. intros s2 H2 E2. exists s2.
      repeat split; try apply H2; assumption.
Qed.

Lemma no_qunit_start_contexts_witness :
  exists st',
    traverse the_rule [] []
      (Examples.in_test (Build.stmt (Build.call (Build.QUnit_ "start") [])))
      initial
    = Ok st'
    /\ contextStack st' = contextStack initial
    /\ grown_by names_context (reports initial) (reports st').
Proof.
  apply (no_qunit_start_contexts
           (Examples.in_test
              (Build.stmt (Build.call (Build.QUnit_ "start") [])))
           [] [] initial).
  constructor.
Defined.
End NoQUnitStartInTestsFacts.
(** ** Calls inside statements *)

Section WrappedCalls.
Context {St : Type} (R : rule St).
Hypothesis enter_other : forall v s,
    is_CallExpression (v_node v) = false -> enter R v s = Ok s.
Hypothesis leave_other : forall v s,
    is_CallExpression (v_node v) = false -> leave R v s = Ok s.

Lemma wrap_walk i ws n : forall ps p s,
  forallb call_free_wrapper ws = true ->
  traverse R ps p (wrap i ws n) s
  = traverse R (wrap_parents i ws n ps) (wrapped_path ws p) n s.
Proof.
  induction ws as [|w ws IH]; intros ps p s; cbn [forallb wrap wrap_parents
                                                     wrapped_path];
    [reflexivity|].
  intros [[Hb Ha]%andb_true_iff Hws]%andb_true_iff.
  rewrite traverse_unfold. rewrite enter_other by reflexivity.
  cbn [mbind result_bind children]. rewrite traverse_list_app.
  rewrite (call_free_list_inert R enter_other leave_other) by exact Hb.
  cbn [mbind result_bind traverse_list]. rewrite Nat.add_0_l.
  rewrite IH by exact Hws.
  destruct (traverse R _ _ n s) as [s1|e]; [|reflexivity].
  cbn [mbind result_bind].
  rewrite (call_free_list_inert R enter_other leave_other) by exact Ha.
  cbn [mbind result_bind]. apply leave_other. reflexivity.
Qed.

Lemma test_with_wrapped_call_walk i testCallee name a ws callee args ps p s :
  utils.isTest testCallee = true ->
  forallb call_free_wrapper ws = true ->
  call_free callee = true ->
  forallb call_free args = true ->
  traverse R ps p (test_with_wrapped_call i testCallee name a ws callee args)
    s
  = (s1 ← enter R
            (Visit p
               (test_with_wrapped_call i testCallee name a ws callee args)
               ps) s;
     s2 ← enter R (wrapped_visit i testCallee name a ws callee args ps p) s1;
     s3 ← leave R (wrapped_visit i testCallee name a ws callee args ps p) s2;
     leave R
       (Visit p (test_with_wrapped_call i testCallee name a ws callee args)
          ps) s3).
Proof.
  intros Htest Hws Hcallee Hargs.
  unfold wrapped_visit, test_with_wrapped_call.
  rewrite traverse_unfold.
  destruct (enter R _ s) as [s1|e]; [|reflexivity].
  cbn [mbind result_bind children traverse_list].
  rewrite (test_callee_inert R enter_other leave_other _ testCallee)
    by exact Htest.
  cbn [mbind result_bind].
  rewrite (call_free_inert R enter_other leave_other) by reflexivity.
  cbn [mbind result_bind].
  rewrite (traverse_unfold _ _ _ (FunctionExpression _ _ _)).
  rewrite enter_other by reflexivity.
  cbn [mbind result_bind children app traverse_list].
  rewrite (call_free_inert R enter_other leave_other) by reflexivity.
  cbn [mbind result_bind].
  rewrite (traverse_unfold _ _ _ (Other _ "BlockStatement" _)).
  rewrite enter_other by reflexivity.
  cbn [mbind result_bind children traverse_list].
  rewrite wrap_walk by exact Hws.
  rewrite (traverse_unfold _ _ _ (Other _ "ExpressionStatement" _)).
  rewrite enter_other by reflexivity.
  cbn [mbind result_bind children traverse_list].
  rewrite (traverse_unfold _ _ _ (CallExpression _ _ _)).
  destruct (enter R (Visit (0 :: wrapped_path ws _) _ _) s1) as [s2|e];
    [|reflexivity].
  cbn [mbind result_bind children traverse_list].
  rewrite (call_free_inert R enter_other leave_other) by exact Hcallee.
  cbn [mbind result_bind].
  rewrite (call_free_list_inert R enter_other leave_other) by exact Hargs.
  cbn [mbind result_bind].
  destruct (leave R (Visit (0 :: wrapped_path ws _) _ _) s2) as [s3|e];
    [|reflexivity].
  cbn [mbind result_bind].
  rewrite (leave_other (Visit _ (Other _ "ExpressionStatement" _) _))
    by reflexivity.
  cbn [mbind result_bind].
  rewrite (leave_other (Visit _ (Other _ "BlockStatement" _) _))
    by reflexivity.
  cbn [mbind result_bind].
  rewrite (leave_other (Visit _ (FunctionExpression _ _ _) _))
    by reflexivity.
  reflexivity.
Qed.
End WrappedCalls.
(** ** no-conditional-assertions *)

Section NoConditionalAssertionsFacts.
Import NoConditionalAssertions.

Lemma conditional_enter_other v s :
  is_CallExpression (v_node v) = false -> enter the_rule v s = Ok s.
Proof. destruct v as [p [] ps]; cbn; try discriminate; reflexivity. Qed.

Lemma conditional_leave_other v s :
  is_CallExpression (v_node v) = false -> leave the_rule v s = Ok s.
Proof. destruct v as [p [] ps]; cbn; try discriminate; reflexivity. Qed.

Lemma climb_wrap_parents i ws n : forall above,
  isConditionalNode <$> climb (wrap_parents i ws n above)
  = match
      find (fun t => includes STOP_NODE_TYPES t
                     || includes CONDITIONAL_NODE_TYPES t)
        (rev (map w_type ws))
    with
    | Some t => Some (includes CONDITIONAL_NODE_TYPES t)
    | None => isConditionalNode <$> climb above
    end.
Proof.
  induction ws as [|w ws IH]; intros above; cbn [wrap_parents map rev];
    [reflexivity|].
  rewrite IH, find_app.
  destruct (find _ (rev (map w_type ws))); [reflexivity|].
  cbn [find climb]. unfold isStopNode, isConditionalNode.
  cbn [node_type].
  destruct (includes STOP_NODE_TYPES (w_type w)) eqn:Hs;
    destruct (includes CONDITIONAL_NODE_TYPES (w_type w)) eqn:Hc;
    cbn [negb andb orb]; cbn [fmap option_fmap option_map node_type];
    rewrite ?Hc; reflexivity.
Qed.

(** X21.  An assertion in the callback of a test is reported exactly when
    the innermost statement or expression around it that is a function or a
    conditional is an [if] statement or a conditional expression.  The
    callback itself is a function, so an assertion with no such statement
    around it is not reported; neither is one in a function declared inside
    an [if]. *)
Theorem conditional_assertion_reported i testCallee name a ws callee args
  ps p st :
  utils.isTest testCallee = true ->
  a <> "" -> a <> "this" ->
  utils.isAssertion callee (Some a) = true ->
  forallb call_free_wrapper ws = true ->
  call_free callee = true ->
  forallb call_free args = true ->
  traverse the_rule ps p
    (test_with_wrapped_call i testCallee name a ws callee args) st
  = Ok (mkState (testStack st)
          (reports st ++
             if under_conditional ws
             then [noAssertionInsideConditional
                     (0 :: wrapped_path ws (0 :: 1 :: 2 :: p))]
             else [])).
Proof.
  intros Htest Ha Hthis Hassert Hws Hcallee Hargs.
  rewrite (test_with_wrapped_call_walk the_rule conditional_enter_other
             conditional_leave_other) by assumption.
  assert (Hclimb :
    isConditionalNode
      <$> climb (v_node (wrapped_visit i testCallee name a ws callee args
                           ps p)
                   :: v_parents (wrapped_visit i testCallee name a ws callee
                                   args ps p))
    = Some (under_conditional ws)).
  { unfold wrapped_visit. cbn [v_node v_parents climb].
    change (negb (isStopNode (CallExpression (i 6) callee args))
            && negb (isConditionalNode (CallExpression (i 6) callee args)))
      with true.
    change (negb (isStopNode
                    (Other (i 5) "ExpressionStatement"
                       [CallExpression (i 6) callee args]))
            && negb (isConditionalNode
                       (Other (i 5) "ExpressionStatement"
                          [CallExpression (i 6) callee args])))
      with true.
    cbn match. rewrite climb_wrap_parents. unfold under_conditional.
    destruct (find _ (rev (map w_type ws))); reflexivity. }
  assert (Henter_test :
    enter the_rule
      (Visit p (test_with_wrapped_call i testCallee name a ws callee args)
         ps) st
    = Ok (mkState (Frame (Some a) :: testStack st) (reports st))).
  { unfold test_with_wrapped_call. cbn [enter the_rule v_node v_path].
    unfold CallExpression_enter. rewrite Htest.
    replace (utils.getAssertContextNameForTest _) with (Some a);
      [reflexivity|].
    cbn. destruct (String.eqb_spec a "this"); [contradiction|reflexivity]. }
  assert (Hleave_test : forall s,
    leave the_rule
      (Visit p (test_with_wrapped_call i testCallee name a ws callee args)
         ps) s
    = Ok (mkState (tail (testStack s)) (reports s))).
  { intros s. unfold test_with_wrapped_call. cbn [leave the_rule v_node].
    unfold CallExpression_exit. rewrite Htest. reflexivity. }
  assert (Henter :
    enter the_rule (wrapped_visit i testCallee name a ws callee args ps p)
      (mkState (Frame (Some a) :: testStack st) (reports st))
    = Ok (mkState (Frame (Some a) :: testStack st)
            (reports st ++
               if under_conditional ws
               then [noAssertionInsideConditional
                       (0 :: wrapped_path ws (0 :: 1 :: 2 :: p))]
               else []))).
  { cbn [enter the_rule].
    change (v_node (wrapped_visit i testCallee name a ws callee args ps p))
      with (CallExpression (i 6) callee args) at 1.
    cbn match. unfold CallExpression_enter.
    rewrite (assertion_not_test _ _ Hassert).
    cbn [testStack length Nat.ltb Nat.leb]. unfold isAssertion.
    cbn [testStack assertContextVar]. rewrite (truthy_Some a Ha), Hassert.
    cbn [mbind result_bind]. unfold checkAndReport.
    destruct (climb _) as [cur|]; [|discriminate].
    injection Hclimb as ->.
    destruct (under_conditional ws); [reflexivity|].
    rewrite app_nil_r. reflexivity. }
  assert (Hleave : forall s,
    leave the_rule (wrapped_visit i testCallee name a ws callee args ps p) s
    = Ok s).
  { intros s. cbn [leave the_rule].
    change (v_node (wrapped_visit i testCallee name a ws callee args ps p))
      with (CallExpression (i 6) callee args).
    cbn match. unfold CallExpression_exit.
    rewrite (assertion_not_test _ _ Hassert). reflexivity. }
  rewrite Henter_test. cbn [mbind result_bind].
  rewrite Henter. cbn [mbind result_bind].
  rewrite Hleave. cbn [mbind result_bind].
  rewrite Hleave_test. reflexivity.
Qed.

Lemma conditional_assertion_reported_witness :
  traverse the_rule [] []
    (test_with_wrapped_call (fun _ => Src "" 1) (Build.QUnit_ "test") "name"
       "assert"
       [ Wrapper "IfStatement" [Build.ident "condition"] [];
         Wrapper "BlockStatement" [] [] ]
       (Build.member (Build.ident "assert") (Build.ident "ok"))
       [Build.ident "x"])
    initial
  = Ok (mkState [] [noAssertionInsideConditional [0; 0; 1; 0; 1; 2]]).
Proof.
  apply (conditional_assertion_reported (fun _ => Src "" 1)
           (Build.QUnit_ "test") "name" "assert"
           [ Wrapper "IfStatement" [Build.ident "condition"] [];
             Wrapper "BlockStatement" [] [] ]
           (Build.member (Build.ident "assert") (Build.ident "ok"))
           [Build.ident "x"] [] [] initial);
    first [reflexivity | discriminate].
Defined.

(** X22.  An assertion that is an argument of the test call itself, beside
    the callback, in a file where nothing is around the test call but its
    statement, makes the rule throw: the climb from the call finds neither
    a function nor a conditional and reads the [type] of the parent of the
    root, which is [null]. *)
Theorem assertion_beside_callback_throws i testCallee name a callee args st :
  utils.isTest testCallee = true ->
  a <> "" -> a <> "this" ->
  utils.isAssertion callee (Some a) = true ->
  lint the_rule (call_beside_callback i testCallee name a callee args) st
  = Throw "TypeError: Cannot read properties of null".
Proof.
  intros Htest Ha Hthis Hassert. unfold lint, call_beside_callback.
  rewrite traverse_unfold. cbn [enter leave the_rule v_node mbind result_bind
                                  children traverse_list].
  rewrite (traverse_unfold _ _ _ (Other _ _ _)).
  cbn [enter leave the_rule v_node mbind result_bind children traverse_list].
  rewrite (traverse_unfold _ _ _ (CallExpression _ _ _)).
  cbn [enter leave the_rule v_node v_path mbind result_bind children
         traverse_list].
  unfold CallExpression_enter at 1. rewrite Htest.
  cbn [mbind result_bind].
  rewrite (test_callee_inert the_rule conditional_enter_other
             conditional_leave_other _ testCallee) by exact Htest.
  cbn [mbind result_bind].
  rewrite (call_free_inert the_rule conditional_enter_other
             conditional_leave_other (Literal _ _)) by reflexivity.
  cbn [mbind result_bind].
  rewrite (call_free_inert the_rule conditional_enter_other
             conditional_leave_other (FunctionExpression _ _ _))
    by reflexivity.
  cbn [mbind result_bind].
  rewrite (traverse_unfold _ _ _ (CallExpression (i 7) _ _)).
  cbn [enter the_rule v_node v_path v_parents].
  unfold CallExpression_enter.
  rewrite (assertion_not_test _ _ Hassert).
  cbn [testStack length Nat.ltb Nat.leb]. unfold isAssertion.
  cbn [testStack assertContextVar].
  assert (Hname : utils.getAssertContextNameForTest
                    [ Literal (i 3) (LStr name);
                      FunctionExpression (i 4) [Identifier (i 5) a]
                        (Other (i 6) "BlockStatement" []);
                      CallExpression (i 7) callee args ]
                  = Some a).
  { cbn. destruct (String.eqb_spec a "this"); [contradiction|reflexivity]. }
  rewrite Hname, (truthy_Some a Ha), Hassert.
  reflexivity.
Qed.

Lemma assertion_beside_callback_throws_witness :
  lint the_rule
    (call_beside_callback (fun _ => Src "" 1) (Build.QUnit_ "test") "name"
       "assert" (Build.member (Build.ident "assert") (Build.ident "ok"))
       [Build.ident "x"])
    initial
  = Throw "TypeError: Cannot read properties of null".
Proof.
  apply (assertion_beside_callback_throws (fun _ => Src "" 1)
           (Build.QUnit_ "test") "name" "assert"
           (Build.member (Build.ident "assert") (Build.ident "ok"))
           [Build.ident "x"] initial);
    first [reflexivity | discriminate].
Defined.
End NoConditionalAssertionsFacts.
(** ** require-expect *)

Section RequireExpectWalk.
Import RequireExpect.
Context (R : rule state) (a : string).
(** How the rule marks the current test at a call: [hit] tells the calls
    that count, [mark] records one. *)
Context (hit : node * list node -> bool)
  (mark : bool -> TestContext -> TestContext).
Hypothesis enter_other : forall v s,
    is_CallExpression (v_node v) = false -> enter R v s = Ok s.
Hypothesis leave_other : forall v s,
    is_CallExpression (v_node v) = false -> leave R v s = Ok s.
Hypothesis enter_call : forall q qs i callee args t rs,
    assertName t = Some a -> utils.isTest callee = false ->
    enter R (Visit q (CallExpression i callee args) qs) (mkState (Some t) rs)
    = Ok (mkState (Some (mark (hit (callee, args)) t)) rs).
Hypothesis leave_call : forall q qs i callee args s,
    utils.isTest callee = false ->
    leave R (Visit q (CallExpression i callee args) qs) s = Ok s.
Hypothesis mark_false : forall t, mark false t = t.
Hypothesis mark_mark : forall b b' t,
    mark b' (mark b t) = mark (b || b') t.
Hypothesis mark_name : forall b t, assertName (mark b t) = assertName t.

Lemma marked_calls_walk i calls : forall ps p k t rs,
  assertName t = Some a ->
  forallb plain_call calls = true ->
  traverse_list R ps p k
    (map (fun c : node * list node =>
            Other (i 5) "ExpressionStatement"
              [CallExpression (i 6) (fst c) (snd c)])
       calls)
    (mkState (Some t) rs)
  = Ok (mkState (Some (mark (existsb hit calls) t)) rs).
Proof.
  induction calls as [|[c args] calls IH]; intros ps p k t rs Ht;
    cbn [map traverse_list forallb existsb fst snd].
  - intros _. rewrite mark_false. reflexivity.
  - intros [[[Hc Hcf]%andb_true_iff Hargs]%andb_true_iff Hcalls]%andb_true_iff.
    cbn [fst snd] in Hc, Hcf, Hargs. apply negb_true_iff in Hc.
    rewrite (traverse_unfold _ _ _ (Other _ _ _)).
    rewrite enter_other by reflexivity.
    cbn [mbind result_bind children traverse_list].
    rewrite (traverse_unfold _ _ _ (CallExpression _ _ _)).
    rewrite enter_call by assumption.
    cbn [mbind result_bind children traverse_list].
    rewrite (call_free_inert R enter_other leave_other) by exact Hcf.
    cbn [mbind result_bind].
    rewrite (call_free_list_inert R enter_other leave_other) by exact Hargs.
    cbn [mbind result_bind]. rewrite leave_call by exact Hc.
    cbn [mbind result_bind]. rewrite leave_other by reflexivity.
    cbn [mbind result_bind].
    rewrite IH by (rewrite ?mark_name; assumption).
    rewrite mark_mark. reflexivity.
Qed.

(** The walk of [calls_test] from the state in which the test call has
    been entered to the state in which it is left. *)
Lemma calls_test_walk i testCallee name calls ps p s t rs :
  utils.isTest testCallee = true ->
  forallb plain_call calls = true ->
  enter R (Visit p (calls_test i testCallee name a calls) ps) s
  = Ok (mkState (Some t) rs) ->
  assertName t = Some a ->
  traverse R ps p (calls_test i testCallee name a calls) s
  = leave R (Visit p (calls_test i testCallee name a calls) ps)
      (mkState (Some (mark (existsb hit calls) t)) rs).
Proof.
  intros Htest Hcalls Henter Ht.
  rewrite traverse_unfold, Henter. cbn [mbind result_bind].
  unfold calls_test. cbn [children traverse_list].
  rewrite (test_callee_inert R enter_other leave_other _ testCallee)
    by exact Htest.
  cbn [mbind result_bind].
  rewrite (call_free_inert R enter_other leave_other) by reflexivity.
  cbn [mbind result_bind].
  rewrite (traverse_unfold _ _ _ (FunctionExpression _ _ _)).
  rewrite enter_other by reflexivity.
  cbn [mbind result_bind children app traverse_list].
  rewrite (call_free_inert R enter_other leave_other) by reflexivity.
  cbn [mbind result_bind].
  rewrite (traverse_unfold _ _ _ (Other _ "BlockStatement" _)).
  rewrite enter_other by reflexivity.
  cbn [mbind result_bind children].
  rewrite marked_calls_walk by assumption.
  cbn [mbind result_bind].
  rewrite (leave_other (Visit _ (Other _ "BlockStatement" _) _))
    by reflexivity.
  cbn [mbind result_bind].
  rewrite (leave_other (Visit _ (FunctionExpression _ _ _) _))
    by reflexivity.
  reflexivity.
Qed.
End RequireExpectWalk.
Section RequireExpectFacts.
Import RequireExpect.

Lemma isExpectCall_in_test a st callee :
  assertName_of st = Some a ->
  isExpectCall st callee = isExpectCall (in_test_of a) callee.
Proof.
  intros H. unfold isExpectCall, isAssertExpectCall. rewrite H. reflexivity.
Qed.

Lemma test_is_no_expect st callee :
  utils.isTest callee = true -> isExpectCall st callee = false.
Proof.
  unfold isExpectCall, isGlobalExpectCall, isAssertExpectCall.
  intros [(i & name & -> & H)|(i & i1 & i2 & name & -> & H)]%bare_or_QUnit_inv;
    cbn [utils.ident_with]; apply includes_inv in H; cbn in H;
    destruct H as [<-|[<-|[<-|[]]]]; rewrite ?andb_false_r; reflexivity.
Qed.

Lemma calls_test_assert_name i name a calls :
  a <> "this" ->
  utils.getAssertContextNameForTest
    [ Literal (i 1) (LStr name);
      FunctionExpression (i 2) [Identifier (i 3) a]
        (Other (i 4) "BlockStatement"
           (map (fun c : node * list node =>
                   Other (i 5) "ExpressionStatement"
                     [CallExpression (i 6) (fst c) (snd c)])
              calls)) ]
  = Some a.
Proof.
  intros Ha. cbn.
  destruct (String.eqb_spec a "this"); [contradiction|reflexivity].
Qed.

Lemma always_enter_call a q callee args t rs :
  assertName t = Some a -> utils.isTest callee = false ->
  AlwaysStrategy.CallExpression_enter q callee args (mkState (Some t) rs)
  = mkState (Some (mark_expect (expects a (callee, args)) t)) rs.
Proof.
  intros Ht Hc. unfold AlwaysStrategy.CallExpression_enter, expects.
  cbn [currentTest fst].
  rewrite (isExpectCall_in_test a) by exact Ht.
  destruct (isExpectCall (in_test_of a) callee); [reflexivity|].
  rewrite Hc. reflexivity.
Qed.

Lemma never_except_zero_enter_call a q callee args t rs :
  assertName t = Some a -> utils.isTest callee = false ->
  NeverExceptZeroStrategy.CallExpression_enter q callee args
    (mkState (Some t) rs)
  = mkState (Some (mark_non_zero (expects_non_zero a (callee, args)) t)) rs.
Proof.
  intros Ht Hc.
  unfold NeverExceptZeroStrategy.CallExpression_enter, expects_non_zero,
    isNonZeroExpectCall.
  cbn [currentTest fst snd].
  rewrite (isExpectCall_in_test a) by exact Ht.
  destruct (isExpectCall (in_test_of a) callee && _); [reflexivity|].
  rewrite Hc. reflexivity.
Qed.

Lemma strategy_enter_other o v s :
  is_CallExpression (v_node v) = false ->
  o <> Some except_simple ->
  enter (the_rule o) v s = Ok s.
Proof.
  destruct o as [[]|]; try contradiction;
    destruct v as [p [] ps]; cbn; try discriminate; reflexivity.
Qed.

Lemma strategy_leave_other o v s :
  is_CallExpression (v_node v) = false ->
  o <> Some except_simple ->
  leave (the_rule o) v s = Ok s.
Proof.
  destruct o as [[]|]; try contradiction;
    destruct v as [p [] ps]; cbn; try discriminate; reflexivity.
Qed.

(** X23.  The strategies "always", "never" and "never-except-zero" on a
    test whose callback body is a list of calls.  Under "always" the test
    is reported as missing [expect] exactly when none of the calls is a
    call of [expect], bare or on the assert variable; under "never" it is
    reported for using [expect] exactly when one of them is; under
    "never-except-zero" exactly when one of them is such a call other than
    [expect(0)].  The report is on the test call and names
    [<assert variable>.expect].  Without an option the rule is
    "never-except-zero". *)
Theorem require_expect_flat_body i testCallee name a calls ps p st :
  utils.isTest testCallee = true ->
  a <> "" -> a <> "this" ->
  forallb plain_call calls = true ->
  traverse (the_rule (Some always)) ps p
    (calls_test i testCallee name a calls) st
  = Ok (mkState None
          (reports st ++
             if existsb (expects a) calls then []
             else [expect_report p "expectRequired" a]))
  /\ traverse (the_rule (Some never)) ps p
       (calls_test i testCallee name a calls) st
     = Ok (mkState None
             (reports st ++
                if existsb (expects a) calls
                then [expect_report p "expectForbidden" a]
                else []))
  /\ traverse (the_rule (Some never_except_zero)) ps p
       (calls_test i testCallee name a calls) st
     = Ok (mkState None
             (reports st ++
                if existsb (expects_non_zero a) calls
                then [expect_report p "expectForbidden" a]
                else []))
  /\ the_rule None = the_rule (Some never_except_zero).
Proof.
  intros Htest Ha Hthis Hcalls.
  assert (Hcapture : forall s,
    AlwaysStrategy.CallExpression_enter p testCallee
      [ Literal (i 1) (LStr name);
        FunctionExpression (i 2) [Identifier (i 3) a]
          (Other (i 4) "BlockStatement"
             (map (fun c : node * list node =>
                     Other (i 5) "ExpressionStatement"
                       [CallExpression (i 6) (fst c) (snd c)])
                calls)) ] s
    = mkState (Some (mkTest (Some a) p 0 false false false)) (reports s)).
  { intros s. unfold AlwaysStrategy.CallExpression_enter.
    rewrite (test_is_no_expect _ _ Htest), Htest.
    unfold captureTestContext.
    rewrite calls_test_assert_name by exact Hthis.
    destruct (currentTest s); reflexivity. }
  assert (Hcapture0 : forall s,
    NeverExceptZeroStrategy.CallExpression_enter p testCallee
      [ Literal (i 1) (LStr name);
        FunctionExpression (i 2) [Identifier (i 3) a]
          (Other (i 4) "BlockStatement"
             (map (fun c : node * list node =>
                     Other (i 5) "ExpressionStatement"
                       [CallExpression (i 6) (fst c) (snd c)])
                calls)) ] s
    = mkState (Some (mkTest (Some a) p 0 false false false)) (reports s)).
  { intros s. unfold NeverExceptZeroStrategy.CallExpression_enter,
      isNonZeroExpectCall.
    rewrite (test_is_no_expect _ _ Htest), Htest.
    unfold captureTestContext.
    rewrite calls_test_assert_name by exact Hthis.
    destruct (currentTest s); reflexivity. }
  assert (Hdata : forall t rs,
    assertName t = Some a ->
    assertionMessageData (mkState (Some t) rs) = [("expect", a ++ ".expect")]).
  { intros t rs Ht. unfold assertionMessageData, assertName_of.
    cbn [currentTest]. rewrite Ht, (truthy_Some a Ha). reflexivity. }
  split; [|split; [|split; [|reflexivity]]].
  - rewrite (calls_test_walk (the_rule (Some always)) a (expects a)
               mark_expect)
      with (t := mkTest (Some a) p 0 false false false) (rs := reports st);
      try assumption; try reflexivity.
    + unfold calls_test. cbn [leave the_rule AlwaysStrategy.the_rule v_node].
      unfold AlwaysStrategy.CallExpression_exit. cbn [currentTest].
      rewrite Htest. unfold report_test, releaseTestContext.
      destruct (existsb (expects a) calls); cbn [mark_expect use_expect
        isExpectUsed negb reports currentTest node_ assertName].
      * rewrite app_nil_r. reflexivity.
      * rewrite Hdata by reflexivity. reflexivity.
    + intros v s H. apply strategy_enter_other; [exact H|discriminate].
    + intros v s H. apply strategy_leave_other; [exact H|discriminate].
    + intros q qs j callee args t rs Ht Hc.
      cbn [enter the_rule AlwaysStrategy.the_rule v_node v_path].
      rewrite (always_enter_call a) by assumption. reflexivity.
    + intros q qs j callee args s Hc.
      cbn [leave the_rule AlwaysStrategy.the_rule v_node].
      unfold AlwaysStrategy.CallExpression_exit. rewrite Hc.
      destruct (currentTest s); reflexivity.
    + intros [] [] t; reflexivity.
    + intros [] t; reflexivity.
    + unfold calls_test.
      cbn [enter the_rule AlwaysStrategy.the_rule v_node v_path].
      rewrite Hcapture. reflexivity.
  - rewrite (calls_test_walk (the_rule (Some never)) a (expects a)
               mark_expect)
      with (t := mkTest (Some a) p 0 false false false) (rs := reports st);
      try assumption; try reflexivity.
    + unfold calls_test. cbn [leave the_rule NeverStrategy.the_rule v_node].
      unfold NeverStrategy.CallExpression_exit. cbn [currentTest].
      rewrite Htest. unfold report_test, releaseTestContext.
      destruct (existsb (expects a) calls); cbn [mark_expect use_expect
        isExpectUsed negb reports currentTest node_ assertName].
      * rewrite Hdata by reflexivity. reflexivity.
      * rewrite app_nil_r. reflexivity.
    + intros v s H. apply strategy_enter_other; [exact H|discriminate].
    + intros v s H. apply strategy_leave_other; [exact H|discriminate].
    + intros q qs j callee args t rs Ht Hc.
      cbn [enter the_rule NeverStrategy.the_rule v_node v_path].
      unfold NeverStrategy.CallExpression_enter.
      rewrite (always_enter_call a) by assumption. reflexivity.
    + intros q qs j callee args s Hc.
      cbn [leave the_rule NeverStrategy.the_rule v_node].
      unfold NeverStrategy.CallExpression_exit. rewrite Hc.
      destruct (currentTest s); reflexivity.
    + intros [] [] t; reflexivity.
    + intros [] t; reflexivity.
    + unfold calls_test.
      cbn [enter the_rule NeverStrategy.the_rule v_node v_path].
      unfold NeverStrategy.CallExpression_enter.
      rewrite Hcapture. reflexivity.
  - rewrite (calls_test_walk (the_rule (Some never_except_zero)) a
               (expects_non_zero a) mark_non_zero)
      with (t := mkTest (Some a) p 0 false false false) (rs := reports st);
      try assumption; try reflexivity.
    + unfold calls_test.
      cbn [leave the_rule NeverExceptZeroStrategy.the_rule v_node].
      unfold NeverExceptZeroStrategy.CallExpression_exit. cbn [currentTest].
      rewrite Htest. unfold report_test, releaseTestContext.
      destruct (existsb (expects_non_zero a) calls);
        cbn [mark_non_zero use_non_zero_expect isNonZeroExpectUsed negb
               reports currentTest node_ assertName].
      * rewrite Hdata by reflexivity. reflexivity.
      * rewrite app_nil_r. reflexivity.
    + intros v s H. apply strategy_enter_other; [exact H|discriminate].
    + intros v s H. apply strategy_leave_other; [exact H|discriminate].
    + intros q qs j callee args t rs Ht Hc.
      cbn [enter the_rule NeverExceptZeroStrategy.the_rule v_node v_path].
      rewrite (never_except_zero_enter_call a) by assumption. reflexivity.
    + intros q qs j callee args s Hc.
      cbn [leave the_rule NeverExceptZeroStrategy.the_rule v_node].
      unfold NeverExceptZeroStrategy.CallExpression_exit. rewrite Hc.
      destruct (currentTest s); reflexivity.
    + intros [] [] t; reflexivity.
    + intros [] t; reflexivity.
    + unfold calls_test.
      cbn [enter the_rule NeverExceptZeroStrategy.the_rule v_node v_path].
      rewrite Hcapture0. reflexivity.
Qed.
End RequireExpectFacts.
Section RequireExpectSimple.
Import RequireExpect.

Lemma require_expect_flat_body_witness :
  traverse (the_rule (Some always)) [] []
    (calls_test (fun _ => Src "" 1) (Build.QUnit_ "test") "name" "assert"
       [ (Build.member (Build.ident "assert") (Build.ident "ok"),
          [Build.ident "x"]) ])
    initial
  = Ok (mkState None [expect_report [] "expectRequired" "assert"]).
Proof.
  apply (proj1 (require_expect_flat_body (fun _ => Src "" 1)
                  (Build.QUnit_ "test") "name" "assert"
                  [ (Build.member (Build.ident "assert") (Build.ident "ok"),
                     [Build.ident "x"]) ]
                  [] [] initial eq_refl ltac:(discriminate)
                  ltac:(discriminate) eq_refl)).
Defined.

Lemma flat_inert n ps p s :
  flat n = true -> traverse ExceptSimpleStrategy.the_rule ps p n s = Ok s.
Proof.
  apply (traverse_inert ExceptSimpleStrategy.the_rule
           (fun m => negb (is_CallExpression m) && negb (opens_block m)));
    intros [q m qs] s0 [H1%negb_true_iff H2%negb_true_iff]%andb_true_iff;
    cbn [v_node] in *; cbn [enter leave ExceptSimpleStrategy.the_rule v_node];
    destruct m; try discriminate; cbn in H2 |- *; rewrite ?H2; reflexivity.
Qed.

Lemma flat_list_inert l ps p k s :
  forallb flat l = true ->
  traverse_list ExceptSimpleStrategy.the_rule ps p k l s = Ok s.
Proof.
  revert k s. induction l as [|c l IH]; intros k s; cbn; [reflexivity|].
  intros [H1 H2]%andb_true_iff. rewrite flat_inert by exact H1. cbn. auto.
Qed.

Lemma passes_in_test a st args :
  assertName_of st = Some a ->
  isPassingAssertAsArgument st args
  = isPassingAssertAsArgument (in_test_of a) args.
Proof.
  intros H. unfold isPassingAssertAsArgument. rewrite H. reflexivity.
Qed.

Lemma simple_calls_walk i a calls : forall ps p k t rs,
  a <> "" ->
  assertName t = Some a ->
  blockDepth t = 1%Z ->
  forallb flat_call calls = true ->
  exists t',
    traverse_list ExceptSimpleStrategy.the_rule ps p k
      (map (fun c : node * list node =>
              Other (i 5) "ExpressionStatement"
                [CallExpression (i 6) (fst c) (snd c)])
         calls)
      (mkState (Some t) rs)
    = Ok (mkState (Some t')
            (rs ++
               if negb (didReport t) && negb (isExpectUsed t)
                  && passes_before_expect a calls
               then [expect_report (node_ t) "expectRequiredComplexTest" a]
               else []))
    /\ assertName t' = Some a /\ blockDepth t' = 1%Z /\ node_ t' = node_ t.
Proof.
  induction calls as [|[c args] calls IH]; intros ps p k t rs Ha Ht Hd;
    cbn [map traverse_list forallb passes_before_expect fst snd].
  - intros _. exists t. rewrite !andb_false_r, app_nil_r. auto.
  - intros [[[Hc Hcf]%andb_true_iff Hargs]%andb_true_iff Hcalls]%andb_true_iff.
    cbn [fst snd] in Hc, Hcf, Hargs. apply negb_true_iff in Hc.
    rewrite (traverse_unfold _ _ _ (Other _ _ _)).
    cbn [enter leave ExceptSimpleStrategy.the_rule v_node opens_block
           String.eqb Ascii.eqb Bool.eqb mbind result_bind children
           traverse_list].
    rewrite (traverse_unfold _ _ _ (CallExpression _ _ _)).
    cbn [enter leave ExceptSimpleStrategy.the_rule v_node v_path mbind
           result_bind children traverse_list].
    (* what entering the call does *)
    assert (He : exists t1 new,
      ExceptSimpleStrategy.CallExpression_enter (0 :: k :: p) c args
        (mkState (Some t) rs)
      = mkState (Some t1) (rs ++ new)
      /\ assertName t1 = Some a /\ blockDepth t1 = 1%Z
      /\ node_ t1 = node_ t
      /\ (new ++
            if negb (didReport t1) && negb (isExpectUsed t1)
               && passes_before_expect a calls
            then [expect_report (node_ t) "expectRequiredComplexTest" a]
            else [])%list
         = if negb (didReport t) && negb (isExpectUsed t)
              && (if expects a (c, args) then false
                  else if passes a (c, args) then true
                  else passes_before_expect a calls)
           then [expect_report (node_ t) "expectRequiredComplexTest" a]
           else []).
    { unfold ExceptSimpleStrategy.CallExpression_enter. cbn [currentTest].
      destruct (didReport t) eqn:Hrep; cbn [negb andb].
      { rewrite Hc. exists t, []. rewrite app_nil_r, Hrep. cbn. auto. }
      unfold isTopLevelExpectCall, isViolatingExceptSimpleRule,
        isUsingAssertInNestedBlock. cbn [currentTest].
      rewrite (isExpectCall_in_test a) by exact Ht.
      rewrite (passes_in_test a) by exact Ht.
      rewrite Hd. cbn [Z.eqb Z.ltb Z.compare Pos.eqb Pos.compare andb orb].
      rewrite andb_true_r. unfold expects, passes. cbn [fst snd].
      destruct (isExpectCall (in_test_of a) c).
      { exists (use_expect t), []. rewrite app_nil_r. cbn.
        rewrite !andb_false_r. auto. }
      destruct (isExpectUsed t) eqn:Hused; cbn [negb andb].
      { exists t, []. rewrite app_nil_r, Hrep, Hused. cbn. auto. }
      destruct (isPassingAssertAsArgument (in_test_of a) args).
      - exists (did_report t), [expect_report (node_ t)
                                  "expectRequiredComplexTest" a].
        unfold report_test, set_test, assertionMessageData, assertName_of.
        cbn [currentTest reports did_report assertName blockDepth node_
               didReport negb andb].
        rewrite Ht, (truthy_Some a Ha). cbn [template].
        repeat split; auto.
      - exists t, []. rewrite app_nil_r, Hrep, Hused. cbn. auto. }
    destruct He as (t1 & new & -> & Ht1 & Hd1 & Hn1 & Hnew).
    cbn [mbind result_bind].
    rewrite flat_inert by exact Hcf. cbn [mbind result_bind].
    rewrite flat_list_inert by exact Hargs. cbn [mbind result_bind].
    unfold ExceptSimpleStrategy.CallExpression_exit. rewrite Hc.
    cbn [mbind result_bind].
    destruct (IH ps p (S k) t1 (rs ++ new)%list Ha Ht1 Hd1 Hcalls)
      as (t' & -> & Ht' & Hd' & Hn').
    exists t'. rewrite Hn1, <- app_assoc, Hnew. repeat split; congruence.
Qed.

(** X24.  The strategy "except-simple" on a test whose callback body is a
    list of calls, none of them in a nested block: the test is reported,
    once, exactly when a call that passes the assert variable as an
    argument is met before any call of [expect].  A call of [expect] at the
    top of the body allows every later call to pass the assert variable
    on. *)
Theorem require_expect_except_simple i testCallee name a calls ps p st :
  utils.isTest testCallee = true ->
  a <> "" -> a <> "this" ->
  forallb flat_call calls = true ->
  currentTest st = None ->
  traverse (the_rule (Some except_simple)) ps p
    (calls_test i testCallee name a calls) st
  = Ok (mkState None
          (reports st ++
             if passes_before_expect a calls
             then [expect_report p "expectRequiredComplexTest" a]
             else [])).
Proof.
  intros Htest Ha Hthis Hcalls Hst. cbn [the_rule]. unfold calls_test.
  rewrite traverse_unfold.
  cbn [enter leave ExceptSimpleStrategy.the_rule v_node v_path mbind
         result_bind children traverse_list].
  unfold ExceptSimpleStrategy.CallExpression_enter at 1. rewrite Hst, Htest.
  unfold captureTestContext.
  rewrite calls_test_assert_name by exact Hthis.
  rewrite flat_inert
    by (revert Htest; apply bare_or_QUnit_quiet; reflexivity).
  cbn [mbind result_bind].
  rewrite (flat_inert (Literal _ _)) by reflexivity.
  cbn [mbind result_bind].
  rewrite (traverse_unfold _ _ _ (FunctionExpression _ _ _)).
  cbn [enter leave ExceptSimpleStrategy.the_rule v_node opens_block mbind
         result_bind children app traverse_list].
  rewrite (flat_inert (Identifier _ _)) by reflexivity.
  cbn [mbind result_bind].
  rewrite (traverse_unfold _ _ _ (Other _ "BlockStatement" _)).
  cbn [enter leave ExceptSimpleStrategy.the_rule v_node opens_block
         String.eqb Ascii.eqb Bool.eqb mbind result_bind children].
  unfold add_depth at 2. cbn [currentTest set_test reports assertName node_
                                blockDepth isExpectUsed didReport
                                isNonZeroExpectUsed Z.add].
  unfold set_test at 1. cbn [reports]. change (0 + 1)%Z with 1%Z.
  destruct (simple_calls_walk i a calls
              (Other (i 4) "BlockStatement"
                 (map (fun c : node * list node =>
                         Other (i 5) "ExpressionStatement"
                           [CallExpression (i 6) (fst c) (snd c)])
                    calls)
               :: FunctionExpression (i 2) [Identifier (i 3) a]
                    (Other (i 4) "BlockStatement"
                       (map (fun c : node * list node =>
                               Other (i 5) "ExpressionStatement"
                                 [CallExpression (i 6) (fst c) (snd c)])
                          calls))
               :: CallExpression (i 0) testCallee
                    [ Literal (i 1) (LStr name);
                      FunctionExpression (i 2) [Identifier (i 3) a]
                        (Other (i 4) "BlockStatement"
                           (map (fun c : node * list node =>
                                   Other (i 5) "ExpressionStatement"
                                     [CallExpression (i 6) (fst c) (snd c)])
                              calls)) ]
               :: ps)
              (1 :: 2 :: p) 0
              (mkTest (Some a) p 1 false false false) (reports st) Ha
              eq_refl eq_refl Hcalls)
    as (t' & -> & Ht' & Hd' & Hn').
  cbn [mbind result_bind didReport isExpectUsed negb andb node_].
  unfold add_depth, ExceptSimpleStrategy.CallExpression_exit.
  cbn [currentTest set_test reports]. rewrite Htest. reflexivity.
Qed.

Lemma require_expect_except_simple_witness :
  traverse (the_rule (Some except_simple)) [] []
    (calls_test (fun _ => Src "" 1) (Build.QUnit_ "test") "name" "assert"
       [ (Build.ident "helper", [Build.ident "assert"]);
         (Build.member (Build.ident "assert") (Build.ident "expect"),
          [Build.num 1]) ])
    initial
  = Ok (mkState None
          [expect_report [] "expectRequiredComplexTest" "assert"]).
Proof.
  apply (require_expect_except_simple (fun _ => Src "" 1)
           (Build.QUnit_ "test") "name" "assert"
           [ (Build.ident "helper", [Build.ident "assert"]);
             (Build.member (Build.ident "assert") (Build.ident "expect"),
              [Build.num 1]) ]
           [] [] initial);
    first [reflexivity | discriminate].
Defined.
End RequireExpectSimple.

(** ** no-hooks-from-ancestor-modules: the module stack *)

Section NoHooksStack.
Import NoHooksFromAncestorModules.

Lemma hook_invocation_in_module v :
  isHookInvocation v = true -> in_module (v_parents v).
Proof.
  unfold isHookInvocation, isInModuleCallbackBody.
  destruct (v_node v) as [| | | |i [| | |j [] []| | | | | | |] args| | | | | |];
    try discriminate.
  intros [_ H]%andb_true_iff.
  destruct (v_parents v) as [|p1 [|p2 [|p3 [|[| | | |k callee a| | | | | |] ps]]]];
    try discriminate.
  apply andb_true_iff in H as [_ H].
  exists k, callee, a. split; [|exact H]. simpl. auto.
Qed.

Lemma hooks_paired v s :
  has_callback (v_node v) = true ->
  ((in_module (v_parents v) -> moduleStack s <> [])
   /\ Forall plain_hook_report (reports s)) ->
  exists s1, enter the_rule v s = Ok s1
    /\ ((in_module (v_node v :: v_parents v) -> moduleStack s1 <> [])
        /\ Forall plain_hook_report (reports s1))
    /\ forall s2,
         ((in_module (v_node v :: v_parents v) -> moduleStack s2 <> [])
          /\ Forall plain_hook_report (reports s2)) ->
         moduleStack s2 = moduleStack s1 ->
         exists s3, leave the_rule v s2 = Ok s3
           /\ ((in_module (v_parents v) -> moduleStack s3 <> [])
               /\ Forall plain_hook_report (reports s3))
           /\ moduleStack s3 = moduleStack s.
Proof.
  destruct v as [p n ps]. cbn [v_node v_parents enter leave the_rule].
  intros Hcb [Hin Hrs].
  assert (Hup : forall m, is_CallExpression m = false ->
                  in_module (m :: ps) -> in_module ps).
  { intros m Hm (i & c & a & [->|H] & Hc); [discriminate|].
    exists i, c, a. auto. }
  destruct n as [| | | |i callee args| | | | | |];
    try (exists s; split; [reflexivity|]; split;
         [split; [intros H; apply Hin; eapply Hup; [|exact H]; reflexivity
                |exact Hrs]|];
         intros s2 [_ Hrs2] E; exists s2; split; [reflexivity|]; split;
         [split; [rewrite E; exact Hin|exact Hrs2]|exact E]).
  unfold CallExpression_enter, CallExpression_exit.
  cbn [has_callback] in Hcb.
  destruct (utils.isModule callee) eqn:Hm.
  - cbn in Hcb. destruct (getCallbackArg args) as [callback|] eqn:Hc;
      [|discriminate].
    destruct args as [|arg more]; [discriminate|].
    eexists. split; [reflexivity|]. split; [split; [discriminate|exact Hrs]|].
    intros s2 [_ Hrs2] E. eexists. split; [reflexivity|].
    cbn [moduleStack reports] in *. rewrite E. cbn [tail].
    split; [split; assumption|reflexivity].
  - assert (Hin' : in_module (CallExpression i callee args :: ps) ->
                   moduleStack s <> []).
    { intros (k & c & a & [[= <- <- <-]|H] & Hc); [congruence|].
      apply Hin. exists k, c, a. auto. }
    assert (He : exists s1,
      (if isHookInvocation (Visit p (CallExpression i callee args) ps)
       then match moduleStack s with
            | [] => Throw "TypeError: Cannot read properties of undefined"
            | containingModuleInfo :: _ =>
                match callee with
                | MemberExpression _ (Identifier _ used) (Identifier _ invoked)
                  => if negb (eq_name used
                                (hookIdentifierName containingModuleInfo))
                     then Ok (mkState (moduleStack s)
                                (reports s ++
                                   [noHooksFromAncestorModules
                                      (callee_path p) invoked used]))
                     else Ok s
                | _ => Ok s
                end
            end
       else Ok s) = Ok s1
      /\ moduleStack s1 = moduleStack s
      /\ Forall plain_hook_report (reports s1)).
    { destruct (isHookInvocation _) eqn:Hh; [|eauto].
      apply hook_invocation_in_module in Hh. cbn [v_parents] in Hh.
      destruct (moduleStack s) as [|top rest] eqn:Hst;
        [destruct (Hin Hh); reflexivity|].
      destruct callee as [| | |j [] []| | | | | | |]; eauto.
      destruct (eq_name _ _); cbn [negb]; [eauto|].
      eexists. split; [reflexivity|].
      split; [reflexivity|]. cbn [reports]. apply Forall_app_2; [exact Hrs|].
      repeat constructor. }
    destruct He as (s1 & He & E1 & Hrs1). exists s1.
    split; [exact He|]. split; [split; [rewrite E1; exact Hin'|exact Hrs1]|].
    intros s2 [_ Hrs2] E. exists s2. split; [reflexivity|].
    split; [split; [rewrite E, E1; exact Hin|exact Hrs2]|congruence].
Qed.

(** X25.  When every module call of the program has a callback (a function
    as its second or third argument), the ancestor-hook rule ends without an
    exception and with its module stack empty again, and each of its
    reports bears the one message of the rule, without fix or suggestion. *)
Theorem no_hooks_never_throws program :
  all_nodes has_callback program = true ->
  exists st,
    lint the_rule program initial = Ok st
    /\ moduleStack st = []
    /\ Forall plain_hook_report (reports st).
Proof.
  intros Hp.
  destruct (traverse_balanced_in the_rule has_callback
              (fun ps s => (in_module ps -> moduleStack s <> [])
                           /\ Forall plain_hook_report (reports s))
              moduleStack hooks_paired program [] [] initial Hp)
    as (st & H & [_ Hrs] & E).
  - split; [|constructor]. intros (i & c & a & [] & _).
  - exists st. auto.
Qed.

Lemma no_hooks_never_throws_witness :
  exists st,
    lint the_rule Examples.nested_modules initial = Ok st
    /\ moduleStack st = []
    /\ Forall plain_hook_report (reports st).
Proof.
  apply (no_hooks_never_throws Examples.nested_modules). reflexivity.
Defined.
End NoHooksStack.

Section NoHooksReceiver.
Import NoHooksFromAncestorModules.

Lemma hooks_enter_other v s :
  is_CallExpression (v_node v) = false -> enter the_rule v s = Ok s.
Proof. destruct v as [p [] ps]; try discriminate; reflexivity. Qed.

Lemma hooks_leave_other v s :
  is_CallExpression (v_node v) = false -> leave the_rule v s = Ok s.
Proof. destruct v as [p [] ps]; try discriminate; reflexivity. Qed.

Lemma hooks_leave_call p j c args ps s :
  utils.isModule c = false ->
  leave the_rule (Visit p (CallExpression j c args) ps) s = Ok s.
Proof.
  intros Hc. cbn [leave the_rule v_node]. unfold CallExpression_exit.
  rewrite Hc. reflexivity.
Qed.

Lemma hooks_parameter_find params :
  match getHooksIdentifierFromParams params with
  | Some (Identifier _ name) => Some name
  | _ => None
  end = hooks_parameter params.
Proof.
  unfold getHooksIdentifierFromParams.
  induction params as [|x params IH]; cbn [find hooks_parameter];
    [reflexivity|].
  destruct x as [i name| | | | | | | | | |]; cbn [utils.ident_with];
    try exact IH.
  destruct (String.eqb name "this"); cbn [negb]; [exact IH|reflexivity].
Qed.

(** Entering a call of the callback body of a module. *)
Lemma hook_call_enter p j c args stmt block f k mc margs ps s top rest :
  utils.isModule c = false ->
  node_type stmt = "ExpressionStatement" ->
  node_type block = "BlockStatement" ->
  is_function f = true ->
  utils.isModule mc = true ->
  moduleStack s = top :: rest ->
  enter the_rule
    (Visit p (CallExpression j c args)
       (stmt :: block :: f :: CallExpression k mc margs :: ps)) s
  = Ok (mkState (moduleStack s)
          (reports s ++
             match hook_on (c, args) with
             | Some (receiver, method) =>
                 if eq_name receiver (hookIdentifierName top) then []
                 else [Report (callee_path p) "noHooksFromAncestorModules"
                         [ ("invokedMethodName", method);
                           ("usedHooksIdentifierName", receiver) ]
                         None []]
             | None => []
             end)).
Proof.
  intros Hc Hstmt Hblock Hf Hmc Hst.
  assert (Hsame : Ok s = Ok (mkState (top :: rest) (reports s ++ [])))
    by (rewrite app_nil_r, <- Hst; destruct s; reflexivity).
  cbn [enter the_rule v_node]. unfold CallExpression_enter. rewrite Hc.
  unfold isHookInvocation, isInModuleCallbackBody, hook_on.
  cbn [v_node v_parents v_path fst]. rewrite Hstmt, Hblock, Hmc, Hst.
  replace (includes ["FunctionExpression"; "ArrowFunctionExpression"]
             (node_type f)) with true by (destruct f; try discriminate;
                                          reflexivity).
  rewrite !String.eqb_refl. cbn [andb].
  destruct c as [| | |i [] []| | | | | | |]; try exact Hsame.
  rewrite andb_true_r. unfold includes, NESTABLE_HOOK_NAMES.
  cbn [existsb]. rewrite orb_false_r.
  destruct (_ || _); [|exact Hsame].
  destruct (eq_name _ _); [exact Hsame|reflexivity].
Qed.

Lemma hook_calls_walk i block f k0 mc margs ps calls :
  node_type block = "BlockStatement" ->
  is_function f = true ->
  utils.isModule mc = true ->
  forall q k s top rest,
    forallb plain_statement calls = true ->
    moduleStack s = top :: rest ->
    traverse_list the_rule (block :: f :: CallExpression k0 mc margs :: ps)
      q k
      (map (fun c : node * list node =>
              Other (i 3) "ExpressionStatement"
                [CallExpression (i 4) (fst c) (snd c)])
         calls) s
    = Ok (mkState (moduleStack s)
            (reports s ++ hook_reports q (hookIdentifierName top) k calls)).
Proof.
  intros Hblock Hf Hmc.
  induction calls as [|[c args] calls IH]; intros q k s top rest;
    cbn [map traverse_list forallb hook_reports fst snd].
  - intros _ _. rewrite app_nil_r. destruct s; reflexivity.
  - intros [[[Hc Hcf]%andb_true_iff Hargs]%andb_true_iff Hcalls]%andb_true_iff
      Hst.
    cbn [fst snd] in Hc, Hcf, Hargs. apply negb_true_iff in Hc.
    rewrite (traverse_unfold _ _ _ (Other _ _ _)).
    rewrite hooks_enter_other by reflexivity.
    cbn [mbind result_bind children traverse_list].
    rewrite (traverse_unfold _ _ _ (CallExpression _ _ _)).
    rewrite (hook_call_enter _ _ _ _ _ _ _ _ _ _ _ _ top rest)
      by (assumption || reflexivity).
    cbn [mbind result_bind children traverse_list].
    rewrite (call_free_inert the_rule hooks_enter_other hooks_leave_other)
      by exact Hcf.
    cbn [mbind result_bind].
    rewrite (call_free_list_inert the_rule hooks_enter_other
               hooks_leave_other) by exact Hargs.
    cbn [mbind result_bind]. rewrite hooks_leave_call by exact Hc.
    cbn [mbind result_bind].
    rewrite hooks_leave_other by reflexivity. cbn [mbind result_bind].
    rewrite (IH q (S k) _ top rest) by assumption.
    cbn [moduleStack reports]. rewrite <- app_assoc. reflexivity.
Qed.

(** X26.  In [moduleCallee(name, function (params) { ... })], whose body is
    a sequence of call statements that are not module calls and hold no
    further call, the ancestor-hook rule reports the callee of exactly the
    calls [receiver.beforeEach(...)] and [receiver.afterEach(...)] whose
    receiver is not the first parameter of the callback that is an
    identifier other than [this]; without such a parameter each of them is
    reported.  Each report is on the callee of its call, the child 0 of the
    call in statement [k] of the body, bears the message
    "noHooksFromAncestorModules" with the method and the receiver as its
    data, and has neither fix nor suggestion.  The module stack is the same
    after the walk as before. *)
Theorem hook_receiver_checked_against_parameter
  i moduleCallee name params calls ps p st :
  utils.isModule moduleCallee = true ->
  call_free name = true ->
  forallb call_free params = true ->
  forallb plain_statement calls = true ->
  traverse the_rule ps p (hooks_module i moduleCallee name params calls) st
  = Ok (mkState (moduleStack st)
          (reports st ++
             hook_reports (length params :: 2 :: p) (hooks_parameter params)
               0 calls)).
Proof.
  intros Hm Hname Hparams Hcalls. unfold hooks_module.
  rewrite traverse_unfold. cbn [enter the_rule v_node v_path].
  unfold CallExpression_enter at 1. rewrite Hm.
  cbn [getCallbackArg drop take find is_function function_params].
  cbn [mbind result_bind children traverse_list].
  rewrite (test_callee_inert the_rule hooks_enter_other hooks_leave_other _
             moduleCallee) by exact Hm.
  cbn [mbind result_bind].
  rewrite (call_free_inert the_rule hooks_enter_other hooks_leave_other)
    by exact Hname.
  cbn [mbind result_bind].
  rewrite (traverse_unfold _ _ _ (FunctionExpression _ _ _)).
  rewrite hooks_enter_other by reflexivity.
  cbn [mbind result_bind children].
  rewrite traverse_list_app.
  rewrite (call_free_list_inert the_rule hooks_enter_other hooks_leave_other)
    by exact Hparams.
  cbn [mbind result_bind traverse_list].
  rewrite (traverse_unfold _ _ _ (Other _ "BlockStatement" _)).
  rewrite hooks_enter_other by reflexivity.
  cbn [mbind result_bind children].
  erewrite hook_calls_walk; [|reflexivity|reflexivity|exact Hm|exact Hcalls
                             |reflexivity].
  cbn [mbind result_bind]. rewrite hooks_leave_other by reflexivity.
  cbn [mbind result_bind]. rewrite hooks_leave_other by reflexivity.
  cbn [mbind result_bind leave the_rule v_node].
  unfold CallExpression_exit. rewrite Hm.
  cbn [moduleStack reports tail hookIdentifierName].
  rewrite hooks_parameter_find. reflexivity.
Qed.

Lemma hook_receiver_checked_against_parameter_witness :
  traverse the_rule [] []
    (hooks_module (fun _ => Src "" 1) (Build.QUnit_ "module")
       (Build.str "A") [Build.ident "this"; Build.ident "hooks"]
       [ (Build.member (Build.ident "hooks") (Build.ident "beforeEach"), []);
         (Build.member (Build.ident "other") (Build.ident "afterEach"), []);
         (Build.member (Build.ident "other") (Build.ident "before"), []) ])
    initial
  = Ok (mkState []
          [Report [0; 0; 1; 2; 2] "noHooksFromAncestorModules"
             [ ("invokedMethodName", "afterEach");
               ("usedHooksIdentifierName", "other") ]
             None []]).
Proof.
  apply (hook_receiver_checked_against_parameter (fun _ => Src "" 1)
           (Build.QUnit_ "module") (Build.str "A")
           [Build.ident "this"; Build.ident "hooks"]
           [ (Build.member (Build.ident "hooks") (Build.ident "beforeEach"), []);
             (Build.member (Build.ident "other") (Build.ident "afterEach"), []);
             (Build.member (Build.ident "other") (Build.ident "before"), []) ]
           [] [] initial); reflexivity.
Defined.
End NoHooksReceiver.

(** ** no-identical-names: files in the flat style *)

Section NoIdenticalNamesFlat.
Import NoIdenticalNames.

Lemma isTest_not_isModule c : utils.isTest c = true -> utils.isModule c = false.
Proof.
  apply bare_or_QUnit_excl. intros name H%includes_inv.
  repeat destruct H as [<-|H]; try reflexivity. destruct H.
Qed.

Lemma names_enter_other v s :
  is_CallExpression (v_node v) = false -> enter the_rule v s = Ok s.
Proof. destruct v as [p [] ps]; try discriminate; reflexivity. Qed.

Lemma names_leave_other v s :
  is_CallExpression (v_node v) = false -> leave the_rule v s = Ok s.
Proof. destruct v as [p [] ps]; try discriminate; reflexivity. Qed.

(** At the top level, where the top of the stack is the constant, a call
    that is neither test nor module changes nothing. *)
Lemma names_nothing_inert n ps p s :
  names_nothing n = true ->
  head (modulesStack s) = Some TOP_LEVEL_MODULE_NODE ->
  traverse the_rule ps p n s = Ok s.
Proof.
  intros Hn Hs.
  destruct (traverse_balanced_in the_rule names_no_call
              (fun _ s => head (modulesStack s) = Some TOP_LEVEL_MODULE_NODE)
              (fun s => s)) with (n := n) (ps := ps) (p := p) (s := s)
    as (s' & H & _ & ->); [|exact Hn|exact Hs|exact H].
  intros [q m qs] s0 Hm Hs0. cbn [v_node v_path v_parents] in *.
  exists s0.
  assert (Hleave : CallExpression_exit q s0 = s0).
  { unfold CallExpression_exit.
    destruct (modulesStack s0) as [|[[]|] rest]; try discriminate;
      reflexivity. }
  destruct m as [| | | |i callee args| | | | | |];
    try (split; [reflexivity|]; split; [exact Hs0|]; intros s2 _ ->;
         exists s0; auto).
  apply andb_true_iff in Hm as [Ht%negb_true_iff Hmod%negb_true_iff].
  assert (Henter : CallExpression_enter q (CallExpression i callee args) s0
                   = s0).
  { unfold CallExpression_enter, handleTestNames, handleModuleNames.
    destruct (isFirstArgLiteral _); [|reflexivity].
    destruct args as [|[] more]; try reflexivity.
    rewrite Hmod, Ht. reflexivity. }
  cbn [enter leave the_rule v_node v_path]. rewrite Henter.
  split; [reflexivity|]. split; [exact Hs0|]. intros s2 _ ->.
  exists s0. rewrite Hleave. auto.
Qed.

Lemma names_nothing_list_inert l : forall ps p k s,
  forallb names_nothing l = true ->
  head (modulesStack s) = Some TOP_LEVEL_MODULE_NODE ->
  traverse_list the_rule ps p k l s = Ok s.
Proof.
  induction l as [|n l IH]; intros ps p k s; cbn [forallb traverse_list];
    [reflexivity|].
  intros [Hn Hl]%andb_true_iff Hs.
  rewrite names_nothing_inert by assumption. cbn [mbind result_bind]. auto.
Qed.

(** The calls recorded for a module, as the handlers search them, and the
    calls of the file they stand for. *)
Lemma duplicate_found i title q messageId : forall recorded calls,
  map snd recorded = map (call_of i) calls ->
  match find (has_title title) recorded with
  | Some t => [duplicate_report q messageId t]
  | None => []
  end
  = duplicate q messageId title calls.
Proof.
  unfold duplicate.
  induction recorded as [|[r m] recorded IH]; intros [|e calls] H;
    try discriminate H; [reflexivity|].
  cbn [map snd] in H. injection H as -> H. cbn [find].
  unfold has_title at 1. cbn [snd call_of].
  destruct (strict_eq (nc_title e) title); [reflexivity|]. apply IH, H.
Qed.

(** The module that the tests of the group are recorded under. *)
Lemma flat_current_module s info0 ck cinfo :
  modulesStack s = [TOP_LEVEL_MODULE_NODE] ->
  mapModuleNodeToInfo s !! (None : option path) = Some info0 ->
  mapModuleNodeToInfo s !! ck = Some cinfo ->
  (modules info0 = [] /\ ck = None)
  \/ (exists l q n, modules info0 = (l ++ [(q, n)])%list /\ ck = Some q
                    /\ hasNestedTests cinfo = false) ->
  exists cmn, getCurrentModuleNode s = Some cmn /\ key_of cmn = ck.
Proof.
  intros Hst H0 Hc Hck. unfold getCurrentModuleNode. rewrite Hst.
  cbn [key_of TOP_LEVEL_MODULE_NODE fmap option_fmap option_map].
  rewrite H0.
  destruct Hck as [[-> ->]|(l & q & n & -> & -> & Hflag)].
  - exists None. split; reflexivity.
  - unfold findLast. rewrite rev_app_distr. cbn [rev app find fst].
    rewrite Hc, Hflag. cbn [negb]. exists (Some (q, n)). split; reflexivity.
Qed.

(** A test call of a flat file. *)
Lemma flat_test_step i c mods group k ps s :
  utils.isTest (nc_callee c) = true ->
  forallb names_nothing (nc_more c) = true ->
  flat_inv i mods group s ->
  exists s',
    traverse the_rule ps [0; k] (call_of i c) s = Ok s'
    /\ flat_inv i mods (group ++ [c]) s'
    /\ reports s'
       = (reports s
            ++ duplicate (arg_path [0; k] 0) "duplicateTest" (nc_title c)
                 group)%list.
Proof.
  intros Ht Hmore (Hst & info0 & ck & cinfo & H0 & Hmods & Hc & Hgroup & Hck).
  destruct (flat_current_module s info0 ck cinfo Hst H0 Hc Hck)
    as (cmn & Hcur & Hkey).
  set (n := call_of i c).
  set (s1 := mkState (modulesStack s)
               (<[ ck := mkInfo (modules cinfo)
                           (tests cinfo ++ [([0; k], n)])
                           (hasNestedTests cinfo) ]>
                  (mapModuleNodeToInfo s))
               (reports s ++
                  duplicate (arg_path [0; k] 0) "duplicateTest" (nc_title c)
                    group)).
  assert (Henter : enter the_rule (Visit [0; k] n ps) s = Ok s1).
  { unfold n, call_of. cbn [enter the_rule v_node v_path].
    unfold CallExpression_enter. cbn [isFirstArgLiteral].
    unfold handleModuleNames. rewrite (isTest_not_isModule _ Ht).
    unfold handleTestNames. rewrite Ht, Hcur, Hkey, Hc.
    rewrite (duplicate_found i _ _ _ _ group Hgroup). reflexivity. }
  assert (Hleave : leave the_rule (Visit [0; k] n ps) s1 = Ok s1).
  { unfold n, call_of. cbn [leave the_rule v_node v_path].
    unfold CallExpression_exit, s1. cbn [modulesStack]. rewrite Hst.
    reflexivity. }
  exists s1. split; [|split; [|reflexivity]].
  - rewrite traverse_unfold, Henter. cbn [mbind result_bind].
    unfold n, call_of. cbn [children traverse_list].
    rewrite (call_free_inert the_rule names_enter_other names_leave_other)
      by (revert Ht; apply bare_or_QUnit_quiet; reflexivity).
    cbn [mbind result_bind].
    rewrite (traverse_unfold _ _ _ (Literal _ _)).
    rewrite names_enter_other by reflexivity.
    cbn [mbind result_bind children traverse_list].
    rewrite names_leave_other by reflexivity. cbn [mbind result_bind].
    rewrite names_nothing_list_inert
      by (try exact Hmore; unfold s1; cbn [modulesStack]; rewrite Hst;
          reflexivity).
    cbn [mbind result_bind]. exact Hleave.
  - split; [exact Hst|]. unfold s1. cbn [mapModuleNodeToInfo].
    destruct Hck as [[Hm ->]|(l & q & m & Hm & -> & Hflag)].
    + rewrite H0 in Hc. injection Hc as <-.
      eexists _, None, _. split; [apply lookup_insert_eq|].
      split; [exact Hmods|]. split; [apply lookup_insert_eq|].
      split; [|left; split; [exact Hm|reflexivity]].
      cbn [tests]. rewrite !map_app, Hgroup. reflexivity.
    + exists info0, (Some q). eexists.
      split; [rewrite lookup_insert_ne by discriminate; exact H0|].
      split; [exact Hmods|]. split; [apply lookup_insert_eq|].
      split; [cbn [tests]; rewrite !map_app, Hgroup; reflexivity|].
      right. exists l, q, m. auto.
Qed.

(** A module declaration of a flat file. *)
Lemma flat_module_step i c mods group k ps s :
  utils.isModule (nc_callee c) = true ->
  forallb call_free (nc_more c) = true ->
  flat_inv i mods group s ->
  exists s',
    traverse the_rule ps [0; k] (call_of i c) s = Ok s'
    /\ flat_inv i (mods ++ [c]) [] s'
    /\ reports s'
       = (reports s
            ++ duplicate (arg_path [0; k] 0) "duplicateModule" (nc_title c)
                 mods)%list.
Proof.
  intros Hm Hmore (Hst & info0 & ck & cinfo & H0 & Hmods & _).
  set (n := call_of i c).
  set (m1 := <[ Some [0; k] := mkInfo [] [] false ]>
               (<[ key_of TOP_LEVEL_MODULE_NODE :=
                     mkInfo (modules info0 ++ [([0; k], n)]) (tests info0)
                       (hasNestedTests info0) ]>
                  (mapModuleNodeToInfo s))).
  set (rs := (reports s
                ++ duplicate (arg_path [0; k] 0) "duplicateModule"
                     (nc_title c) mods)%list).
  assert (Henter : enter the_rule (Visit [0; k] n ps) s
                   = Ok (mkState (Some ([0; k], n) :: modulesStack s) m1 rs)).
  { unfold n at 1, call_of. cbn [enter the_rule v_node v_path].
    rewrite (enter_module _ _ _ _ _ _ _ _ _ _ Hm Hst H0).
    unfold ancestors. rewrite Hst. cbn [rev app omap list_omap find].
    rewrite (duplicate_found i _ _ _ _ mods Hmods), app_nil_r. reflexivity. }
  assert (Hflag : moduleHasNestedTests (mkState (modulesStack s) m1 rs)
                    (Some [0; k]) = false).
  { unfold moduleHasNestedTests. cbn [mapModuleNodeToInfo].
    destruct (size m1) as [|fuel] eqn:Hsize.
    - reflexivity.
    - cbn [moduleHasNestedTests_rec]. unfold m1 at 1.
      rewrite lookup_insert_eq. reflexivity. }
  set (s2 := mkState (modulesStack s)
               (<[ Some [0; k] := mkInfo [] [] false ]> m1) rs).
  assert (Hleave : leave the_rule (Visit [0; k] n ps)
                     (mkState (Some ([0; k], n) :: modulesStack s) m1 rs)
                   = Ok s2).
  { unfold n at 1, call_of. cbn [leave the_rule v_node v_path].
    unfold CallExpression_exit.
    cbn [modulesStack mapModuleNodeToInfo reports].
    rewrite bool_decide_eq_true_2 by reflexivity.
    unfold m1 at 1. rewrite lookup_insert_eq. fold m1.
    cbn [modules tests].
    match goal with
    | |- context [moduleHasNestedTests ?a ?b] =>
        replace (moduleHasNestedTests a b) with false
          by (symmetry; exact Hflag)
    end.
    reflexivity. }
  exists s2. split; [|split; [|reflexivity]].
  - rewrite traverse_unfold, Henter. cbn [mbind result_bind].
    unfold n, call_of. cbn [children traverse_list].
    rewrite (call_free_inert the_rule names_enter_other names_leave_other)
      by (revert Hm; apply bare_or_QUnit_quiet; reflexivity).
    cbn [mbind result_bind].
    rewrite (traverse_unfold _ _ _ (Literal _ _)).
    rewrite names_enter_other by reflexivity.
    cbn [mbind result_bind children traverse_list].
    rewrite names_leave_other by reflexivity. cbn [mbind result_bind].
    rewrite (call_free_list_inert the_rule names_enter_other
               names_leave_other) by exact Hmore.
    cbn [mbind result_bind]. exact Hleave.
  - split; [exact Hst|]. unfold s2, m1. cbn [mapModuleNodeToInfo].
    eexists _, (Some [0; k]), _.
    split; [rewrite !lookup_insert_ne by discriminate;
            apply lookup_insert_eq|].
    split; [cbn [modules]; rewrite !map_app, Hmods; reflexivity|].
    split; [apply lookup_insert_eq|]. split; [reflexivity|].
    right. exists (modules info0), [0; k], n. auto.
Qed.

Lemma flat_walk i : forall items mods group k ps s,
  forallb plain_item items = true ->
  flat_inv i mods group s ->
  exists s',
    traverse_list the_rule ps [] k
      (map (fun it => Other (i 1) "ExpressionStatement"
                        [call_of i (item_call it)])
         items)
      s
    = Ok s'
    /\ modulesStack s' = [TOP_LEVEL_MODULE_NODE]
    /\ reports s' = (reports s ++ flat_reports mods group k items)%list.
Proof.
  induction items as [|it items IH]; intros mods group k ps s;
    cbn [map traverse_list forallb flat_reports].
  - intros _ [Hst _]. exists s. rewrite app_nil_r. auto.
  - intros [Hit Hitems]%andb_true_iff Hinv.
    rewrite (traverse_unfold _ _ _ (Other _ _ _)).
    rewrite names_enter_other by reflexivity.
    cbn [mbind result_bind children traverse_list].
    destruct it as [c|c]; cbn [plain_item item_call] in *;
      apply andb_true_iff in Hit as [Hc Hmore].
    + destruct (flat_module_step i c mods group k
                  (Other (i 1) "ExpressionStatement" [call_of i c] :: ps) s
                  Hc Hmore Hinv) as (s1 & -> & Hinv1 & Hrs1).
      cbn [mbind result_bind]. rewrite names_leave_other by reflexivity.
      cbn [mbind result_bind].
      destruct (IH (mods ++ [c])%list [] (S k) ps s1 Hitems Hinv1)
        as (s' & -> & Hst' & Hrs').
      exists s'. split; [reflexivity|]. split; [exact Hst'|].
      rewrite Hrs', Hrs1, <- app_assoc. reflexivity.
    + destruct (flat_test_step i c mods group k
                  (Other (i 1) "ExpressionStatement" [call_of i c] :: ps) s
                  Hc Hmore Hinv) as (s1 & -> & Hinv1 & Hrs1).
      cbn [mbind result_bind]. rewrite names_leave_other by reflexivity.
      cbn [mbind result_bind].
      destruct (IH mods (group ++ [c])%list (S k) ps s1 Hitems Hinv1)
        as (s' & -> & Hst' & Hrs').
      exists s'. split; [reflexivity|]. split; [exact Hst'|].
      rewrite Hrs', Hrs1, <- app_assoc. reflexivity.
Qed.

(** X27.  In a file in the flat style, a sequence of statements
    [module(name);] and [test(name, ...);] with literals as names, a test
    belongs to the module declared last before it.  The rule reports the
    name of exactly the tests that have the title of an earlier test of the
    same module, and of the modules that have the title of an earlier
    module, each once and with the line of the first call of that title;
    the same test title under two module declarations is not reported.
    The module stack holds the top-level constant alone when the walk
    ends. *)
Theorem flat_file_duplicates i items :
  forallb plain_item items = true ->
  exists st,
    lint the_rule (flat_program i items) initial = Ok st
    /\ modulesStack st = [TOP_LEVEL_MODULE_NODE]
    /\ reports st = flat_reports [] [] 0 items.
Proof.
  intros Hitems. unfold lint, flat_program. rewrite traverse_unfold.
  rewrite names_enter_other by reflexivity.
  cbn [mbind result_bind children].
  destruct (flat_walk i items [] [] 0
              [Other (i 0) "Program"
                 (map (fun it => Other (i 1) "ExpressionStatement"
                                   [call_of i (item_call it)]) items)]
              initial Hitems)
    as (st & -> & Hst & Hrs).
  - split; [reflexivity|].
    exists (mkInfo [] [] false), None, (mkInfo [] [] false).
    repeat split; try reflexivity. left. split; reflexivity.
  - cbn [mbind result_bind]. rewrite names_leave_other by reflexivity.
    exists st. auto.
Qed.
Lemma flat_file_duplicates_witness :
  exists st,
    lint the_rule
      (flat_program (fun _ => Src "" 1)
         [ ModuleDecl (NamedCall (Build.QUnit_ "module") (Src "'m'" 1)
                         (LStr "m") []);
           TestCall (NamedCall (Build.QUnit_ "test") (Src "'a'" 2)
                       (LStr "a")
                       [Build.func [Build.ident "assert"]
                          [Build.stmt
                             (Build.call
                                (Build.member (Build.ident "assert")
                                   (Build.ident "ok"))
                                [Build.bool_lit true])]]);
           ModuleDecl (NamedCall (Build.ident "module") (Src "'n'" 3)
                         (LStr "n") []);
           TestCall (NamedCall (Build.ident "test") (Src "'a'" 4)
                       (LStr "a") []);
           TestCall (NamedCall (Build.ident "test") (Src "'a'" 5)
                       (LStr "a") []);
           ModuleDecl (NamedCall (Build.ident "module") (Src "'m'" 6)
                         (LStr "m") []) ])
      initial
    = Ok st
    /\ modulesStack st = [TOP_LEVEL_MODULE_NODE]
    /\ reports st
       = [ Report [1; 0; 4] "duplicateTest" [("line", "4")] None [];
           Report [1; 0; 5] "duplicateModule" [("line", "1")] None [] ].
Proof.
  apply (flat_file_duplicates (fun _ => Src "" 1)
           [ ModuleDecl (NamedCall (Build.QUnit_ "module") (Src "'m'" 1)
                         (LStr "m") []);
           TestCall (NamedCall (Build.QUnit_ "test") (Src "'a'" 2)
                       (LStr "a")
                       [Build.func [Build.ident "assert"]
                          [Build.stmt
                             (Build.call
                                (Build.member (Build.ident "assert")
                                   (Build.ident "ok"))
                                [Build.bool_lit true])]]);
           ModuleDecl (NamedCall (Build.ident "module") (Src "'n'" 3)
                         (LStr "n") []);
           TestCall (NamedCall (Build.ident "test") (Src "'a'" 4)
                       (LStr "a") []);
           TestCall (NamedCall (Build.ident "test") (Src "'a'" 5)
                       (LStr "a") []);
           ModuleDecl (NamedCall (Build.ident "module") (Src "'m'" 6)
                         (LStr "m") []) ]).
  reflexivity.
Defined.
End NoIdenticalNamesFlat.

Section NoIdenticalNamesStack.
Import NoIdenticalNames.

Lemma duplicate_report_shape q msg found :
  In msg ["duplicateTest"; "duplicateModule"; "duplicateModuleAncestor"] ->
  duplicate_name_report (duplicate_report q msg found).
Proof. intros H. split; [exact H|]. split; [eexists; reflexivity|auto]. Qed.

Lemma found_shape q msg (o : option (path * node)) :
  In msg ["duplicateTest"; "duplicateModule"; "duplicateModuleAncestor"] ->
  Forall duplicate_name_report
    match o with Some t => [duplicate_report q msg t] | None => [] end.
Proof.
  intros H. destruct o; constructor; [|constructor].
  apply duplicate_report_shape, H.
Qed.

Lemma handleModuleNames_reports p n s :
  Forall duplicate_name_report (reports s) ->
  Forall duplicate_name_report (reports (handleModuleNames p n s)).
Proof.
  intros H. unfold handleModuleNames.
  destruct n as [| | | |i callee [|[|j title| | | | | | | | |] more]| | | | | |];
    auto.
  destruct (utils.isModule callee); auto.
  destruct (modulesStack s) as [|cur rest]; auto.
  destruct (mapModuleNodeToInfo s !! key_of cur); auto.
  cbn [reports]. apply Forall_app_2; [exact H|].
  apply Forall_app_2; apply found_shape; simpl; auto.
Qed.

Lemma handleTestNames_reports p n s :
  Forall duplicate_name_report (reports s) ->
  Forall duplicate_name_report (reports (handleTestNames p n s)).
Proof.
  intros H. unfold handleTestNames.
  destruct n as [| | | |i callee [|[|j title| | | | | | | | |] more]| | | | | |];
    auto.
  destruct (utils.isTest callee); auto.
  destruct (getCurrentModuleNode s) as [cmn|]; auto.
  destruct (mapModuleNodeToInfo s !! key_of cmn); auto.
  cbn [reports]. apply Forall_app_2; [exact H|].
  apply found_shape; simpl; auto.
Qed.

Lemma exit_reports p s : reports (CallExpression_exit p s) = reports s.
Proof.
  unfold CallExpression_exit.
  destruct (modulesStack s) as [|[[q m]|] rest]; auto.
  destruct (bool_decide (q = p)); auto. cbn.
  destruct (mapModuleNodeToInfo s !! Some p); reflexivity.
Qed.

(** X28.  The module stack of the duplicate-name rule is popped by the call
    that pushed and by no other: whatever the file, the walk ends with the
    top-level constant alone on the stack.  Each report bears one of the
    three messages of the rule with a line as its data, and neither fix nor
    suggestion. *)
Theorem no_identical_names_stack_restored program :
  exists st,
    lint the_rule program initial = Ok st
    /\ modulesStack st = [TOP_LEVEL_MODULE_NODE]
    /\ Forall duplicate_name_report (reports st).
Proof.
  destruct (walk_keeps 0 None [] [] [] program initial)
    as (st & H & Hst & _).
  - exact I.
  - simpl. lia.
  - repeat constructor.
  - exists (mkInfo [] [] false). split; [reflexivity|]. apply prefix_nil.
  - exists st. split; [exact H|]. split; [exact Hst|].
    revert H. unfold lint.
    apply (traverse_preserves the_rule
             (fun s => Forall duplicate_name_report (reports s)));
      [| |constructor].
    + intros [p n ps] s s' Hs. cbn [enter the_rule v_node v_path].
      destruct n; intros [= <-]; try exact Hs.
      unfold CallExpression_enter. destruct (isFirstArgLiteral _); auto.
      apply handleTestNames_reports, handleModuleNames_reports, Hs.
    + intros [p n ps] s s' Hs. cbn [leave the_rule v_node v_path].
      destruct n; intros [= <-]; try exact Hs.
      rewrite exit_reports. exact Hs.
Qed.
End NoIdenticalNamesStack.
